(** * docura: the declaration-to-model analyser and the enhancement stage

    A shallow embedding of [internal/analyser] (the walk over the
    declarations that [go/doc] reports, producing a [PackageInfo]) and of the
    part of [internal/generator] that rewrites descriptions and adds
    examples, with the properties of the written specification stated over
    them. *)

From Stdlib Require Import Ascii.
From stdpp Require Import base option list strings gmap.

Local Open Scope stdpp_scope.
#[local] Set Warnings "-register-all".

(** ** Go's [strings] package

    Go strings are byte sequences; [string] (a list of [ascii], one per
    byte) is used as it is.  [len(s)] is [String.length s]. *)

Module strings.

Definition nl : ascii := "010"%char.
Definition tab : ascii := "009"%char.
Definition cr : ascii := "013"%char.
Definition quote : ascii := "034"%char.

Definition str (c : ascii) : string := String c EmptyString.

Fixpoint HasPrefix (s prefix : string) {struct prefix} : bool :=
  match prefix, s with
  | EmptyString, _ => true
  | String p prefix', String c s' => Ascii.eqb c p && HasPrefix s' prefix'
  | String _ _, EmptyString => false
  end.

Fixpoint drop (n : nat) (s : string) : string :=
  match n, s with
  | S n', String _ s' => drop n' s'
  | _, _ => s
  end.

Definition TrimPrefix (s prefix : string) : string :=
  if HasPrefix s prefix then drop (String.length prefix) s else s.

Definition HasSuffix (s suffix : string) : bool :=
  HasPrefix (String.rev s) (String.rev suffix).

Fixpoint Contains (s substr : string) : bool :=
  HasPrefix s substr ||
  match s with
  | EmptyString => false
  | String _ s' => Contains s' substr
  end.

Fixpoint Join (elems : list string) (sep : string) : string :=
  match elems with
  | [] => EmptyString
  | [e] => e
  | e :: rest => e +:+ sep +:+ Join rest sep
  end.

(** [Split s sep] for a non-empty [sep]: [skip] counts the bytes of a
    separator just matched that are still to be passed over, [cur] is the
    piece being collected. *)
Fixpoint split_from (sep : string) (skip : nat) (cur s : string) : list string :=
  match s with
  | EmptyString => [cur]
  | String c s' =>
      match skip with
      | S k => split_from sep k cur s'
      | O =>
          if HasPrefix s sep
          then cur :: split_from sep (String.length sep - 1) EmptyString s'
          else split_from sep 0 (cur +:+ str c) s'
      end
  end.

Definition Split (s sep : string) : list string :=
  split_from sep 0 EmptyString s.

(** [ReplaceAll s old new] for a non-empty [old], scanning left to right
    over non-overlapping matches. *)
Fixpoint replace_from (old new : string) (skip : nat) (s : string) : string :=
  match s with
  | EmptyString => EmptyString
  | String c s' =>
      match skip with
      | S k => replace_from old new k s'
      | O =>
          if HasPrefix s old
          then new +:+ replace_from old new (String.length old - 1) s'
          else String c (replace_from old new 0 s')
      end
  end.

Definition ReplaceAll (s old new : string) : string :=
  replace_from old new 0 s.

(** White space as [unicode.IsSpace] has it.  The six ASCII characters are
    single bytes; the others are matched by their UTF-8 encodings, which is
    what decoding runes gives on valid UTF-8, and Go source text is valid
    UTF-8. *)
Definition asciiSpace (c : ascii) : bool :=
  let n := nat_of_ascii c in
  (Nat.leb 9 n && Nat.leb n 13) || Nat.eqb n 32.

(** U+0085 and U+00A0: [C2 85], [C2 A0]. *)
Definition space2 (b1 b2 : ascii) : bool :=
  Nat.eqb (nat_of_ascii b1) 194 &&
  (Nat.eqb (nat_of_ascii b2) 133 || Nat.eqb (nat_of_ascii b2) 160).

(** U+1680 [E1 9A 80]; U+2000..U+200A [E2 80 80..8A]; U+2028, U+2029
    [E2 80 A8], [E2 80 A9]; U+202F [E2 80 AF]; U+205F [E2 81 9F];
    U+3000 [E3 80 80]. *)
Definition space3 (b1 b2 b3 : ascii) : bool :=
  let x := nat_of_ascii b1 in
  let y := nat_of_ascii b2 in
  let z := nat_of_ascii b3 in
  (Nat.eqb x 225 && Nat.eqb y 154 && Nat.eqb z 128) ||
  (Nat.eqb x 226 && Nat.eqb y 128 &&
     ((Nat.leb 128 z && Nat.leb z 138) || Nat.eqb z 168 || Nat.eqb z 169 ||
      Nat.eqb z 175)) ||
  (Nat.eqb x 226 && Nat.eqb y 129 && Nat.eqb z 159) ||
  (Nat.eqb x 227 && Nat.eqb y 128 && Nat.eqb z 128).

Fixpoint trimLeftSpace (s : string) : string :=
  match s with
  | EmptyString => s
  | String b1 s1 =>
      if asciiSpace b1 then trimLeftSpace s1 else
      match s1 with
      | EmptyString => s
      | String b2 s2 =>
          if space2 b1 b2 then trimLeftSpace s2 else
          match s2 with
          | EmptyString => s
          | String b3 s3 => if space3 b1 b2 b3 then trimLeftSpace s3 else s
          end
      end
  end.

(** The same scan from the end, on the reversed bytes. *)
Fixpoint trimLeftSpaceRev (s : string) : string :=
  match s with
  | EmptyString => s
  | String b1 s1 =>
      if asciiSpace b1 then trimLeftSpaceRev s1 else
      match s1 with
      | EmptyString => s
      | String b2 s2 =>
          if space2 b2 b1 then trimLeftSpaceRev s2 else
          match s2 with
          | EmptyString => s
          | String b3 s3 => if space3 b3 b2 b1 then trimLeftSpaceRev s3 else s
          end
      end
  end.

Definition TrimSpace (s : string) : string :=
  String.rev (trimLeftSpaceRev (String.rev (trimLeftSpace s))).

(** [Trim s cutset] for a cutset of one byte. *)
Fixpoint trimLeftByte (c : ascii) (s : string) : string :=
  match s with
  | String b s' => if Ascii.eqb b c then trimLeftByte c s' else s
  | EmptyString => s
  end.

Definition TrimByte (s : string) (c : ascii) : string :=
  String.rev (trimLeftByte c (String.rev (trimLeftByte c s))).

Definition eqb (s t : string) : bool := bool_decide (s = t).

End strings.

(** ** The documentation model ([analyser] package, the [*Info] structs)

    One module per struct, so that the fields keep their Go names.  A nil
    slice and an empty slice are both [[]]; the zero string is
    [EmptyString]. *)

Module ParamInfo.
Record t := mk { Name : string; Type_ : string }.
End ParamInfo.

Module ReturnInfo.
Record t := mk { Type_ : string; Description : string }.
End ReturnInfo.

Module FieldInfo.
Record t := mk { Name : string; Type_ : string; Tag : string; Description : string }.
End FieldInfo.

Module ExampleInfo.
Record t := mk { Name : string; Code : string; Doc : string }.
End ExampleInfo.

Module ConstantInfo.
Record t := mk {
  Name : string; Type_ : string; Value : string;
  Description : string; IsExported : bool }.
End ConstantInfo.

Module VariableInfo.
Record t := mk {
  Name : string; Type_ : string; Description : string; IsExported : bool }.
End VariableInfo.

Module FunctionInfo.
Record t := mk {
  Name : string;
  Signature : string;
  Description : string;
  Parameters : list ParamInfo.t;
  Returns : list ReturnInfo.t;
  Examples : list string;
  IsExported : bool;
  IsMethod : bool;
  Receiver : string }.
End FunctionInfo.

Module TypeInfo.
Record t := mk {
  Name : string;
  Kind : string;
  Description : string;
  Fields : list FieldInfo.t;
  Methods : list string;
  IsExported : bool }.
End TypeInfo.

Module PackageInfo.
Record t := mk {
  Name : string;
  Path : string;
  Description : string;
  Functions : list FunctionInfo.t;
  Types : list TypeInfo.t;
  Constants : list ConstantInfo.t;
  Variables : list VariableInfo.t;
  Examples : list ExampleInfo.t;
  Imports : list string }.
End PackageInfo.

(** ** The syntax tree ([go/ast]) and the documentation view ([go/doc])

    Only what the analyser reads.  A pointer that may be nil is an [option];
    an identifier is its [Name].  Field names carry a prefix where two
    structs of one package share them ([FType] is [FuncDecl.Type], [FDoc]
    is [Func.Doc], and so on), and [Type_] stands for [Type]. *)

Module ast.

Record Field (E : Type) := mkField {
  Names : list string;
  Type_ : E;
  Tag : option string }.
Arguments mkField {E}.
Arguments Names {E}.
Arguments Type_ {E}.
Arguments Tag {E}.

Inductive Expr :=
  | Ident (Name : string)
  | BasicLit (Value : string)
  | StarExpr (X : Expr)
  | ArrayType (Len : option Expr) (Elt : Expr)
  | MapType (Key Value : Expr)
  | SelectorExpr (X : Expr) (Sel : string)
  | InterfaceType (Methods : list (Field Expr))
  | StructType (Fields : list (Field Expr))
  | ChanType (Value : Expr)
  | FuncTypeExpr (Params Results : option (list (Field Expr)))
  | Ellipsis (Elt : option Expr)
  | OtherExpr.

(** [*ast.FieldList]: as an [option], [None] is the nil pointer and
    [Some l] has [List = l]. *)
Abbreviation FieldList := (list (Field Expr)).

Record FuncType := mkFuncType {
  Params : option FieldList;
  Results : option FieldList }.

Record FuncDecl := mkFuncDecl {
  Recv : option FieldList;
  Name : string;
  FType : option FuncType }.

Record ValueSpec := mkValueSpec {
  VNames : list string;
  VType : option Expr;
  Values : list (option Expr) }.

Record TypeSpec := mkTypeSpec {
  TName : string;
  TType : Expr }.

Inductive Spec :=
  | SpecValue (vs : ValueSpec)
  | SpecType (ts : TypeSpec)
  | SpecImport (path : string).

Record GenDecl := mkGenDecl { Specs : list Spec }.

(** [ast.File]: the [Path.Value] of each import, quotes included. *)
Record File := mkFile { Imports : list string }.

(** [ast.Package]: [Files] is a map from file name to file. *)
Record Package := mkPackage {
  PName : string;
  Files : gmap string File }.

End ast.

Module doc.

Record Func := mkFunc {
  FDoc : string;
  FName : string;
  FDecl : option ast.FuncDecl }.

Record Value := mkValue {
  VDoc : string;
  VDecl : ast.GenDecl }.

Record Type_ := mkType {
  TDoc : string;
  TName : string;
  TDecl : option ast.GenDecl;
  TConsts : list Value;
  TVars : list Value;
  TFuncs : list Func;
  Methods : list Func }.

Record Package := mkPackage {
  Doc : string;
  Name : string;
  Consts : list Value;
  Types : list Type_;
  Vars : list Value;
  Funcs : list Func }.

End doc.

(** ** Loops

    [for _, x := range l { acc = body(acc, x) }] is a left fold; the loops
    that only append are then a [flat_map]. *)

Definition for_range {A S : Type} (l : list A) (init : S) (body : S → A → S) : S :=
  fold_left body l init.

(** [for i, x := range l]. *)
Definition for_range_i {A S : Type} (l : list A) (init : S) (body : S → nat → A → S) : S :=
  fold_left (λ acc ix, body acc ix.1 ix.2) (zip (seq 0 (length l)) l) init.

(** ** Go [error] values

    Errors of the libraries are opaque; the two that the analyser makes
    itself with [fmt.Errorf] are kept apart. *)

Inductive error :=
| ExternalError (msg : string)
| ErrParsingPackage (err : error)   (* "parsing package: %w" *)
| ErrNoPackageFound (dir : string)  (* "no Golang package found in %s" *)
| ErrEnhancing (err : error)        (* "enhancing descriptions: %w" *)
| ErrGeneratingExamples (err : error) (* "generating examples: %w" *)
| ErrExecutingTemplate (err : error). (* "executing template: %w" *)

(** ** The analyser ([internal/analyser]) *)

Module analyser.

(** *** Type and expression text *)

Fixpoint typeToString (expr : ast.Expr) : string :=
  match expr with
  | ast.Ident Name => Name
  | ast.StarExpr X => "*" +:+ typeToString X
  | ast.ArrayType _ Elt => "[]" +:+ typeToString Elt
  | ast.MapType Key Value => "map[" +:+ typeToString Key +:+ "]" +:+ typeToString Value
  | ast.SelectorExpr X Sel => typeToString X +:+ "." +:+ Sel
  | ast.InterfaceType _ => "interface{}"
  | _ => "unknown"
  end.

Definition exprToString (expr : ast.Expr) : string :=
  match expr with
  | ast.BasicLit Value => Value
  | ast.Ident Name => Name
  | _ => "..."
  end.

Definition getTypeKind (expr : ast.Expr) : string :=
  match expr with
  | ast.StructType _ => "struct"
  | ast.InterfaceType _ => "interface"
  | ast.ArrayType _ _ => "array"
  | ast.MapType _ _ => "map"
  | ast.ChanType _ => "channel"
  | ast.FuncTypeExpr _ _ => "function"
  | _ => "alias"
  end.

(** *** Parameters, returns and fields *)

Definition extractParameters (fields : option ast.FieldList) : list ParamInfo.t :=
  match fields with
  | None => []
  | Some List =>
      for_range List [] (λ params field,
        let paramType := typeToString (ast.Type_ field) in
        if decide (length (ast.Names field) = 0)
        then params ++ [ParamInfo.mk EmptyString paramType]
        else for_range (ast.Names field) params (λ params name,
               params ++ [ParamInfo.mk name paramType]))
  end.

Definition extractReturns (fields : option ast.FieldList) : list ReturnInfo.t :=
  match fields with
  | None => []
  | Some List =>
      for_range List [] (λ returns field,
        returns ++ [ReturnInfo.mk (typeToString (ast.Type_ field)) EmptyString])
  end.

Definition extractFields (structFields : ast.FieldList) : list FieldInfo.t :=
  for_range structFields [] (λ fields field,
    let fieldType := typeToString (ast.Type_ field) in
    let tag := match ast.Tag field with Some Value => Value | None => EmptyString end in
    if decide (length (ast.Names field) = 0)
    then fields ++ [FieldInfo.mk EmptyString fieldType tag EmptyString]
    else for_range (ast.Names field) fields (λ fields name,
           fields ++ [FieldInfo.mk name fieldType tag EmptyString])).

(** *** Signature text *)

Definition fieldListToString (fields : option ast.FieldList) : string :=
  match fields with
  | None => EmptyString
  | Some List =>
      let parts := for_range List [] (λ parts field,
        let fieldType := typeToString (ast.Type_ field) in
        if decide (length (ast.Names field) = 0)
        then parts ++ [fieldType]
        else for_range (ast.Names field) parts (λ parts name,
               parts ++ [name +:+ " " +:+ fieldType])) in
      strings.Join parts ", "
  end.

(** [decl.Type] is dereferenced without a check: a nil [Type] panics,
    which is [None] here.  The one caller checks it first. *)
Definition getFunctionSignature (decl : ast.FuncDecl) : option string :=
  match ast.FType decl with
  | None => None
  | Some Type_ =>
      let parts := ["func"] in
      let parts :=
        match ast.Recv decl with
        | Some _ =>
            let recv := fieldListToString (ast.Recv decl) in
            parts ++ ["(" +:+ recv +:+ ")"]
        | None => parts
        end in
      let parts := parts ++ [ast.Name decl] in
      let parts :=
        match ast.Params Type_ with
        | Some _ =>
            let params := fieldListToString (ast.Params Type_) in
            parts ++ ["(" +:+ params +:+ ")"]
        | None => parts ++ ["()"]
        end in
      let parts :=
        match ast.Results Type_ with
        | Some List =>
            let results := fieldListToString (ast.Results Type_) in
            match List with
            | [field] =>
                if decide (length (ast.Names field) = 0)
                then parts ++ [results]
                else parts ++ ["(" +:+ results +:+ ")"]
            | _ => parts ++ ["(" +:+ results +:+ ")"]
            end
        | None => parts
        end in
      Some (strings.Join parts " ")
  end.

(** *** Example mining

    The loop of [extractExamples] keeps a flag, a buffer and the examples
    found so far; [scanLine] is one iteration of it. *)

Record scanner := mkScanner {
  inExample : bool;
  currentExample : string;
  examples : list string }.

Definition four_spaces : string := "    ".

Definition scanLine (st : scanner) (line : string) : scanner :=
  let trimmed := strings.TrimSpace line in
  if strings.HasPrefix trimmed "Example:" ||
     strings.HasPrefix trimmed "Usage:" ||
     strings.Contains trimmed "```go"
  then mkScanner true EmptyString (examples st)
  else if inExample st then
    if strings.Contains trimmed "```" ||
       (strings.eqb trimmed EmptyString && Nat.ltb 0 (String.length (currentExample st)))
    then
      if Nat.ltb 0 (String.length (currentExample st))
      then mkScanner false EmptyString (examples st ++ [currentExample st])
      else mkScanner false (currentExample st) (examples st)
    else if strings.HasPrefix line four_spaces ||
            strings.HasPrefix line (strings.str strings.tab)
    then mkScanner true
           (currentExample st +:+
            strings.TrimPrefix (strings.TrimPrefix line four_spaces)
                               (strings.str strings.tab) +:+
            strings.str strings.nl)
           (examples st)
    else st
  else st.

Definition extractExamples (doc : string) : list string :=
  let lines := strings.Split doc (strings.str strings.nl) in
  examples (for_range lines (mkScanner false EmptyString []) scanLine).

(** *** Doc text *)

Definition cleanDoc (doc : string) : string :=
  if strings.eqb doc EmptyString then EmptyString else
  let doc := strings.TrimSpace doc in
  let doc := strings.ReplaceAll doc (strings.str strings.cr +:+ strings.str strings.nl)
                                    (strings.str strings.nl) in
  let lines := strings.Split doc (strings.str strings.nl) in
  let cleaned := for_range lines [] (λ cleaned line,
    let line := strings.TrimSpace line in
    if negb (strings.eqb line EmptyString) then cleaned ++ [line] else cleaned) in
  strings.Join cleaned (strings.str strings.nl).

(** *** What the analyser calls outside this repository

    [ast.IsExported], [doc.New] and [parser.ParseDir] are taken as they
    are; [ParseDir] returns the packages it parsed and the first error it
    met, if any. *)

(** The order in which [range] visits a map is chosen by the runtime at
    each loop.  A [MapRange] is one such choice for the three maps that
    [AnalysePackage] ranges over; [MapRangeOk] says that each visits every
    entry once. *)
Record MapRange := mkMapRange {
  rangePkgs : gmap string ast.Package → list (string * ast.Package);
  rangeFiles : gmap string ast.File → list (string * ast.File);
  rangeImportSet : gset string → list string }.

Record MapRangeOk (r : MapRange) : Prop := mkMapRangeOk {
  rangePkgs_perm : ∀ m, rangePkgs r m ≡ₚ map_to_list m;
  rangeFiles_perm : ∀ m, rangeFiles r m ≡ₚ map_to_list m;
  rangeImportSet_perm : ∀ s, rangeImportSet r s ≡ₚ elements s }.

Section Declarations.

Variable IsExported : string → bool.
Variable doc_New : ast.Package → doc.Package.
Variable ParseDir : string → gmap string ast.Package * option error.

Definition analyseFunctionDecl (fn : doc.Func) : FunctionInfo.t :=
  let Name := doc.FName fn in
  let Description := cleanDoc (doc.FDoc fn) in
  let IsExported := IsExported (doc.FName fn) in
  let Examples := extractExamples (doc.FDoc fn) in
  match doc.FDecl fn with
  | Some decl =>
      match ast.FType decl, getFunctionSignature decl with
      | Some Type_, Some Signature =>
          FunctionInfo.mk Name Signature Description
            (extractParameters (ast.Params Type_))
            (extractReturns (ast.Results Type_))
            Examples IsExported false EmptyString
      | _, _ =>
          FunctionInfo.mk Name EmptyString Description [] [] Examples
            IsExported false EmptyString
      end
  | None =>
      FunctionInfo.mk Name EmptyString Description [] [] Examples
        IsExported false EmptyString
  end.

Definition analyseTypeDecl (typ : doc.Type_) : TypeInfo.t :=
  let info :=
    TypeInfo.mk (doc.TName typ) EmptyString (cleanDoc (doc.TDoc typ)) [] []
      (IsExported (doc.TName typ)) in
  let info :=
    match doc.TDecl typ with
    | Some Decl =>
        for_range (ast.Specs Decl) info (λ info spec,
          match spec with
          | ast.SpecType ts =>
              let Kind := getTypeKind (ast.TType ts) in
              let Fields :=
                match ast.TType ts with
                | ast.StructType Fields => extractFields Fields
                | _ => TypeInfo.Fields info
                end in
              TypeInfo.mk (TypeInfo.Name info) Kind (TypeInfo.Description info)
                Fields (TypeInfo.Methods info) (TypeInfo.IsExported info)
          | _ => info
          end)
    | None => info
    end in
  for_range (doc.Methods typ) info (λ info method,
    TypeInfo.mk (TypeInfo.Name info) (TypeInfo.Kind info)
      (TypeInfo.Description info) (TypeInfo.Fields info)
      (TypeInfo.Methods info ++ [doc.FName method]) (TypeInfo.IsExported info)).

Definition analyseConstantDecl (c : doc.Value) : list ConstantInfo.t :=
  for_range (ast.Specs (doc.VDecl c)) [] (λ constants spec,
    match spec with
    | ast.SpecValue vs =>
        for_range_i (ast.VNames vs) constants (λ constants i name,
          let Type_ :=
            match ast.VType vs with
            | Some t => typeToString t
            | None => EmptyString
            end in
          let Value :=
            match ast.Values vs !! i with
            | Some (Some e) => exprToString e
            | _ => EmptyString
            end in
          constants ++
            [ConstantInfo.mk name Type_ Value (cleanDoc (doc.VDoc c))
               (IsExported name)])
    | _ => constants
    end).

Definition analyseVariableDecl (v : doc.Value) : list VariableInfo.t :=
  for_range (ast.Specs (doc.VDecl v)) [] (λ variables spec,
    match spec with
    | ast.SpecValue vs =>
        for_range (ast.VNames vs) variables (λ variables name,
          let Type_ :=
            match ast.VType vs with
            | Some t => typeToString t
            | None => EmptyString
            end in
          variables ++
            [VariableInfo.mk name Type_ (cleanDoc (doc.VDoc v)) (IsExported name)])
    | _ => variables
    end).

Section Run.

Variable r : MapRange.

Definition importSet (pkg : ast.Package) : gset string :=
  for_range (rangeFiles r (ast.Files pkg)) ∅ (λ importSet kf,
    for_range (ast.Imports kf.2) importSet (λ importSet imp,
      let path := strings.TrimByte imp strings.quote in
      {[ path ]} ∪ importSet)).

Definition extractImports (pkg : ast.Package) : list string :=
  for_range (rangeImportSet r (importSet pkg)) [] (λ imports imp,
    imports ++ [imp]).

(** The loop over [pkgs] with its [break]. *)
Fixpoint selectPackage (visited : list (string * ast.Package)) : option ast.Package :=
  match visited with
  | [] => None
  | (name, p) :: rest =>
      if negb (strings.HasSuffix name "_test") then Some p
      else selectPackage rest
  end.

Definition AnalysePackage (dir : string) : option PackageInfo.t * option error :=
  let '(pkgs, err) := ParseDir dir in
  match err with
  | Some err => (None, Some (ErrParsingPackage err))
  | None =>
      match selectPackage (rangePkgs r pkgs) with
      | None => (None, Some (ErrNoPackageFound dir))
      | Some pkg =>
          let docPkg := doc_New pkg in
          let Functions :=
            for_range (doc.Funcs docPkg) [] (λ Functions fn,
              Functions ++ [analyseFunctionDecl fn]) in
          let '(Types, Functions) :=
            for_range (doc.Types docPkg) ([], Functions) (λ acc typ,
              let typeInfo := analyseTypeDecl typ in
              let Types := acc.1 ++ [typeInfo] in
              let Functions :=
                for_range (doc.Methods typ) acc.2 (λ Functions method,
                  let methodInfo := analyseFunctionDecl method in
                  Functions ++
                    [FunctionInfo.mk
                       (FunctionInfo.Name methodInfo)
                       (FunctionInfo.Signature methodInfo)
                       (FunctionInfo.Description methodInfo)
                       (FunctionInfo.Parameters methodInfo)
                       (FunctionInfo.Returns methodInfo)
                       (FunctionInfo.Examples methodInfo)
                       (FunctionInfo.IsExported methodInfo)
                       true
                       (doc.TName typ)]) in
              (Types, Functions)) in
          let Constants :=
            for_range (doc.Consts docPkg) [] (λ Constants c,
              Constants ++ analyseConstantDecl c) in
          let Variables :=
            for_range (doc.Vars docPkg) [] (λ Variables v,
              Variables ++ analyseVariableDecl v) in
          (Some (PackageInfo.mk (doc.Name docPkg) dir
                   (cleanDoc (doc.Doc docPkg))
                   Functions Types Constants Variables []
                   (extractImports pkg)),
           None)
      end
  end.

End Run.

End Declarations.

End analyser.

(** ** The enhancement stage ([internal/generator])

    The language service answers a prompt with the content of its first
    choice or with an error, and may answer the same prompt differently the
    next time: its state is threaded as [World].  How a prompt is rendered
    from a template and how the package template is executed belong to
    other libraries and are taken as they are. *)

Module generator.

Record DocConfig := mkDocConfig {
  ProjectName : string;
  ProjectDesc : string;
  OutputDir : string;
  IncludePrivate : bool;
  GenerateExamples : bool;
  Style : string }.

Definition setPackageDescription (pkg : PackageInfo.t) (d : string) : PackageInfo.t :=
  PackageInfo.mk (PackageInfo.Name pkg) (PackageInfo.Path pkg) d
    (PackageInfo.Functions pkg) (PackageInfo.Types pkg) (PackageInfo.Constants pkg)
    (PackageInfo.Variables pkg) (PackageInfo.Examples pkg) (PackageInfo.Imports pkg).

Definition setPackageFunctions (pkg : PackageInfo.t) (fns : list FunctionInfo.t) : PackageInfo.t :=
  PackageInfo.mk (PackageInfo.Name pkg) (PackageInfo.Path pkg) (PackageInfo.Description pkg)
    fns (PackageInfo.Types pkg) (PackageInfo.Constants pkg)
    (PackageInfo.Variables pkg) (PackageInfo.Examples pkg) (PackageInfo.Imports pkg).

Definition setPackageTypes (pkg : PackageInfo.t) (tys : list TypeInfo.t) : PackageInfo.t :=
  PackageInfo.mk (PackageInfo.Name pkg) (PackageInfo.Path pkg) (PackageInfo.Description pkg)
    (PackageInfo.Functions pkg) tys (PackageInfo.Constants pkg)
    (PackageInfo.Variables pkg) (PackageInfo.Examples pkg) (PackageInfo.Imports pkg).

Definition setPackageExamples (pkg : PackageInfo.t) (exs : list ExampleInfo.t) : PackageInfo.t :=
  PackageInfo.mk (PackageInfo.Name pkg) (PackageInfo.Path pkg) (PackageInfo.Description pkg)
    (PackageInfo.Functions pkg) (PackageInfo.Types pkg) (PackageInfo.Constants pkg)
    (PackageInfo.Variables pkg) exs (PackageInfo.Imports pkg).

Definition setFunctionDescription (fn : FunctionInfo.t) (d : string) : FunctionInfo.t :=
  FunctionInfo.mk (FunctionInfo.Name fn) (FunctionInfo.Signature fn) d
    (FunctionInfo.Parameters fn) (FunctionInfo.Returns fn) (FunctionInfo.Examples fn)
    (FunctionInfo.IsExported fn) (FunctionInfo.IsMethod fn) (FunctionInfo.Receiver fn).

Definition setFunctionExamples (fn : FunctionInfo.t) (exs : list string) : FunctionInfo.t :=
  FunctionInfo.mk (FunctionInfo.Name fn) (FunctionInfo.Signature fn)
    (FunctionInfo.Description fn) (FunctionInfo.Parameters fn) (FunctionInfo.Returns fn)
    exs (FunctionInfo.IsExported fn) (FunctionInfo.IsMethod fn) (FunctionInfo.Receiver fn).

Definition setTypeDescription (ty : TypeInfo.t) (d : string) : TypeInfo.t :=
  TypeInfo.mk (TypeInfo.Name ty) (TypeInfo.Kind ty) d (TypeInfo.Fields ty)
    (TypeInfo.Methods ty) (TypeInfo.IsExported ty).

Section Enhancer.

Context {World : Type}.

(** [dg.llm.GenerateContent] followed by [response.Choices[0].Content]:
    the content of the first choice, or the error.  A response without
    choices, on which the indexing would panic, is not modelled. *)
Variable GenerateContent : World → string → (string + error) * World.

(** [prompts.NewPromptTemplate(...).Format(...)] for each of the five
    templates, as a function of what the code passes to it. *)
Variable packageDescriptionPrompt : PackageInfo.t → string + error.
Variable functionDescriptionPrompt : FunctionInfo.t → string + error.
Variable typeDescriptionPrompt : TypeInfo.t → string + error.
Variable packageExamplePrompt : PackageInfo.t → string + error.
Variable functionExamplePrompt : FunctionInfo.t → PackageInfo.t → string + error.

(** [dg.templates["package"].Execute]. *)
Variable ExecuteTemplate : PackageInfo.t → string + error.

(** The common tail of the five helpers: format, ask, trim. *)
Definition ask (prompt : string + error) (w : World) : (string * option error) * World :=
  match prompt with
  | inr err => ((EmptyString, Some err), w)
  | inl prompt =>
      match GenerateContent w prompt with
      | (inr err, w) => ((EmptyString, Some err), w)
      | (inl content, w) => ((strings.TrimSpace content, None), w)
      end
  end.

Definition enhancePackageDescription (pkg : PackageInfo.t) := ask (packageDescriptionPrompt pkg).
Definition enhanceFunctionDescription (fn : FunctionInfo.t) := ask (functionDescriptionPrompt fn).
Definition enhanceTypeDescription (typ : TypeInfo.t) := ask (typeDescriptionPrompt typ).
Definition generatePackageExample (pkg : PackageInfo.t) := ask (packageExamplePrompt pkg).
Definition generateFunctionExample (fn : FunctionInfo.t) (pkg : PackageInfo.t) :=
  ask (functionExamplePrompt fn pkg).

(** [err == nil] and [enhanced] is not the empty string. *)
Definition accepted (res : string * option error) : bool :=
  match res.2 with
  | None => negb (strings.eqb res.1 EmptyString)
  | Some _ => false
  end.

Definition enhanceDescriptions (pkg : PackageInfo.t) (w : World)
  : (PackageInfo.t * option error) * World :=
  let '(pkg, w) :=
    if Nat.ltb (String.length (PackageInfo.Description pkg)) 50 then
      let '(res, w) := enhancePackageDescription pkg w in
      if accepted res then (setPackageDescription pkg res.1, w) else (pkg, w)
    else (pkg, w) in
  let '(pkg, w) :=
    for_range (seq 0 (length (PackageInfo.Functions pkg))) (pkg, w) (λ st i,
      let '(pkg, w) := st in
      match PackageInfo.Functions pkg !! i with
      | Some fn =>
          if Nat.ltb (String.length (FunctionInfo.Description fn)) 20 then
            let '(res, w) := enhanceFunctionDescription fn w in
            if accepted res
            then (setPackageFunctions pkg
                    (<[i := setFunctionDescription fn res.1]> (PackageInfo.Functions pkg)), w)
            else (pkg, w)
          else (pkg, w)
      | None => (pkg, w)
      end) in
  let '(pkg, w) :=
    for_range (seq 0 (length (PackageInfo.Types pkg))) (pkg, w) (λ st i,
      let '(pkg, w) := st in
      match PackageInfo.Types pkg !! i with
      | Some typ =>
          if Nat.ltb (String.length (TypeInfo.Description typ)) 20 then
            let '(res, w) := enhanceTypeDescription typ w in
            if accepted res
            then (setPackageTypes pkg
                    (<[i := setTypeDescription typ res.1]> (PackageInfo.Types pkg)), w)
            else (pkg, w)
          else (pkg, w)
      | None => (pkg, w)
      end) in
  ((pkg, None), w).

Definition generateExamples (pkg : PackageInfo.t) (w : World)
  : (PackageInfo.t * option error) * World :=
  let '(pkg, w) :=
    if decide (length (PackageInfo.Examples pkg) = 0) then
      let '(res, w) := generatePackageExample pkg w in
      if accepted res
      then (setPackageExamples pkg
              (PackageInfo.Examples pkg ++
                 [ExampleInfo.mk "Basic Usage" res.1 "Basic usage example"]), w)
      else (pkg, w)
    else (pkg, w) in
  let '(pkg, w) :=
    for_range (seq 0 (length (PackageInfo.Functions pkg))) (pkg, w) (λ st i,
      let '(pkg, w) := st in
      match PackageInfo.Functions pkg !! i with
      | Some fn =>
          if bool_decide (length (FunctionInfo.Examples fn) = 0) && FunctionInfo.IsExported fn then
            let '(res, w) := generateFunctionExample fn pkg w in
            if accepted res
            then (setPackageFunctions pkg
                    (<[i := setFunctionExamples fn (FunctionInfo.Examples fn ++ [res.1])]>
                       (PackageInfo.Functions pkg)), w)
            else (pkg, w)
          else (pkg, w)
      | None => (pkg, w)
      end) in
  ((pkg, None), w).

(** [GeneratePackageDoc]: the text and error it returns, the model behind
    [pkg] as it leaves it, and the state of the language service. *)
Definition GeneratePackageDoc (pkg : PackageInfo.t) (config : DocConfig) (w : World)
  : (string * option error) * PackageInfo.t * World :=
  let '((pkg, err), w) := enhanceDescriptions pkg w in
  match err with
  | Some err => ((EmptyString, Some (ErrEnhancing err)), pkg, w)
  | None =>
      let '((pkg, err), w) :=
        if GenerateExamples config then generateExamples pkg w
        else ((pkg, None), w) in
      match err with
      | Some err => ((EmptyString, Some (ErrGeneratingExamples err)), pkg, w)
      | None =>
          match ExecuteTemplate pkg with
          | inr err => ((EmptyString, Some (ErrExecutingTemplate err)), pkg, w)
          | inl result => ((result, None), pkg, w)
          end
      end
  end.

End Enhancer.

End generator.

(** ** The specification's words, for comparison with the code *)

Module spec.

(** "a return group binding n >= 1 names to one type yields n entries, and
    an anonymous return group yields one entry": the number of values a
    field list declares. *)
Definition declaredValues (List : ast.FieldList) : nat :=
  sum_list (map (λ field : ast.Field ast.Expr,
                   match ast.Names field with
                   | [] => 1
                   | names => length names
                   end) List).

(** "returns are expanded per name exactly as parameters are". *)
Definition expandedReturns (List : ast.FieldList) : list ReturnInfo.t :=
  map (λ p, ReturnInfo.mk (ParamInfo.Type_ p) EmptyString)
      (analyser.extractParameters (Some List)).

(** "Builds: <keyword> [(<receiver-name> <receiver-type>)] <name>(<params>)
    <returns>", with the return clause "a parenthesized comma-joined list"
    unless "exactly one return value is declared and it is unnamed", which
    is rendered as "its bare type text". *)
Definition returnClause (Type_ : ast.FuncType) : string :=
  match ast.Results Type_ with
  | Some [field] =>
      match ast.Names field with
      | [] => analyser.typeToString (ast.Type_ field)
      | _ => "(" +:+ analyser.fieldListToString (ast.Results Type_) +:+ ")"
      end
  | _ => "(" +:+ analyser.fieldListToString (ast.Results Type_) +:+ ")"
  end.

Definition signature (decl : ast.FuncDecl) (Type_ : ast.FuncType) : string :=
  "func" +:+
  match ast.Recv decl with
  | Some _ => " (" +:+ analyser.fieldListToString (ast.Recv decl) +:+ ")"
  | None => EmptyString
  end +:+
  " " +:+ ast.Name decl +:+
  "(" +:+ analyser.fieldListToString (ast.Params Type_) +:+ ")" +:+
  " " +:+ returnClause Type_.

(** "every line carrying a leading indentation of one tab or of four
    spaces is appended to the current buffer with exactly one layer of that
    indentation stripped, and lines without that indentation are ignored
    without ending the InExample state". *)
Definition indented (line : string) : bool :=
  strings.HasPrefix line analyser.four_spaces ||
  strings.HasPrefix line (strings.str strings.tab).

Definition stripOneLayer (line : string) : string :=
  if strings.HasPrefix line (strings.str strings.tab) then strings.drop 1 line
  else if strings.HasPrefix line analyser.four_spaces then strings.drop 4 line
  else line.

Definition inExampleLine (st : analyser.scanner) (line : string) : analyser.scanner :=
  if indented line
  then analyser.mkScanner true
         (analyser.currentExample st +:+ stripOneLayer line +:+ strings.str strings.nl)
         (analyser.examples st)
  else st.

(** "two invocations on the same parsed input always select the same
    package and produce the same model": two runs differ only in the order
    in which [range] visits the maps. *)
Definition deterministic (IsExported : string → bool) (doc_New : ast.Package → doc.Package)
    (ParseDir : string → gmap string ast.Package * option error) (dir : string) : Prop :=
  ∀ r1 r2, analyser.MapRangeOk r1 → analyser.MapRangeOk r2 →
    analyser.selectPackage (analyser.rangePkgs r1 (ParseDir dir).1) =
    analyser.selectPackage (analyser.rangePkgs r2 (ParseDir dir).1) ∧
    analyser.AnalysePackage IsExported doc_New ParseDir r1 dir =
    analyser.AnalysePackage IsExported doc_New ParseDir r2 dir.

End spec.

(** ** Models that agree up to the order of the imports *)

Definition sameModel (a b : PackageInfo.t) : Prop :=
  PackageInfo.Name a = PackageInfo.Name b ∧
  PackageInfo.Path a = PackageInfo.Path b ∧
  PackageInfo.Description a = PackageInfo.Description b ∧
  PackageInfo.Functions a = PackageInfo.Functions b ∧
  PackageInfo.Types a = PackageInfo.Types b ∧
  PackageInfo.Constants a = PackageInfo.Constants b ∧
  PackageInfo.Variables a = PackageInfo.Variables b ∧
  PackageInfo.Examples a = PackageInfo.Examples b ∧
  PackageInfo.Imports a ≡ₚ PackageInfo.Imports b.

Definition sameResult (a b : option PackageInfo.t * option error) : Prop :=
  a.2 = b.2 ∧
  match a.1, b.1 with
  | Some a, Some b => sameModel a b
  | None, None => True
  | _, _ => False
  end.

(** At most one package of [pkgs] has a name without the [_test] suffix. *)
Definition oneCandidate (pkgs : gmap string ast.Package) : Prop :=
  ∀ n1 n2 p1 p2,
    pkgs !! n1 = Some p1 → pkgs !! n2 = Some p2 →
    strings.HasSuffix n1 "_test" = false →
    strings.HasSuffix n2 "_test" = false →
    n1 = n2.

(** ** The lines on which the example scanner changes state

    The two conditions that [scanLine] tests before it looks at the
    indentation. *)

Definition opensExample (line : string) : bool :=
  let trimmed := strings.TrimSpace line in
  strings.HasPrefix trimmed "Example:" ||
  strings.HasPrefix trimmed "Usage:" ||
  strings.Contains trimmed "```go".

Definition closesExample (st : analyser.scanner) (line : string) : bool :=
  let trimmed := strings.TrimSpace line in
  strings.Contains trimmed "```" ||
  (strings.eqb trimmed EmptyString && Nat.ltb 0 (String.length (analyser.currentExample st))).

(** ** The text of a signature, piece by piece, as the code joins it *)

Definition receiverText (decl : ast.FuncDecl) : string :=
  match ast.Recv decl with
  | Some _ => " (" +:+ analyser.fieldListToString (ast.Recv decl) +:+ ")"
  | None => EmptyString
  end.

Definition resultsText (Type_ : ast.FuncType) : string :=
  match ast.Results Type_ with
  | None => EmptyString
  | Some [field] =>
      match ast.Names field with
      | [] => " " +:+ analyser.typeToString (ast.Type_ field)
      | _ => " (" +:+ analyser.fieldListToString (ast.Results Type_) +:+ ")"
      end
  | Some _ => " (" +:+ analyser.fieldListToString (ast.Results Type_) +:+ ")"
  end.

(** ** What one iteration of the extraction loops contributes *)

Definition paramsOfField (field : ast.Field ast.Expr) : list ParamInfo.t :=
  match ast.Names field with
  | [] => [ParamInfo.mk EmptyString (analyser.typeToString (ast.Type_ field))]
  | names => map (λ name, ParamInfo.mk name (analyser.typeToString (ast.Type_ field))) names
  end.

Definition constsOfSpec (IsExported : string → bool) (c : doc.Value) (spec : ast.Spec)
  : list ConstantInfo.t :=
  match spec with
  | ast.SpecValue vs =>
      imap (λ i name,
              ConstantInfo.mk name
                (match ast.VType vs with
                 | Some t => analyser.typeToString t
                 | None => EmptyString
                 end)
                (match ast.Values vs !! i with
                 | Some (Some e) => analyser.exprToString e
                 | _ => EmptyString
                 end)
                (analyser.cleanDoc (doc.VDoc c))
                (IsExported name))
           (ast.VNames vs)
  | _ => []
  end.

Definition methodInfoOf (IsExported : string → bool) (typ : doc.Type_) (method : doc.Func)
  : FunctionInfo.t :=
  let methodInfo := analyser.analyseFunctionDecl IsExported method in
  FunctionInfo.mk
    (FunctionInfo.Name methodInfo) (FunctionInfo.Signature methodInfo)
    (FunctionInfo.Description methodInfo) (FunctionInfo.Parameters methodInfo)
    (FunctionInfo.Returns methodInfo) (FunctionInfo.Examples methodInfo)
    (FunctionInfo.IsExported methodInfo) true (doc.TName typ).

Definition methodsOfType (IsExported : string → bool) (typ : doc.Type_) : list FunctionInfo.t :=
  map (methodInfoOf IsExported typ) (doc.Methods typ).

(** The model that [AnalysePackage] assembles once [pkg] is selected. *)
Definition modelOf (IsExported : string → bool) (doc_New : ast.Package → doc.Package)
    (r : analyser.MapRange) (dir : string) (pkg : ast.Package) : PackageInfo.t :=
  let docPkg := doc_New pkg in
  PackageInfo.mk (doc.Name docPkg) dir (analyser.cleanDoc (doc.Doc docPkg))
    (map (analyser.analyseFunctionDecl IsExported) (doc.Funcs docPkg) ++
     flat_map (methodsOfType IsExported) (doc.Types docPkg))
    (map (analyser.analyseTypeDecl IsExported) (doc.Types docPkg))
    (flat_map (analyser.analyseConstantDecl IsExported) (doc.Consts docPkg))
    (flat_map (analyser.analyseVariableDecl IsExported) (doc.Vars docPkg))
    []
    (analyser.extractImports r pkg).

(** ** What the enhancement stage may change

    A description may differ only if it was shorter than the threshold, an
    examples list only if it was empty. *)

Definition functionFrame (fn fn' : FunctionInfo.t) : Prop :=
  (20 ≤ String.length (FunctionInfo.Description fn) →
     FunctionInfo.Description fn' = FunctionInfo.Description fn) ∧
  (FunctionInfo.Examples fn ≠ [] →
     FunctionInfo.Examples fn' = FunctionInfo.Examples fn).

Definition typeFrame (typ typ' : TypeInfo.t) : Prop :=
  20 ≤ String.length (TypeInfo.Description typ) →
  TypeInfo.Description typ' = TypeInfo.Description typ.

Definition packageFrame (pkg pkg' : PackageInfo.t) : Prop :=
  (50 ≤ String.length (PackageInfo.Description pkg) →
     PackageInfo.Description pkg' = PackageInfo.Description pkg) ∧
  (PackageInfo.Examples pkg ≠ [] →
     PackageInfo.Examples pkg' = PackageInfo.Examples pkg) ∧
  Forall2 functionFrame (PackageInfo.Functions pkg) (PackageInfo.Functions pkg') ∧
  Forall2 typeFrame (PackageInfo.Types pkg) (PackageInfo.Types pkg').

(** ** Inputs used in the examples below *)

Module inputs.

Definition int_ : ast.Expr := ast.Ident "int".

(** The results of [func f() (a, b int)]. *)
Definition results_a_b_int : ast.FieldList := [ast.mkField ["a"; "b"] int_ None].

(** [const A, B = 1, 2] and [const A, B = 1]. *)
Definition const_A_B_1_2 : doc.Value :=
  doc.mkValue "doc"
    (ast.mkGenDecl [ast.SpecValue
       (ast.mkValueSpec ["A"; "B"] None
          [Some (ast.BasicLit "1"); Some (ast.BasicLit "2")])]).

Definition const_A_B_1 : doc.Value :=
  doc.mkValue "doc"
    (ast.mkGenDecl [ast.SpecValue
       (ast.mkValueSpec ["A"; "B"] None [Some (ast.BasicLit "1")])]).

(** ASCII upper case, for the examples. *)
Definition IsExported (name : string) : bool :=
  match name with
  | String c _ => Nat.leb 65 (nat_of_ascii c) && Nat.leb (nat_of_ascii c) 90
  | EmptyString => false
  end.

(** Scanner states inside an example, with an empty buffer and with one
    line collected. *)
Definition in_example_empty : analyser.scanner := analyser.mkScanner true EmptyString [].
Definition in_example_x : analyser.scanner :=
  analyser.mkScanner true ("x" +:+ strings.str strings.nl) [].

(** Four spaces, a tab and [y]; four spaces and a closing fence. *)
Definition line_spaces_tab_y : string := "    " +:+ String strings.tab "y".
Definition line_indented_fence : string := "    ```".

(** [func Run()]. *)
Definition run_type : ast.FuncType := ast.mkFuncType (Some []) None.
Definition run_decl : ast.FuncDecl := ast.mkFuncDecl None "Run" (Some run_type).

(** A package [demo] with [type Store struct{...}], its method
    [func (s *Store) Get(k string) (v int, ok bool)] and a function
    [func New() *Store]. *)
Definition get_decl : ast.FuncDecl :=
  ast.mkFuncDecl
    (Some [ast.mkField ["s"] (ast.StarExpr (ast.Ident "Store")) None])
    "Get"
    (Some (ast.mkFuncType
       (Some [ast.mkField ["k"] (ast.Ident "string") None])
       (Some [ast.mkField ["v"] int_ None; ast.mkField ["ok"] (ast.Ident "bool") None]))).

Definition new_decl : ast.FuncDecl :=
  ast.mkFuncDecl None "New"
    (Some (ast.mkFuncType (Some []) (Some [ast.mkField [] (ast.StarExpr (ast.Ident "Store")) None]))).

Definition store_type : doc.Type_ :=
  doc.mkType "Store keeps values." "Store"
    (Some (ast.mkGenDecl [ast.SpecType (ast.mkTypeSpec "Store"
       (ast.StructType [ast.mkField ["m"] (ast.MapType (ast.Ident "string") int_) None]))]))
    [] [] [] [doc.mkFunc "Get looks k up." "Get" (Some get_decl)].

Definition demo_doc : doc.Package :=
  doc.mkPackage "Package demo is a demonstration." "demo" [] [store_type] []
    [doc.mkFunc "New makes a Store." "New" (Some new_decl)].

Definition demo_pkg : ast.Package :=
  ast.mkPackage "demo" {[ "demo.go" := ast.mkFile [strings.str strings.quote +:+ "fmt" +:+ strings.str strings.quote] ]}.

Definition demo_test_pkg : ast.Package :=
  ast.mkPackage "demo_test" ∅.

(** A second package in the directory of another: a [package main] file
    next to the library's files. *)
Definition main_pkg : ast.Package :=
  ast.mkPackage "main" ∅.

Definition doc_New (pkg : ast.Package) : doc.Package :=
  if strings.eqb (ast.PName pkg) "demo" then demo_doc
  else doc.mkPackage EmptyString (ast.PName pkg) [] [] [] [].

(** A directory [demo] with the package and its external tests, a
    directory [tests] with external tests only, a directory [mixed] with
    the package and a [package main] file, and nothing elsewhere. *)
Definition ParseDir (dir : string) : gmap string ast.Package * option error :=
  if strings.eqb dir "demo" then
    ({[ "demo" := demo_pkg; "demo_test" := demo_test_pkg ]}, None)
  else if strings.eqb dir "tests" then
    ({[ "demo_test" := demo_test_pkg ]}, None)
  else if strings.eqb dir "mixed" then
    ({[ "demo" := demo_pkg; "main" := main_pkg ]}, None)
  else (∅, None).

(** A parse that fails before it reads a file, as [parser.ParseDir] does
    on a directory that cannot be opened: no package and an error. *)
Definition ParseDir_unreadable (dir : string) : gmap string ast.Package * option error :=
  (∅, Some (ExternalError ("open " +:+ dir +:+ ": no such file or directory"))).

(** Two runs: one visits every map in the order of [map_to_list] and
    [elements], the other in the reverse order. *)
Definition forwards : analyser.MapRange :=
  analyser.mkMapRange map_to_list map_to_list elements.

Definition backwards : analyser.MapRange :=
  analyser.mkMapRange (λ m, reverse (map_to_list m)) (λ m, reverse (map_to_list m))
    (λ s, reverse (elements s)).

(** A language service that counts its calls and answers every prompt
    with the same text, and prompts that are the name of their subject. *)
Definition GenerateContent (w : nat) (prompt : string) : (string + error) * nat :=
  (inl "  A generated text.  ", S w).

Definition packagePrompt (pkg : PackageInfo.t) : string + error :=
  inl (PackageInfo.Name pkg).
Definition functionPrompt (fn : FunctionInfo.t) : string + error :=
  inl (FunctionInfo.Name fn).
Definition typePrompt (typ : TypeInfo.t) : string + error :=
  inl (TypeInfo.Name typ).
Definition functionExamplePrompt (fn : FunctionInfo.t) (pkg : PackageInfo.t) : string + error :=
  inl (PackageInfo.Name pkg +:+ "." +:+ FunctionInfo.Name fn).
Definition ExecuteTemplate (pkg : PackageInfo.t) : string + error :=
  inl (PackageInfo.Name pkg).

Definition config : generator.DocConfig :=
  generator.mkDocConfig EmptyString EmptyString "./docs" false true "markdown".

(** A model with a package description of 51 bytes and an example, a
    function with a description of 20 bytes and an example, and a second
    function and a type with short descriptions and no example. *)
Definition long_description : string :=
  "Package demo keeps a small table of named integers.".

Definition documented : PackageInfo.t :=
  PackageInfo.mk "demo" "demo" long_description
    [FunctionInfo.mk "New" "func New () *Store" "New makes a Store.  " [] []
       ["s := demo.New()"] true false EmptyString;
     FunctionInfo.mk "Get" "func (s *Store) Get (k string) int" "Get." [] []
       [] true true "Store"]
    [TypeInfo.mk "Store" "struct" "Store." [] ["Get"] true]
    [] []
    [ExampleInfo.mk "Basic Usage" "demo.New()" "Basic usage example"]
    [].

End inputs.

(** ** The command ([cmd/generate.go])

    [generatePackageDocs], [shouldSkipDir], [hasGoSourceFiles] and the
    function that [generateDocs] hands to [filepath.Walk].  The file
    system, the standard output and the log are state; [filepath.Walk],
    [filepath.Join], [filepath.Dir], [os.MkdirAll], [os.WriteFile] and
    [os.ReadDir] are taken as they are. *)

Module cmd.

(** [filepath.Base] with [/] as the separator: the last element of the
    path, trailing slashes removed; [.] for the empty path and [/] for a
    path of slashes only.  It works on the reversed path. *)
Definition slash : ascii := "/"%char.

Fixpoint dropSlashes (r : string) : string :=
  match r with
  | String c r' => if Ascii.eqb c slash then dropSlashes r' else r
  | EmptyString => r
  end.

Fixpoint upToSlash (r : string) : string :=
  match r with
  | String c r' => if Ascii.eqb c slash then EmptyString else String c (upToSlash r')
  | EmptyString => EmptyString
  end.

Definition Base (path : string) : string :=
  if strings.eqb path EmptyString then "." else
  let last := String.rev (upToSlash (dropSlashes (String.rev path))) in
  if strings.eqb last EmptyString then "/" else last.

Definition shouldSkipDir (path : string) : bool :=
  let base := Base path in
  strings.eqb base "vendor" ||
  strings.eqb base ".git" ||
  strings.eqb base "testdata" ||
  strings.HasSuffix base "_test".

(** [os.DirEntry] and [os.FileInfo], as far as they are read. *)
Record DirEntry := mkDirEntry { Name : string; IsDir : bool }.
Record FileInfo := mkFileInfo { InfoIsDir : bool }.

(** The loop of [hasGoSourceFiles] with its early return. *)
Fixpoint anyGoSource (files : list DirEntry) : bool :=
  match files with
  | [] => false
  | file :: rest =>
      if negb (IsDir file) && strings.HasSuffix (Name file) ".go" &&
         negb (strings.HasSuffix (Name file) "_test.go")
      then true
      else anyGoSource rest
  end.

(** The errors that the command wraps with [fmt.Errorf], and those it
    passes on as they are. *)
Inductive cmdError :=
| Passed (err : error)
| ErrAnalyzingPackage (err : error)        (* "analyzing package: %w" *)
| ErrGeneratingDocumentation (err : error) (* "generating documentation: %w" *)
| ErrCreatingOutputDirectory (err : error) (* "creating output directory: %w" *)
| ErrWritingDocumentation (err : error).   (* "writing documentation: %w" *)

(** What [generatePackageDocs] returns: nil or an error; [Panicked] stands
    for the nil dereference that a nil model with a nil error would cause
    in [GeneratePackageDoc]. *)
Inductive outcome :=
| Ok
| Failed (err : cmdError)
| Panicked.

(** What the function handed to [filepath.Walk] returns: nil,
    [filepath.SkipDir] or an error; [Panics] stands for a nil dereference,
    that of [info.IsDir()] on a nil [info] included. *)
Inductive walkResult :=
| Continue
| SkipDir
| Fails (err : cmdError)
| Panics.

Section Command.

Context {World FS : Type}.

Variable IsExported : string → bool.
Variable doc_New : ast.Package → doc.Package.
Variable ParseDir : string → gmap string ast.Package * option error.
Variable r : analyser.MapRange.

Variable GenerateContent : World → string → (string + error) * World.
Variable packageDescriptionPrompt : PackageInfo.t → string + error.
Variable functionDescriptionPrompt : FunctionInfo.t → string + error.
Variable typeDescriptionPrompt : TypeInfo.t → string + error.
Variable packageExamplePrompt : PackageInfo.t → string + error.
Variable functionExamplePrompt : FunctionInfo.t → PackageInfo.t → string + error.
Variable ExecuteTemplate : PackageInfo.t → string + error.

Variable filepath_Join : string → string → string.
Variable filepath_Dir : string → string.
Variable MkdirAll : FS → string → option error * FS.
Variable WriteFile : FS → string → string → option error * FS.
Variable ReadDir : FS → string → list DirEntry * option error.

(** The state that the command works on: the language service, the file
    system, what was printed and what was logged (the directory and the
    error of each [log.Printf]). *)
Record Run := mkRun {
  llm : World;
  fs : FS;
  stdout : list string;
  log : list (string * cmdError) }.

Definition print (st : Run) (line : string) : Run :=
  mkRun (llm st) (fs st) (stdout st ++ [line]) (log st).

Definition hasGoSourceFiles (dir : string) (st : Run) : bool * option error :=
  let '(files, err) := ReadDir (fs st) dir in
  match err with
  | Some err => (false, Some err)
  | None => (anyGoSource files, None)
  end.

Definition generatePackageDocs (packageDir : string) (config : generator.DocConfig)
    (st : Run) : outcome * Run :=
  let st := print st ("Analyzing package: " +:+ packageDir +:+ strings.str strings.nl) in
  match analyser.AnalysePackage IsExported doc_New ParseDir r packageDir with
  | (_, Some err) => (Failed (ErrAnalyzingPackage err), st)
  | (None, None) => (Panicked, st)
  | (Some pkg, None) =>
      let '((doc, err), pkg, w) :=
        generator.GeneratePackageDoc GenerateContent packageDescriptionPrompt
          functionDescriptionPrompt typeDescriptionPrompt packageExamplePrompt
          functionExamplePrompt ExecuteTemplate pkg config (llm st) in
      let st := mkRun w (fs st) (stdout st) (log st) in
      match err with
      | Some err => (Failed (ErrGeneratingDocumentation err), st)
      | None =>
          let outputPath :=
            filepath_Join (generator.OutputDir config) (PackageInfo.Name pkg +:+ ".md") in
          let '(err, fs1) := MkdirAll (fs st) (filepath_Dir outputPath) in
          let st := mkRun (llm st) fs1 (stdout st) (log st) in
          match err with
          | Some err => (Failed (ErrCreatingOutputDirectory err), st)
          | None =>
              let '(err, fs2) := WriteFile (fs st) outputPath doc in
              let st := mkRun (llm st) fs2 (stdout st) (log st) in
              match err with
              | Some err => (Failed (ErrWritingDocumentation err), st)
              | None =>
                  (Ok,
                   print st ("Generated documentation: " +:+ outputPath +:+
                             strings.str strings.nl))
              end
          end
      end
  end.

(** The function literal of [generateDocs]. *)
Definition walkFn (config : generator.DocConfig) (path : string)
    (info : option FileInfo) (err : option error) (st : Run) : walkResult * Run :=
  match err with
  | Some err => (Fails (Passed err), st)
  | None =>
      match info with
      | None => (Panics, st)
      | Some info =>
          if negb (InfoIsDir info) then (Continue, st)
          else if shouldSkipDir path then (SkipDir, st)
          else
            match hasGoSourceFiles path st with
            | (_, Some err) => (Fails (Passed err), st)
            | (hasGoFiles, None) =>
                if hasGoFiles then
                  match generatePackageDocs path config st with
                  | (Failed err, st) =>
                      (Continue,
                       mkRun (llm st) (fs st) (stdout st) (log st ++ [(path, err)]))
                  | (Ok, st) => (Continue, st)
                  | (Panicked, st) => (Panics, st)
                  end
                else (Continue, st)
            end
      end
  end.

End Command.

End cmd.

(** ** Closed forms used in the further properties *)

(** How [fieldListToString] writes one declared parameter. *)
Definition paramText (p : ParamInfo.t) : string :=
  if strings.eqb (ParamInfo.Name p) EmptyString then ParamInfo.Type_ p
  else ParamInfo.Name p +:+ " " +:+ ParamInfo.Type_ p.

Definition tagText (field : ast.Field ast.Expr) : string :=
  match ast.Tag field with
  | Some Value => Value
  | None => EmptyString
  end.

Definition fieldsOfField (field : ast.Field ast.Expr) : list FieldInfo.t :=
  match ast.Names field with
  | [] => [FieldInfo.mk EmptyString (analyser.typeToString (ast.Type_ field))
             (tagText field) EmptyString]
  | names =>
      map (λ name, FieldInfo.mk name (analyser.typeToString (ast.Type_ field))
                     (tagText field) EmptyString) names
  end.

(** The names that the value specs of a declaration bind, in order. *)
Definition declaredNames (decl : ast.GenDecl) : list string :=
  flat_map (λ spec, match spec with
                    | ast.SpecValue vs => ast.VNames vs
                    | _ => []
                    end) (ast.Specs decl).

Definition varsOfSpec (IsExported : string → bool) (v : doc.Value) (spec : ast.Spec)
  : list VariableInfo.t :=
  match spec with
  | ast.SpecValue vs =>
      map (λ name,
             VariableInfo.mk name
               (match ast.VType vs with
                | Some t => analyser.typeToString t
                | None => EmptyString
                end)
               (analyser.cleanDoc (doc.VDoc v))
               (IsExported name))
          (ast.VNames vs)
  | _ => []
  end.

(** A constant entry without its value. *)
Definition asVariable (k : ConstantInfo.t) : VariableInfo.t :=
  VariableInfo.mk (ConstantInfo.Name k) (ConstantInfo.Type_ k)
    (ConstantInfo.Description k) (ConstantInfo.IsExported k).

(** ** What an accepted answer of the language service is, and what the
    enhancement stage makes of a model *)

(** An answer that the stage uses: no error, and a non-empty text that is
    the trimmed content of the response. *)
Definition answered (res : string * option error) : Prop :=
  res.2 = None ∧ res.1 ≠ EmptyString ∧ ∃ content, res.1 = strings.TrimSpace content.

(** The answers that the stage can see: what [ask] returns for some prompt
    in some state of the service. *)
Definition asked {World : Type}
    (GenerateContent : World → string → (string + error) * World)
    (res : string * option error) : Prop :=
  ∃ prompt w, res = (generator.ask GenerateContent prompt w).1.

Definition functionKept (fn fn' : FunctionInfo.t) : Prop :=
  FunctionInfo.Name fn' = FunctionInfo.Name fn ∧
  FunctionInfo.Signature fn' = FunctionInfo.Signature fn ∧
  FunctionInfo.Parameters fn' = FunctionInfo.Parameters fn ∧
  FunctionInfo.Returns fn' = FunctionInfo.Returns fn ∧
  FunctionInfo.IsExported fn' = FunctionInfo.IsExported fn ∧
  FunctionInfo.IsMethod fn' = FunctionInfo.IsMethod fn ∧
  FunctionInfo.Receiver fn' = FunctionInfo.Receiver fn.

Definition typeKept (typ typ' : TypeInfo.t) : Prop :=
  TypeInfo.Name typ' = TypeInfo.Name typ ∧
  TypeInfo.Kind typ' = TypeInfo.Kind typ ∧
  TypeInfo.Fields typ' = TypeInfo.Fields typ ∧
  TypeInfo.Methods typ' = TypeInfo.Methods typ ∧
  TypeInfo.IsExported typ' = TypeInfo.IsExported typ.

Definition descriptionStep (d d' : string) : Prop :=
  d' = d ∨ d' ≠ EmptyString ∧ ∃ content, d' = strings.TrimSpace content.

Definition functionExamplesStep (fn fn' : FunctionInfo.t) : Prop :=
  FunctionInfo.Examples fn' = FunctionInfo.Examples fn ∨
  FunctionInfo.Examples fn = [] ∧ FunctionInfo.IsExported fn = true ∧
  ∃ e, e ≠ EmptyString ∧ FunctionInfo.Examples fn' = [e].

Definition packageExamplesStep (pkg pkg' : PackageInfo.t) : Prop :=
  PackageInfo.Examples pkg' = PackageInfo.Examples pkg ∨
  PackageInfo.Examples pkg = [] ∧
  ∃ code, code ≠ EmptyString ∧
    PackageInfo.Examples pkg' = [ExampleInfo.mk "Basic Usage" code "Basic usage example"].

Definition functionEnhanced (fn fn' : FunctionInfo.t) : Prop :=
  functionKept fn fn' ∧
  descriptionStep (FunctionInfo.Description fn) (FunctionInfo.Description fn') ∧
  functionExamplesStep fn fn'.

Definition typeEnhanced (typ typ' : TypeInfo.t) : Prop :=
  typeKept typ typ' ∧
  descriptionStep (TypeInfo.Description typ) (TypeInfo.Description typ').

Definition packageEnhanced (pkg pkg' : PackageInfo.t) : Prop :=
  PackageInfo.Name pkg' = PackageInfo.Name pkg ∧
  PackageInfo.Path pkg' = PackageInfo.Path pkg ∧
  PackageInfo.Constants pkg' = PackageInfo.Constants pkg ∧
  PackageInfo.Variables pkg' = PackageInfo.Variables pkg ∧
  PackageInfo.Imports pkg' = PackageInfo.Imports pkg ∧
  descriptionStep (PackageInfo.Description pkg) (PackageInfo.Description pkg') ∧
  packageExamplesStep pkg pkg' ∧
  Forall2 functionEnhanced (PackageInfo.Functions pkg) (PackageInfo.Functions pkg') ∧
  Forall2 typeEnhanced (PackageInfo.Types pkg) (PackageInfo.Types pkg').

(** A text that the stage took from the language service: not empty, and
    the trimmed content of what [GenerateContent] answered to some prompt
    in some state, without an error. *)
Definition serviceText {World : Type}
    (GenerateContent : World → string → (string + error) * World) (d : string) : Prop :=
  d ≠ EmptyString ∧
  ∃ w prompt content w',
    GenerateContent w prompt = (inl content, w') ∧ d = strings.TrimSpace content.

(** A description after the stage: what it was, or such a text. *)
Definition descriptionFrom {World : Type}
    (GenerateContent : World → string → (string + error) * World) (d d' : string) : Prop :=
  d' = d ∨ serviceText GenerateContent d'.

Definition descriptionsFrom {World : Type}
    (GenerateContent : World → string → (string + error) * World)
    (pkg pkg' : PackageInfo.t) : Prop :=
  descriptionFrom GenerateContent (PackageInfo.Description pkg) (PackageInfo.Description pkg') ∧
  Forall2 (λ fn fn', descriptionFrom GenerateContent
                       (FunctionInfo.Description fn) (FunctionInfo.Description fn'))
          (PackageInfo.Functions pkg) (PackageInfo.Functions pkg') ∧
  Forall2 (λ typ typ', descriptionFrom GenerateContent
                         (TypeInfo.Description typ) (TypeInfo.Description typ'))
          (PackageInfo.Types pkg) (PackageInfo.Types pkg').

(** A language service that is down. *)
Definition service_down (w : nat) (prompt : string) : (string + error) * nat :=
  (inr (ExternalError "connection refused"), S w).

Definition config_no_examples : generator.DocConfig :=
  generator.mkDocConfig EmptyString EmptyString "./docs" false false "markdown".

(** Models with the same examples, package and function by function. *)
Definition sameExamples (pkg pkg' : PackageInfo.t) : Prop :=
  PackageInfo.Examples pkg' = PackageInfo.Examples pkg ∧
  Forall2 (λ fn fn', FunctionInfo.Examples fn' = FunctionInfo.Examples fn)
          (PackageInfo.Functions pkg) (PackageInfo.Functions pkg').

(** ** The scanner of [extractExamples] after the last line *)

(** The state in which the loop of [extractExamples] ends. *)
Definition scanned (doc : string) : analyser.scanner :=
  for_range (strings.Split doc (strings.str strings.nl))
    (analyser.mkScanner false EmptyString []) analyser.scanLine.

(** The buffer of an example that is still open, when it is not empty. *)
Definition pending (st : analyser.scanner) : list string :=
  if analyser.inExample st && Nat.ltb 0 (String.length (analyser.currentExample st))
  then [analyser.currentExample st]
  else [].

(** ** White space at the two ends of a text, and bytes inside it *)

(** The number of bytes of the white space rune that [s] starts with, 0 if
    it starts with none: the test of one round of [trimLeftSpace]. *)
Definition leadingSpace (s : string) : nat :=
  match s with
  | EmptyString => 0
  | String b1 s1 =>
      if strings.asciiSpace b1 then 1 else
      match s1 with
      | EmptyString => 0
      | String b2 s2 =>
          if strings.space2 b1 b2 then 2 else
          match s2 with
          | EmptyString => 0
          | String b3 _ => if strings.space3 b1 b2 b3 then 3 else 0
          end
      end
  end.

(** The same for the reversed bytes: the test of one round of
    [trimLeftSpaceRev]. *)
Definition trailingSpace (r : string) : nat :=
  match r with
  | EmptyString => 0
  | String b1 s1 =>
      if strings.asciiSpace b1 then 1 else
      match s1 with
      | EmptyString => 0
      | String b2 s2 =>
          if strings.space2 b2 b1 then 2 else
          match s2 with
          | EmptyString => 0
          | String b3 _ => if strings.space3 b3 b2 b1 then 3 else 0
          end
      end
  end.

Fixpoint hasByte (c : ascii) (s : string) : bool :=
  match s with
  | EmptyString => false
  | String a s' => Ascii.eqb a c || hasByte c s'
  end.

(** A line as [cleanDoc] keeps it: not empty, no white space at either
    end, no newline inside. *)
Definition cleanLine (l : string) : Prop :=
  l ≠ EmptyString ∧ leadingSpace l = 0 ∧ trailingSpace (String.rev l) = 0 ∧
  hasByte strings.nl l = false.

(** The line ending that [cleanDoc] replaces. *)
Definition crlf : string := strings.str strings.cr +:+ strings.str strings.nl.

(** ** A file system for the examples of the command

    Files as the list of what was written, newest first; every directory
    can be created; only [demo] can be read. *)
Module disk.

Definition FS : Type := list (string * string).

Definition Join (dir name : string) : string := dir +:+ "/" +:+ name.
Definition Dir (path : string) : string := "./docs".
Definition MkdirAll (fs : FS) (path : string) : option error * FS := (None, fs).
Definition WriteFile (fs : FS) (path data : string) : option error * FS :=
  (None, (path, data) :: fs).
Definition ReadDir (fs : FS) (dir : string) : list cmd.DirEntry * option error :=
  if strings.eqb dir "demo"
  then ([cmd.mkDirEntry "demo.go" false; cmd.mkDirEntry "demo_test.go" false], None)
  else ([], Some (ExternalError "no such directory")).

Definition start : @cmd.Run nat FS := cmd.mkRun 0 [] [] [].

End disk.

(** * Properties *)

(** ** Loops that append *)

Section LoopLemmas.
Context {A B : Type}.

Lemma for_range_flat_map (f : A → list B) (body : list B → A → list B) :
  (∀ acc x, body acc x = acc ++ f x) →
  ∀ l init, for_range l init body = init ++ flat_map f l.
Proof.
  intros Hbody l. unfold for_range.
  induction l as [|x l IH]; intros init; simpl.
  - by rewrite app_nil_r.
  - by rewrite IH, Hbody, <- app_assoc.
Qed.

Lemma for_range_map (f : A → B) (body : list B → A → list B) :
  (∀ acc x, body acc x = acc ++ [f x]) →
  ∀ l init, for_range l init body = init ++ map f l.
Proof.
  intros Hbody l init.
  revert init. unfold for_range.
  induction l as [|x l IH]; intros init; simpl.
  - by rewrite app_nil_r.
  - by rewrite IH, Hbody, <- app_assoc.
Qed.

End LoopLemmas.

Lemma for_range_i_map {A B : Type} (f : nat → A → B) (body : list B → nat → A → list B) :
  (∀ acc i x, body acc i x = acc ++ [f i x]) →
  ∀ l init, for_range_i l init body = init ++ imap f l.
Proof.
  intros Hbody l init. unfold for_range_i.
  change (fold_left ?g ?l ?i) with (for_range l i g).
  rewrite (for_range_map (λ ix : nat * A, f ix.1 ix.2)) by (intros; apply Hbody).
  f_equal. apply list_eq. intros i.
  rewrite list_lookup_imap.
  change (map ?g ?k) with (g <$> k). rewrite list_lookup_fmap.
  destruct (l !! i) as [x|] eqn:Hi; simpl.
  - assert (zip (seq 0 (length l)) l !! i = Some (i, x)) as ->; [|done].
    apply lookup_zip_Some. split; [|done].
    apply lookup_seq. split; [done|]. by eapply lookup_lt_Some.
  - assert (zip (seq 0 (length l)) l !! i = None) as ->; [|done].
    apply lookup_zip_None. by right.
Qed.

(** ** Parameters, returns and fields: what the loops build *)

Lemma extractReturns_map (List : ast.FieldList) :
  analyser.extractReturns (Some List) =
  map (λ field, ReturnInfo.mk (analyser.typeToString (ast.Type_ field)) EmptyString) List.
Proof.
  unfold analyser.extractReturns.
  by rewrite (for_range_map
    (λ field, ReturnInfo.mk (analyser.typeToString (ast.Type_ field)) EmptyString)).
Qed.

Lemma extractParameters_flat_map (List : ast.FieldList) :
  analyser.extractParameters (Some List) = flat_map paramsOfField List.
Proof.
  unfold analyser.extractParameters.
  rewrite (for_range_flat_map paramsOfField); [done|].
  intros acc field. unfold paramsOfField.
  destruct (ast.Names field) as [|n ns] eqn:Hn.
  - by rewrite decide_True.
  - rewrite decide_False by done.
    by rewrite (for_range_map
      (λ name, ParamInfo.mk name (analyser.typeToString (ast.Type_ field)))).
Qed.

Lemma extractParameters_length (List : ast.FieldList) :
  length (analyser.extractParameters (Some List)) = spec.declaredValues List.
Proof.
  rewrite extractParameters_flat_map. unfold spec.declaredValues.
  induction List as [|field List IH]; simpl; [done|].
  rewrite length_app, IH. f_equal.
  unfold paramsOfField. destruct (ast.Names field); simpl; [done|].
  by rewrite length_map.
Qed.

Lemma extractReturns_Description (fields : option ast.FieldList) (ret : ReturnInfo.t) :
  ret ∈ analyser.extractReturns fields → ReturnInfo.Description ret = EmptyString.
Proof.
  destruct fields as [List|].
  - rewrite extractReturns_map. intros Hin.
    apply list_elem_of_In, in_map_iff in Hin as (field & <- & _). done.
  - by intros ?%elem_of_nil.
Qed.

(** C2. [extractReturns] appends one [ReturnInfo] per field of the result
    list, whatever the number of names the field binds: for the results of
    [func f() (a, b int)], which declare two values and which
    [extractParameters] would expand into two entries, it returns a single
    entry. *)
Theorem extractReturns_one_entry_per_field :
  (∀ List : ast.FieldList,
     length (analyser.extractReturns (Some List)) = length List) ∧
  spec.declaredValues inputs.results_a_b_int = 2 ∧
  length (analyser.extractParameters (Some inputs.results_a_b_int)) = 2 ∧
  analyser.extractReturns (Some inputs.results_a_b_int) = [ReturnInfo.mk "int" EmptyString] ∧
  analyser.extractReturns (Some inputs.results_a_b_int)
    ≠ spec.expandedReturns inputs.results_a_b_int.
Proof.
  split; [|repeat split; try reflexivity; discriminate].
  intros List. by rewrite extractReturns_map, length_map.
Qed.

(** ** Constant groups *)

Lemma analyseConstantDecl_flat_map (IsExported : string → bool) (c : doc.Value) :
  analyser.analyseConstantDecl IsExported c =
  flat_map (constsOfSpec IsExported c) (ast.Specs (doc.VDecl c)).
Proof.
  unfold analyser.analyseConstantDecl.
  rewrite (for_range_flat_map (constsOfSpec IsExported c)); [done|].
  intros acc [vs|ts|path]; simpl; try by rewrite app_nil_r.
  by apply for_range_i_map.
Qed.

(** C3. In a constant declaration, take a value spec [vs] (names bound to a
    parallel list of value expressions); the entries of the specs before it
    come first in the result.  The entry for the name at position [i] of
    [vs] carries that name, and its value is the text of the expression at
    position [i] of [vs] when there is one (the text of a literal as it is
    written, the name of an identifier, three dots for any other
    expression) and the empty string otherwise.  So [const A, B = 1, 2]
    gives [A] the value [1] and [B] the value [2], and [const A, B = 1]
    gives [A] the value [1] and [B] none. *)
Theorem constant_value_positional :
  (∀ (IsExported : string → bool) (c : doc.Value)
     (pre : list ast.Spec) (vs : ast.ValueSpec) (post : list ast.Spec)
     (i : nat) (name : string),
     ast.Specs (doc.VDecl c) = pre ++ ast.SpecValue vs :: post →
     ast.VNames vs !! i = Some name →
     ∃ info,
       analyser.analyseConstantDecl IsExported c
         !! (length (analyser.analyseConstantDecl IsExported
                       (doc.mkValue (doc.VDoc c) (ast.mkGenDecl pre))) + i) = Some info
       ∧ ConstantInfo.Name info = name
       ∧ ConstantInfo.Value info =
           match ast.Values vs !! i with
           | Some (Some (ast.BasicLit Value)) => Value
           | Some (Some (ast.Ident Name)) => Name
           | Some (Some _) => "..."
           | _ => EmptyString
           end) ∧
  map (λ k, (ConstantInfo.Name k, ConstantInfo.Value k))
      (analyser.analyseConstantDecl inputs.IsExported inputs.const_A_B_1_2)
  = [("A", "1"); ("B", "2")] ∧
  map (λ k, (ConstantInfo.Name k, ConstantInfo.Value k))
      (analyser.analyseConstantDecl inputs.IsExported inputs.const_A_B_1)
  = [("A", "1"); ("B", EmptyString)].
Proof.
  split; [|by split].
  intros IsExported c pre vs post i name Hspecs Hname.
  rewrite !analyseConstantDecl_flat_map, Hspecs. simpl.
  rewrite flat_map_app. simpl.
  assert (flat_map (constsOfSpec IsExported {| doc.VDoc := doc.VDoc c; doc.VDecl := {| ast.Specs := pre |} |}) pre
          = flat_map (constsOfSpec IsExported c) pre) as ->.
  { apply flat_map_ext. by intros [?|?|?]. }
  rewrite lookup_app_r by lia.
  replace (_ + i - _) with i by lia.
  rewrite lookup_app_l.
  2:{ rewrite length_imap. by eapply lookup_lt_Some. }
  rewrite list_lookup_imap, Hname. simpl.
  eexists. split; [done|]. split; [done|]. simpl.
  destruct (ast.Values vs !! i) as [[e|]|]; [|done..].
  by destruct e.
Qed.

Lemma constant_value_positional_witness :
  (∃ info,
     analyser.analyseConstantDecl inputs.IsExported inputs.const_A_B_1_2 !! (0 + 0) = Some info
     ∧ ConstantInfo.Name info = "A"
     ∧ ConstantInfo.Value info = "1") ∧
  (∃ info,
     analyser.analyseConstantDecl inputs.IsExported inputs.const_A_B_1_2 !! (0 + 1) = Some info
     ∧ ConstantInfo.Name info = "B"
     ∧ ConstantInfo.Value info = "2") ∧
  (∃ info,
     analyser.analyseConstantDecl inputs.IsExported inputs.const_A_B_1 !! (0 + 1) = Some info
     ∧ ConstantInfo.Name info = "B"
     ∧ ConstantInfo.Value info = EmptyString).
Proof.
  split; [|split].
  - exact (proj1 constant_value_positional inputs.IsExported inputs.const_A_B_1_2 []
             (ast.mkValueSpec ["A"; "B"] None
                [Some (ast.BasicLit "1"); Some (ast.BasicLit "2")]) [] 0 "A"
             eq_refl eq_refl).
  - exact (proj1 constant_value_positional inputs.IsExported inputs.const_A_B_1_2 []
             (ast.mkValueSpec ["A"; "B"] None
                [Some (ast.BasicLit "1"); Some (ast.BasicLit "2")]) [] 1 "B"
             eq_refl eq_refl).
  - exact (proj1 constant_value_positional inputs.IsExported inputs.const_A_B_1 []
             (ast.mkValueSpec ["A"; "B"] None [Some (ast.BasicLit "1")]) [] 1 "B"
             eq_refl eq_refl).
Defined.

(** ** Sanity checks of the model on small inputs *)

Example Split_lines :
  strings.Split ("a" +:+ strings.str strings.nl +:+ strings.str strings.nl +:+ "b")
                (strings.str strings.nl) = ["a"; EmptyString; "b"].
Proof. reflexivity. Qed.

Example TrimSpace_both :
  strings.TrimSpace ("  " +:+ strings.str strings.tab +:+ "x y " +:+ strings.str strings.nl) = "x y".
Proof. reflexivity. Qed.

Example HasSuffix_test : strings.HasSuffix "pkg_test" "_test" = true.
Proof. reflexivity. Qed.

Example sig_method :
  analyser.getFunctionSignature
    (ast.mkFuncDecl
       (Some [ast.mkField ["s"] (ast.StarExpr (ast.Ident "Store")) None])
       "Get"
       (Some (ast.mkFuncType
          (Some [ast.mkField ["k"] (ast.Ident "string") None])
          (Some [ast.mkField ["v"] (ast.Ident "int") None;
                 ast.mkField ["ok"] (ast.Ident "bool") None]))))
  = Some "func (s *Store) Get (k string) (v int, ok bool)".
Proof. reflexivity. Qed.

Example extractExamples_usage :
  analyser.extractExamples
    ("Usage:" +:+ strings.str strings.nl +:+
     "    x.Do()" +:+ strings.str strings.nl +:+
     "    y.Do()" +:+ strings.str strings.nl +:+
     strings.str strings.nl +:+ "Trailing")
  = ["x.Do()" +:+ strings.str strings.nl +:+ "y.Do()" +:+ strings.str strings.nl].
Proof. reflexivity. Qed.

Example cleanDoc_lines :
  analyser.cleanDoc
    ("  Package x does y." +:+ strings.str strings.cr +:+ strings.str strings.nl +:+
     strings.str strings.nl +:+ "  More.  ")
  = "Package x does y." +:+ strings.str strings.nl +:+ "More.".
Proof. reflexivity. Qed.

(** ** The package analyser: what a successful run returns *)

Section AnalysePackageShape.

Variable IsExported : string → bool.
Variable doc_New : ast.Package → doc.Package.
Variable ParseDir : string → gmap string ast.Package * option error.
Variable r : analyser.MapRange.

Lemma types_loop (types : list doc.Type_) (Types0 : list TypeInfo.t)
    (Functions0 : list FunctionInfo.t) (body : _ → doc.Type_ → _) :
  (∀ acc typ, body acc typ =
     (acc.1 ++ [analyser.analyseTypeDecl IsExported typ],
      acc.2 ++ methodsOfType IsExported typ)) →
  for_range types (Types0, Functions0) body =
  (Types0 ++ map (analyser.analyseTypeDecl IsExported) types,
   Functions0 ++ flat_map (methodsOfType IsExported) types).
Proof.
  intros Hbody. unfold for_range.
  revert Types0 Functions0.
  induction types as [|typ types IH]; intros Types0 Functions0; simpl.
  - by rewrite !app_nil_r.
  - rewrite Hbody, IH. simpl. by rewrite <- !app_assoc.
Qed.

Lemma AnalysePackage_selected (dir : string) pkgs pkg :
  ParseDir dir = (pkgs, None) →
  analyser.selectPackage (analyser.rangePkgs r pkgs) = Some pkg →
  analyser.AnalysePackage IsExported doc_New ParseDir r dir =
  (Some (modelOf IsExported doc_New r dir pkg), None).
Proof.
  intros Hparse Hsel. unfold analyser.AnalysePackage.
  rewrite Hparse, Hsel.
  rewrite (for_range_map (analyser.analyseFunctionDecl IsExported)) by done.
  rewrite (types_loop (doc.Types (doc_New pkg))).
  2:{ intros acc typ. f_equal.
      by rewrite (for_range_map (methodInfoOf IsExported typ)). }
  rewrite (for_range_flat_map (analyser.analyseConstantDecl IsExported)) by done.
  rewrite (for_range_flat_map (analyser.analyseVariableDecl IsExported)) by done.
  done.
Qed.

Lemma AnalysePackage_Some (dir : string) (info : PackageInfo.t) :
  (analyser.AnalysePackage IsExported doc_New ParseDir r dir).1 = Some info →
  ∃ pkgs pkg,
    ParseDir dir = (pkgs, None) ∧
    analyser.selectPackage (analyser.rangePkgs r pkgs) = Some pkg ∧
    info = modelOf IsExported doc_New r dir pkg.
Proof.
  intros Hinfo.
  destruct (ParseDir dir) as [pkgs err] eqn:Hparse.
  destruct err as [err|].
  { unfold analyser.AnalysePackage in Hinfo. by rewrite Hparse in Hinfo. }
  destruct (analyser.selectPackage (analyser.rangePkgs r pkgs)) as [pkg|] eqn:Hsel.
  - rewrite (AnalysePackage_selected dir pkgs pkg) in Hinfo by done.
    exists pkgs, pkg. simpl in Hinfo. by inversion Hinfo.
  - unfold analyser.AnalysePackage in Hinfo. by rewrite Hparse, Hsel in Hinfo.
Qed.

Lemma analyseFunctionDecl_Name (fn : doc.Func) :
  FunctionInfo.Name (analyser.analyseFunctionDecl IsExported fn) = doc.FName fn.
Proof.
  unfold analyser.analyseFunctionDecl.
  destruct (doc.FDecl fn) as [decl|]; [|done].
  by destruct (ast.FType decl), (analyser.getFunctionSignature decl).
Qed.

Lemma analyseFunctionDecl_Returns (fn : doc.Func) (ret : ReturnInfo.t) :
  ret ∈ FunctionInfo.Returns (analyser.analyseFunctionDecl IsExported fn) →
  ReturnInfo.Description ret = EmptyString.
Proof.
  unfold analyser.analyseFunctionDecl.
  destruct (doc.FDecl fn) as [decl|]; [|by intros ?%elem_of_nil].
  destruct (ast.FType decl), (analyser.getFunctionSignature decl); simpl;
    try by intros ?%elem_of_nil.
  apply extractReturns_Description.
Qed.

Lemma analyseTypeDecl_Name_Methods (typ : doc.Type_) :
  TypeInfo.Name (analyser.analyseTypeDecl IsExported typ) = doc.TName typ ∧
  TypeInfo.Methods (analyser.analyseTypeDecl IsExported typ) = map doc.FName (doc.Methods typ).
Proof.
  unfold analyser.analyseTypeDecl.
  set (info0 := TypeInfo.mk _ _ _ _ _ _).
  set (info1 := match doc.TDecl typ with Some _ => _ | None => _ end).
  assert (TypeInfo.Name info1 = doc.TName typ ∧ TypeInfo.Methods info1 = []) as [Hn Hm].
  { subst info1. destruct (doc.TDecl typ) as [Decl|]; [|done].
    assert (TypeInfo.Name info0 = doc.TName typ ∧ TypeInfo.Methods info0 = []) as H0 by done.
    revert H0. generalize info0. unfold for_range.
    induction (ast.Specs Decl) as [|spec specs IH]; intros info H0; simpl; [done|].
    apply IH. by destruct spec. }
  assert (∀ methods info,
            let res := fold_left (λ (info : TypeInfo.t) (method : doc.Func),
              TypeInfo.mk (TypeInfo.Name info) (TypeInfo.Kind info)
                (TypeInfo.Description info) (TypeInfo.Fields info)
                (TypeInfo.Methods info ++ [doc.FName method]) (TypeInfo.IsExported info))
              methods info in
            TypeInfo.Name res = TypeInfo.Name info ∧
            TypeInfo.Methods res = TypeInfo.Methods info ++ map doc.FName methods) as Hloop.
  { induction methods as [|method methods IH]; intros info; simpl.
    - by rewrite app_nil_r.
    - destruct (IH (TypeInfo.mk (TypeInfo.Name info) (TypeInfo.Kind info)
           (TypeInfo.Description info) (TypeInfo.Fields info)
           (TypeInfo.Methods info ++ [doc.FName method]) (TypeInfo.IsExported info)))
        as [-> ->].
      simpl. by rewrite <- app_assoc. }
  unfold for_range. destruct (Hloop (doc.Methods typ) info1) as [-> ->].
  by rewrite Hn, Hm.
Qed.

End AnalysePackageShape.

(** ** Package selection *)

Lemma selectPackage_None (visited : list (string * ast.Package)) :
  Forall (λ np, strings.HasSuffix np.1 "_test" = true) visited →
  analyser.selectPackage visited = None.
Proof.
  induction 1 as [|[name p] visited Hname _ IH]; simpl; [done|].
  simpl in Hname. by rewrite Hname.
Qed.

Lemma selectPackage_Some (visited : list (string * ast.Package)) (pkg : ast.Package) :
  analyser.selectPackage visited = Some pkg →
  ∃ name, (name, pkg) ∈ visited ∧ strings.HasSuffix name "_test" = false.
Proof.
  induction visited as [|[name p] visited IH]; simpl; [done|].
  destruct (strings.HasSuffix name "_test") eqn:Hname; simpl.
  - intros (name' & Hin & Hn)%IH. exists name'. split; [by apply elem_of_cons; right|done].
  - intros [= ->]. exists name. split; [apply list_elem_of_here|done].
Qed.

Lemma selectPackage_is_Some (visited : list (string * ast.Package)) name p :
  (name, p) ∈ visited → strings.HasSuffix name "_test" = false →
  is_Some (analyser.selectPackage visited).
Proof.
  intros Hin Hname.
  induction visited as [|[name' p'] visited IH]; simpl.
  - by apply elem_of_nil in Hin.
  - destruct (strings.HasSuffix name' "_test") eqn:Hname'; simpl; [|by eexists].
    apply elem_of_cons in Hin as [[= -> ->]|Hin]; [congruence|by apply IH].
Qed.

Lemma forwards_ok : analyser.MapRangeOk inputs.forwards.
Proof. by constructor. Qed.

Lemma backwards_ok : analyser.MapRangeOk inputs.backwards.
Proof. constructor; intros; simpl; apply reverse_Permutation. Qed.

(** ** The package analyser: properties of the returned model *)

(** C6. In a model returned by [AnalysePackage], every method name listed
    in a type's [Methods] has an entry in [Functions] with that name,
    [IsMethod] set and [Receiver] equal to the type's name. *)
Theorem methods_have_function_entries
    (IsExported : string → bool) (doc_New : ast.Package → doc.Package)
    (ParseDir : string → gmap string ast.Package * option error)
    (r : analyser.MapRange) (dir : string) (info : PackageInfo.t)
    (T : TypeInfo.t) (m : string) :
  (analyser.AnalysePackage IsExported doc_New ParseDir r dir).1 = Some info →
  T ∈ PackageInfo.Types info →
  m ∈ TypeInfo.Methods T →
  ∃ fn, fn ∈ PackageInfo.Functions info ∧
        FunctionInfo.Name fn = m ∧
        FunctionInfo.IsMethod fn = true ∧
        FunctionInfo.Receiver fn = TypeInfo.Name T.
Proof.
  intros (pkgs & pkg & _ & _ & ->)%AnalysePackage_Some HT Hm. simpl in *.
  apply list_elem_of_In, in_map_iff in HT as (typ & <- & Htyp).
  destruct (analyseTypeDecl_Name_Methods IsExported typ) as [HN HM].
  rewrite HM in Hm. rewrite HN.
  apply list_elem_of_In, in_map_iff in Hm as (method & <- & Hmethod).
  exists (methodInfoOf IsExported typ method). split.
  - apply elem_of_app. right. apply list_elem_of_In, in_flat_map.
    exists typ. split; [done|]. by apply in_map.
  - simpl. by rewrite analyseFunctionDecl_Name.
Qed.

Lemma methods_have_function_entries_witness :
  ∃ fn,
    fn ∈ PackageInfo.Functions
           (modelOf inputs.IsExported inputs.doc_New inputs.forwards "demo" inputs.demo_pkg) ∧
    FunctionInfo.Name fn = "Get" ∧
    FunctionInfo.IsMethod fn = true ∧
    FunctionInfo.Receiver fn = "Store".
Proof.
  apply (methods_have_function_entries inputs.IsExported inputs.doc_New inputs.ParseDir
           inputs.forwards "demo"
           (modelOf inputs.IsExported inputs.doc_New inputs.forwards "demo" inputs.demo_pkg)
           (analyser.analyseTypeDecl inputs.IsExported inputs.store_type) "Get").
  - vm_compute. reflexivity.
  - apply list_elem_of_here.
  - apply list_elem_of_here.
Defined.

(** C8 (as amended). When every package that the parse yields has a name
    ending in [_test] (in particular when it yields none), [AnalysePackage]
    returns a nil model, and its error is the no-package error when the
    parse reported no error and the wrapped error of the parse when it
    reported one. *)
Theorem only_test_packages_no_model
    (IsExported : string → bool) (doc_New : ast.Package → doc.Package)
    (ParseDir : string → gmap string ast.Package * option error)
    (r : analyser.MapRange) (dir : string) (pkgs : gmap string ast.Package)
    (err : option error) :
  analyser.MapRangeOk r →
  ParseDir dir = (pkgs, err) →
  (∀ name p, pkgs !! name = Some p → strings.HasSuffix name "_test" = true) →
  analyser.AnalysePackage IsExported doc_New ParseDir r dir =
  (None, Some match err with
              | None => ErrNoPackageFound dir
              | Some err => ErrParsingPackage err
              end).
Proof.
  intros Hr Hparse Htest. unfold analyser.AnalysePackage.
  rewrite Hparse. destruct err as [err|]; [done|].
  rewrite selectPackage_None; [done|].
  apply Forall_forall. intros [name p] Hin. simpl.
  rewrite (analyser.rangePkgs_perm r Hr) in Hin.
  apply elem_of_map_to_list in Hin. by eapply Htest.
Qed.

Lemma only_test_packages_no_model_witness :
  analyser.AnalysePackage inputs.IsExported inputs.doc_New inputs.ParseDir
    inputs.backwards "tests" = (None, Some (ErrNoPackageFound "tests"))
  ∧
  analyser.AnalysePackage inputs.IsExported inputs.doc_New inputs.ParseDir
    inputs.backwards "empty" = (None, Some (ErrNoPackageFound "empty"))
  ∧
  analyser.AnalysePackage inputs.IsExported inputs.doc_New inputs.ParseDir_unreadable
    inputs.backwards "gone" =
    (None, Some (ErrParsingPackage
                   (ExternalError "open gone: no such file or directory"))).
Proof.
  split; [|split].
  - apply (only_test_packages_no_model _ _ _ _ "tests"
             {[ "demo_test" := inputs.demo_test_pkg ]} None backwards_ok).
    + reflexivity.
    + intros name p [<- _]%lookup_singleton_Some. reflexivity.
  - apply (only_test_packages_no_model _ _ _ _ "empty" ∅ None backwards_ok).
    + reflexivity.
    + intros name p H. by rewrite lookup_empty in H.
  - apply (only_test_packages_no_model _ _ inputs.ParseDir_unreadable _ "gone" ∅
             (Some (ExternalError "open gone: no such file or directory")) backwards_ok).
    + reflexivity.
    + intros name p H. by rewrite lookup_empty in H.
Defined.

(** C8, as the specification words it, fails when the parse reports an
    error: a directory that cannot be opened yields no package at all, and
    [AnalysePackage] returns the error of the parse, wrapped, not the
    no-package error. *)
Lemma parse_error_not_NoPackageFound :
  (inputs.ParseDir_unreadable "gone").1 = ∅ ∧
  analyser.AnalysePackage inputs.IsExported inputs.doc_New inputs.ParseDir_unreadable
    inputs.forwards "gone" =
    (None, Some (ErrParsingPackage
                   (ExternalError "open gone: no such file or directory"))) ∧
  ¬ (∀ (ParseDir : string → gmap string ast.Package * option error)
       (r : analyser.MapRange) (dir : string),
       analyser.MapRangeOk r →
       (∀ name p, (ParseDir dir).1 !! name = Some p →
                  strings.HasSuffix name "_test" = true) →
       analyser.AnalysePackage inputs.IsExported inputs.doc_New ParseDir r dir =
       (None, Some (ErrNoPackageFound dir))).
Proof.
  split; [reflexivity|]. split; [reflexivity|].
  intros H.
  specialize (H inputs.ParseDir_unreadable inputs.forwards "gone" forwards_ok).
  assert (∀ name p, (inputs.ParseDir_unreadable "gone").1 !! name = Some p →
                    strings.HasSuffix name "_test" = true) as Hnone.
  { intros name p Hin.
    change ((∅ : gmap string ast.Package) !! name = Some p) in Hin.
    by rewrite lookup_empty in Hin. }
  specialize (H Hnone). discriminate H.
Qed.

(** C9. A model returned by [AnalysePackage] has no package-level
    examples. *)
Theorem no_package_examples
    (IsExported : string → bool) (doc_New : ast.Package → doc.Package)
    (ParseDir : string → gmap string ast.Package * option error)
    (r : analyser.MapRange) (dir : string) (info : PackageInfo.t) :
  (analyser.AnalysePackage IsExported doc_New ParseDir r dir).1 = Some info →
  PackageInfo.Examples info = [].
Proof. by intros (pkgs & pkg & _ & _ & ->)%AnalysePackage_Some. Qed.

Lemma no_package_examples_witness :
  PackageInfo.Examples
    (modelOf inputs.IsExported inputs.doc_New inputs.forwards "demo" inputs.demo_pkg) = [].
Proof.
  apply (no_package_examples inputs.IsExported inputs.doc_New inputs.ParseDir
           inputs.forwards "demo").
  vm_compute. reflexivity.
Defined.

(** C10. In a model returned by [AnalysePackage], every [ReturnInfo] of
    every function and method has an empty [Description]. *)
Theorem returns_have_no_description
    (IsExported : string → bool) (doc_New : ast.Package → doc.Package)
    (ParseDir : string → gmap string ast.Package * option error)
    (r : analyser.MapRange) (dir : string) (info : PackageInfo.t)
    (fn : FunctionInfo.t) (ret : ReturnInfo.t) :
  (analyser.AnalysePackage IsExported doc_New ParseDir r dir).1 = Some info →
  fn ∈ PackageInfo.Functions info →
  ret ∈ FunctionInfo.Returns fn →
  ReturnInfo.Description ret = EmptyString.
Proof.
  intros (pkgs & pkg & _ & _ & ->)%AnalysePackage_Some Hfn Hret. simpl in Hfn.
  apply elem_of_app in Hfn as [Hfn|Hfn].
  - apply list_elem_of_In, in_map_iff in Hfn as (f & <- & _).
    by eapply analyseFunctionDecl_Returns.
  - apply list_elem_of_In, in_flat_map in Hfn as (typ & _ & Hfn).
    apply in_map_iff in Hfn as (method & <- & _).
    simpl in Hret. by eapply analyseFunctionDecl_Returns.
Qed.

Lemma returns_have_no_description_witness :
  ReturnInfo.Description (ReturnInfo.mk "*Store" EmptyString) = EmptyString.
Proof.
  apply (returns_have_no_description inputs.IsExported inputs.doc_New inputs.ParseDir
           inputs.forwards "demo"
           (modelOf inputs.IsExported inputs.doc_New inputs.forwards "demo" inputs.demo_pkg)
           (analyser.analyseFunctionDecl inputs.IsExported
              (doc.mkFunc "New makes a Store." "New" (Some inputs.new_decl)))).
  - vm_compute. reflexivity.
  - apply list_elem_of_here.
  - apply list_elem_of_here.
Defined.

(** ** Signature text *)

Lemma append_assoc (s1 s2 s3 : string) : (s1 +:+ s2) +:+ s3 = s1 +:+ s2 +:+ s3.
Proof.
  induction s1 as [|c s1 IH]; [done|].
  change (String c ((s1 +:+ s2) +:+ s3) = String c (s1 +:+ s2 +:+ s3)).
  by f_equal.
Qed.

Lemma fieldListToString_unnamed (field : ast.Field ast.Expr) :
  ast.Names field = [] →
  analyser.fieldListToString (Some [field]) = analyser.typeToString (ast.Type_ field).
Proof.
  intros Hnames. unfold analyser.fieldListToString, for_range. simpl.
  by rewrite Hnames.
Qed.

(** C1 (as amended). For a declaration with a signature node,
    [getFunctionSignature] returns [func], then for a method only the
    parenthesized receiver, then the name, then the parenthesized parameter
    list, each separated from the one before by one space; it ends there
    when the declaration has no result list, and otherwise continues with a
    space and the return clause: the bare type text when the result list is
    one unnamed value, the parenthesized comma-joined list in every other
    case. *)
Theorem signature_form (decl : ast.FuncDecl) (Type_ : ast.FuncType) :
  ast.FType decl = Some Type_ →
  analyser.getFunctionSignature decl =
  Some ("func" +:+ receiverText decl +:+ " " +:+ ast.Name decl +:+
        " (" +:+ analyser.fieldListToString (ast.Params Type_) +:+ ")" +:+
        resultsText Type_).
Proof.
  intros HType. unfold analyser.getFunctionSignature, receiverText, resultsText.
  rewrite HType. f_equal.
  assert (analyser.fieldListToString None = EmptyString) as Hnil by done.
  destruct (ast.Recv decl) as [recv|];
    destruct (ast.Params Type_) as [params|];
    destruct (ast.Results Type_) as [[|field [|field' results]]|];
    try (rewrite Hnil);
    try (pose proof (fieldListToString_unnamed field) as Hbare;
         destruct (ast.Names field) as [|name names];
         [rewrite decide_True by done; rewrite Hbare by done
         |rewrite decide_False by done]);
    cbn [app strings.Join];
    rewrite ?append_assoc; reflexivity.
Qed.

Lemma signature_form_witness :
  analyser.getFunctionSignature inputs.get_decl =
  Some "func (s *Store) Get (k string) (v int, ok bool)"
  ∧
  analyser.getFunctionSignature inputs.new_decl = Some "func New () *Store".
Proof.
  split.
  - exact (signature_form inputs.get_decl _ eq_refl).
  - exact (signature_form inputs.new_decl _ eq_refl).
Defined.

(** C1, as the specification words it: the code's text differs from the
    specified form for [func New() *Store], where a space separates the
    name from the parameter list, and for [func Run()], where in addition
    no return clause is written at all. *)
Lemma signature_not_as_specified :
  analyser.getFunctionSignature inputs.new_decl = Some "func New () *Store" ∧
  spec.signature inputs.new_decl
    (ast.mkFuncType (Some []) (Some [ast.mkField [] (ast.StarExpr (ast.Ident "Store")) None]))
    = "func New() *Store" ∧
  analyser.getFunctionSignature inputs.run_decl = Some "func Run ()" ∧
  spec.signature inputs.run_decl inputs.run_type = "func Run() ()" ∧
  ¬ (∀ decl Type_, ast.FType decl = Some Type_ →
       analyser.getFunctionSignature decl = Some (spec.signature decl Type_)).
Proof.
  repeat split; try reflexivity.
  intros H. specialize (H inputs.run_decl inputs.run_type eq_refl). discriminate H.
Qed.

(** ** The example scanner inside an example *)

Lemma HasPrefix_tab_four_spaces (rest : string) :
  strings.HasPrefix (String strings.tab rest) analyser.four_spaces = false.
Proof. reflexivity. Qed.

Lemma HasPrefix_four_spaces (rest : string) :
  strings.HasPrefix (analyser.four_spaces +:+ rest) analyser.four_spaces = true.
Proof. reflexivity. Qed.

Lemma TrimPrefix_four_spaces (rest : string) :
  strings.TrimPrefix (analyser.four_spaces +:+ rest) analyser.four_spaces = rest.
Proof. reflexivity. Qed.

Lemma TrimPrefix_tab (rest : string) :
  strings.TrimPrefix (String strings.tab rest) (strings.str strings.tab) = rest.
Proof. reflexivity. Qed.

Lemma TrimPrefix_no_prefix (s prefix : string) :
  strings.HasPrefix s prefix = false → strings.TrimPrefix s prefix = s.
Proof. unfold strings.TrimPrefix. by intros ->. Qed.

(** What [scanLine] does inside an example with a line that neither opens
    nor closes one. *)
Lemma scanLine_inside (st : analyser.scanner) (line : string) :
  analyser.inExample st = true →
  opensExample line = false →
  closesExample st line = false →
  analyser.scanLine st line =
  if strings.HasPrefix line analyser.four_spaces ||
     strings.HasPrefix line (strings.str strings.tab)
  then analyser.mkScanner true
         (analyser.currentExample st +:+
          strings.TrimPrefix (strings.TrimPrefix line analyser.four_spaces)
                             (strings.str strings.tab) +:+
          strings.str strings.nl)
         (analyser.examples st)
  else st.
Proof.
  unfold opensExample, closesExample, analyser.scanLine.
  by intros -> -> ->.
Qed.

Lemma HasPrefix_append (p q line : string) :
  strings.HasPrefix line (p +:+ q) =
  strings.HasPrefix line p && strings.HasPrefix (strings.drop (String.length p) line) q.
Proof.
  revert line. induction p as [|a p IH]; intros line.
  - by destruct line.
  - destruct line as [|c line]; [done|].
    change (Ascii.eqb c a && strings.HasPrefix line (p +:+ q) =
            Ascii.eqb c a && strings.HasPrefix line p &&
            strings.HasPrefix (strings.drop (String.length p) line) q).
    by rewrite IH, andb_assoc.
Qed.

Lemma length_append (s t : string) :
  String.length (s +:+ t) = String.length s + String.length t.
Proof.
  induction s as [|a s IH]; [done|].
  change (S (String.length (s +:+ t)) = S (String.length s + String.length t)).
  by rewrite IH.
Qed.

(** Where the nested [TrimPrefix] removes what the claim's one layer is:
    every line but one that starts with four spaces and a tab. *)
Lemma TrimPrefix_twice_one_layer (line : string) :
  spec.indented line = true →
  strings.HasPrefix line (analyser.four_spaces +:+ strings.str strings.tab) = false →
  strings.TrimPrefix (strings.TrimPrefix line analyser.four_spaces) (strings.str strings.tab)
  = spec.stripOneLayer line.
Proof.
  unfold spec.indented, spec.stripOneLayer. intros Hind Hboth.
  rewrite HasPrefix_append in Hboth.
  destruct (strings.HasPrefix line (strings.str strings.tab)) eqn:Htab.
  - destruct line as [|c line]; [done|].
    simpl in Htab. rewrite andb_true_r in Htab. apply Ascii.eqb_eq in Htab as ->.
    rewrite (TrimPrefix_no_prefix _ _ (HasPrefix_tab_four_spaces line)).
    apply TrimPrefix_tab.
  - rewrite orb_false_r in Hind. rewrite Hind in Hboth. simpl in Hboth.
    unfold strings.TrimPrefix at 2. rewrite Hind.
    by apply TrimPrefix_no_prefix.
Qed.

(** C4. Inside an example, a line that triggers no transition (it neither
    opens an example nor closes one) leaves the scanner inside the example
    and the examples found so far as they are.  Unless it starts with four
    spaces and a tab, [scanLine] does with it what the specification says:
    an indented line is appended with its one layer stripped, another line
    is ignored.  From a line of four spaces, a tab and [rest], the nested
    [TrimPrefix] removes the spaces and the tab: [rest] is appended, where
    the specification appends the tab and [rest]. *)
Theorem scanLine_strips_both_layers (st : analyser.scanner) (line : string) :
  analyser.inExample st = true →
  opensExample line = false →
  closesExample st line = false →
  analyser.inExample (analyser.scanLine st line) = true ∧
  analyser.examples (analyser.scanLine st line) = analyser.examples st ∧
  (strings.HasPrefix line (analyser.four_spaces +:+ strings.str strings.tab) = false →
   analyser.scanLine st line = spec.inExampleLine st line) ∧
  (∀ rest, line = analyser.four_spaces +:+ String strings.tab rest →
     analyser.scanLine st line =
       analyser.mkScanner true
         (analyser.currentExample st +:+ rest +:+ strings.str strings.nl)
         (analyser.examples st) ∧
     spec.inExampleLine st line =
       analyser.mkScanner true
         (analyser.currentExample st +:+ String strings.tab rest +:+ strings.str strings.nl)
         (analyser.examples st) ∧
     analyser.scanLine st line ≠ spec.inExampleLine st line).
Proof.
  intros Hin Hopen Hclose.
  rewrite (scanLine_inside st line Hin Hopen Hclose).
  unfold spec.inExampleLine.
  change (strings.HasPrefix line analyser.four_spaces ||
          strings.HasPrefix line (strings.str strings.tab)) with (spec.indented line).
  split; [by destruct (spec.indented line)|].
  split; [by destruct (spec.indented line)|].
  split.
  - intros Hboth. destruct (spec.indented line) eqn:Hind; [|done].
    by rewrite TrimPrefix_twice_one_layer.
  - intros rest ->.
    assert (spec.indented (analyser.four_spaces +:+ String strings.tab rest) = true)
      as -> by done.
    assert (strings.TrimPrefix
              (strings.TrimPrefix (analyser.four_spaces +:+ String strings.tab rest)
                 analyser.four_spaces) (strings.str strings.tab) = rest) as -> by done.
    assert (spec.stripOneLayer (analyser.four_spaces +:+ String strings.tab rest)
            = String strings.tab rest) as -> by done.
    split; [done|]. split; [done|].
    intros [= Heq]. apply (f_equal String.length) in Heq.
    rewrite !length_append in Heq. simpl in Heq. lia.
Qed.

Lemma scanLine_strips_both_layers_witness :
  analyser.scanLine inputs.in_example_empty inputs.line_spaces_tab_y =
    analyser.mkScanner true ("y" +:+ strings.str strings.nl) [] ∧
  spec.inExampleLine inputs.in_example_empty inputs.line_spaces_tab_y =
    analyser.mkScanner true (String strings.tab "y" +:+ strings.str strings.nl) [] ∧
  analyser.scanLine inputs.in_example_empty inputs.line_spaces_tab_y ≠
    spec.inExampleLine inputs.in_example_empty inputs.line_spaces_tab_y.
Proof.
  exact (proj2 (proj2 (proj2 (scanLine_strips_both_layers inputs.in_example_empty
           inputs.line_spaces_tab_y eq_refl eq_refl eq_refl))) "y" eq_refl).
Defined.

(** The same in a whole doc text: the example keeps [y] without its tab. *)
Example extractExamples_spaces_tab :
  analyser.extractExamples
    ("Usage:" +:+ strings.str strings.nl +:+ inputs.line_spaces_tab_y +:+
     strings.str strings.nl)
  = ["y" +:+ strings.str strings.nl].
Proof. vm_compute. reflexivity. Qed.

(** ** Package selection and the order of map iteration *)

Section Selection.

Variable IsExported : string → bool.
Variable doc_New : ast.Package → doc.Package.
Variable ParseDir : string → gmap string ast.Package * option error.

Lemma selectPackage_one_candidate (pkgs : gmap string ast.Package)
    (r1 r2 : analyser.MapRange) :
  analyser.MapRangeOk r1 → analyser.MapRangeOk r2 →
  oneCandidate pkgs →
  analyser.selectPackage (analyser.rangePkgs r1 pkgs) =
  analyser.selectPackage (analyser.rangePkgs r2 pkgs).
Proof.
  intros Hr1 Hr2 Hone.
  destruct (analyser.selectPackage (analyser.rangePkgs r1 pkgs)) as [p1|] eqn:H1.
  - apply selectPackage_Some in H1 as (n1 & Hin1 & Hn1).
    pose proof Hin1 as Hin2.
    rewrite (analyser.rangePkgs_perm r1 Hr1) in Hin1.
    rewrite (analyser.rangePkgs_perm r1 Hr1),
            <- (analyser.rangePkgs_perm r2 Hr2) in Hin2.
    apply elem_of_map_to_list in Hin1.
    destruct (selectPackage_is_Some _ _ _ Hin2 Hn1) as [p2 H2].
    rewrite H2. f_equal.
    apply selectPackage_Some in H2 as (n2 & Hin & Hn2).
    rewrite (analyser.rangePkgs_perm r2 Hr2) in Hin.
    apply elem_of_map_to_list in Hin.
    assert (n1 = n2) as <- by (by eapply Hone). congruence.
  - destruct (analyser.selectPackage (analyser.rangePkgs r2 pkgs)) as [p2|] eqn:H2; [|done].
    apply selectPackage_Some in H2 as (n2 & Hin & Hn2).
    rewrite (analyser.rangePkgs_perm r2 Hr2),
            <- (analyser.rangePkgs_perm r1 Hr1) in Hin.
    destruct (selectPackage_is_Some _ _ _ Hin Hn2) as [p1 Hp1]. congruence.
Qed.

Lemma importSet_elem (r : analyser.MapRange) (pkg : ast.Package) (path : string) :
  analyser.MapRangeOk r →
  path ∈ analyser.importSet r pkg ↔
  ∃ name file imp,
    ast.Files pkg !! name = Some file ∧ imp ∈ ast.Imports file ∧
    path = strings.TrimByte imp strings.quote.
Proof.
  intros Hr. unfold analyser.importSet.
  assert (∀ (imports : list string) (set0 : gset string),
            path ∈ for_range imports set0 (λ importSet imp,
                     {[ strings.TrimByte imp strings.quote ]} ∪ importSet) ↔
            path ∈ set0 ∨ ∃ imp, imp ∈ imports ∧ path = strings.TrimByte imp strings.quote)
    as Hinner.
  { unfold for_range. induction imports as [|imp imports IH]; intros set0; simpl.
    - split; [by left|]. intros [?|(imp & Himp%elem_of_nil & _)]; done.
    - rewrite IH. rewrite elem_of_union, elem_of_singleton. split.
      + intros [[->|?]|(imp' & ? & ->)]; [right|by left|right].
        * exists imp. split; [apply list_elem_of_here|done].
        * exists imp'. split; [by apply elem_of_cons; right|done].
      + intros [?|(imp' & [->|?]%elem_of_cons & ->)];
          [by left; right|by left; left|right; by exists imp']. }
  assert (∀ (files : list (string * ast.File)) (set0 : gset string),
            path ∈ for_range files set0 (λ importSet kf,
                     for_range (ast.Imports kf.2) importSet (λ importSet imp,
                       {[ strings.TrimByte imp strings.quote ]} ∪ importSet)) ↔
            path ∈ set0 ∨
            ∃ kf imp, kf ∈ files ∧ imp ∈ ast.Imports kf.2 ∧
                      path = strings.TrimByte imp strings.quote)
    as Houter.
  { unfold for_range at 1. induction files as [|kf files IH]; intros set0; simpl.
    - split; [by left|]. intros [?|(kf & imp & ?%elem_of_nil & _)]; done.
    - unfold for_range at 1 in IH. rewrite IH, Hinner. split.
      + intros [[?|(imp & ? & ->)]|(kf' & imp & ? & ? & ->)]; [by left|right|right].
        * exists kf, imp. split; [apply list_elem_of_here|done].
        * exists kf', imp. split; [by apply elem_of_cons; right|done].
      + intros [?|(kf' & imp & [->|?]%elem_of_cons & ? & ->)];
          [by left; left|left; right; by exists imp|right; by exists kf', imp]. }
  rewrite Houter. split.
  - intros [?%not_elem_of_empty|([name file] & imp & Hin & Himp & ->)]; [done|].
    rewrite (analyser.rangeFiles_perm r Hr) in Hin.
    apply elem_of_map_to_list in Hin. by exists name, file, imp.
  - intros (name & file & imp & Hfile & Himp & ->). right.
    exists (name, file), imp. split; [|done].
    rewrite (analyser.rangeFiles_perm r Hr). by apply elem_of_map_to_list.
Qed.

Lemma extractImports_perm (r1 r2 : analyser.MapRange) (pkg : ast.Package) :
  analyser.MapRangeOk r1 → analyser.MapRangeOk r2 →
  analyser.extractImports r1 pkg ≡ₚ analyser.extractImports r2 pkg.
Proof.
  intros Hr1 Hr2. unfold analyser.extractImports.
  rewrite !(for_range_map id) by done. simpl. rewrite !map_id.
  rewrite (analyser.rangeImportSet_perm r1 Hr1), (analyser.rangeImportSet_perm r2 Hr2).
  assert (analyser.importSet r1 pkg = analyser.importSet r2 pkg) as ->; [|done].
  apply set_eq. intros path. by rewrite !importSet_elem.
Qed.

End Selection.

(** C7 (as amended). When at most one of the packages that the parse
    yields has a name without the [_test] suffix, two runs of
    [AnalysePackage] on the same parse select the same package whatever the
    order in which each visits the maps, return the same error, and return
    models that agree in every field, the imports up to their order. *)
Theorem selection_deterministic_one_candidate
    (IsExported : string → bool) (doc_New : ast.Package → doc.Package)
    (ParseDir : string → gmap string ast.Package * option error)
    (r1 r2 : analyser.MapRange) (dir : string) :
  analyser.MapRangeOk r1 → analyser.MapRangeOk r2 →
  oneCandidate (ParseDir dir).1 →
  analyser.selectPackage (analyser.rangePkgs r1 (ParseDir dir).1) =
  analyser.selectPackage (analyser.rangePkgs r2 (ParseDir dir).1) ∧
  sameResult (analyser.AnalysePackage IsExported doc_New ParseDir r1 dir)
             (analyser.AnalysePackage IsExported doc_New ParseDir r2 dir).
Proof.
  intros Hr1 Hr2 Hone.
  pose proof (selectPackage_one_candidate _ r1 r2 Hr1 Hr2 Hone) as Hsel.
  split; [done|].
  destruct (ParseDir dir) as [pkgs err] eqn:Hparse. simpl in Hsel.
  destruct err as [err|].
  { unfold analyser.AnalysePackage. by rewrite Hparse. }
  destruct (analyser.selectPackage (analyser.rangePkgs r2 pkgs)) as [pkg|] eqn:H2.
  - rewrite (AnalysePackage_selected _ _ _ r1 dir pkgs pkg) by done.
    rewrite (AnalysePackage_selected _ _ _ r2 dir pkgs pkg) by done.
    split; [done|]. simpl. repeat split.
    by apply extractImports_perm.
  - unfold analyser.AnalysePackage. by rewrite Hparse, Hsel, H2.
Qed.

Lemma demo_one_candidate : oneCandidate (inputs.ParseDir "demo").1.
Proof.
  intros n1 n2 p1 p2 H1 H2 Hn1 Hn2. simpl in H1, H2.
  apply lookup_insert_Some in H1 as [[<- _]|[_ [<- _]%lookup_singleton_Some]];
    apply lookup_insert_Some in H2 as [[<- _]|[_ [<- _]%lookup_singleton_Some]];
    done.
Qed.

Lemma selection_deterministic_one_candidate_witness :
  analyser.selectPackage (analyser.rangePkgs inputs.forwards (inputs.ParseDir "demo").1) =
  analyser.selectPackage (analyser.rangePkgs inputs.backwards (inputs.ParseDir "demo").1) ∧
  sameResult
    (analyser.AnalysePackage inputs.IsExported inputs.doc_New inputs.ParseDir
       inputs.forwards "demo")
    (analyser.AnalysePackage inputs.IsExported inputs.doc_New inputs.ParseDir
       inputs.backwards "demo").
Proof.
  exact (selection_deterministic_one_candidate inputs.IsExported inputs.doc_New
           inputs.ParseDir inputs.forwards inputs.backwards "demo"
           forwards_ok backwards_ok demo_one_candidate).
Defined.

(** C7, as the specification words it, fails for a directory whose parse
    yields two packages without the [_test] suffix: a run that visits the
    map in one order selects [main], a run that visits it in the reverse
    order selects [demo], and the two models differ. *)
Lemma selection_not_deterministic :
  analyser.MapRangeOk inputs.forwards ∧
  analyser.MapRangeOk inputs.backwards ∧
  analyser.selectPackage (analyser.rangePkgs inputs.forwards (inputs.ParseDir "mixed").1)
    = Some inputs.main_pkg ∧
  analyser.selectPackage (analyser.rangePkgs inputs.backwards (inputs.ParseDir "mixed").1)
    = Some inputs.demo_pkg ∧
  PackageInfo.Name <$>
    (analyser.AnalysePackage inputs.IsExported inputs.doc_New inputs.ParseDir
       inputs.forwards "mixed").1 = Some "main" ∧
  PackageInfo.Name <$>
    (analyser.AnalysePackage inputs.IsExported inputs.doc_New inputs.ParseDir
       inputs.backwards "mixed").1 = Some "demo" ∧
  ¬ spec.deterministic inputs.IsExported inputs.doc_New inputs.ParseDir "mixed".
Proof.
  split; [apply forwards_ok|]. split; [apply backwards_ok|].
  split; [vm_compute; reflexivity|].
  split; [vm_compute; reflexivity|].
  split; [vm_compute; reflexivity|].
  split; [vm_compute; reflexivity|].
  intros H.
  destruct (H inputs.forwards inputs.backwards forwards_ok backwards_ok) as [Hsel _].
  vm_compute in Hsel. discriminate Hsel.
Qed.

(** ** The enhancement stage *)

Lemma for_range_invariant {A S : Type} (I : S → Prop) (body : S → A → S)
    (l : list A) (init : S) :
  I init → (∀ s x, I s → I (body s x)) → I (for_range l init body).
Proof.
  intros Hinit Hstep. unfold for_range. revert init Hinit.
  induction l as [|x l IH]; intros init Hinit; simpl; [done|].
  apply IH. by apply Hstep.
Qed.

Lemma functionFrame_refl (fn : FunctionInfo.t) : functionFrame fn fn.
Proof. by split. Qed.

Lemma functionFrame_trans (a b c : FunctionInfo.t) :
  functionFrame a b → functionFrame b c → functionFrame a c.
Proof.
  intros [Hd1 He1] [Hd2 He2]. split.
  - intros H. rewrite <- (Hd1 H). apply Hd2. by rewrite (Hd1 H).
  - intros H. rewrite <- (He1 H). apply He2. by rewrite (He1 H).
Qed.

Lemma typeFrame_refl (typ : TypeInfo.t) : typeFrame typ typ.
Proof. by intros ?. Qed.

Lemma typeFrame_trans (a b c : TypeInfo.t) :
  typeFrame a b → typeFrame b c → typeFrame a c.
Proof.
  intros H1 H2 H. rewrite <- (H1 H). apply H2. by rewrite (H1 H).
Qed.

Lemma Forall2_refl_frame {A : Type} (R : A → A → Prop) (l : list A) :
  (∀ x, R x x) → Forall2 R l l.
Proof. intros HR. induction l; by constructor. Qed.

Lemma Forall2_trans_frame {A : Type} (R : A → A → Prop) (l1 l2 l3 : list A) :
  (∀ x y z, R x y → R y z → R x z) →
  Forall2 R l1 l2 → Forall2 R l2 l3 → Forall2 R l1 l3.
Proof.
  intros HR H12. revert l3.
  induction H12 as [|x y l1 l2 Hxy _ IH]; intros l3 H23; inversion H23; subst.
  - constructor.
  - constructor; [by eapply HR|by apply IH].
Qed.

Lemma Forall2_update {A : Type} (R : A → A → Prop) (l : list A) (i : nat) (x y : A) :
  (∀ x, R x x) → l !! i = Some x → R x y → Forall2 R l (<[i := y]> l).
Proof.
  intros HR Hi Hxy.
  rewrite <- (list_insert_id l i x Hi) at 1.
  apply Forall2_insert; [by apply Forall2_refl_frame|done].
Qed.

Lemma packageFrame_refl (pkg : PackageInfo.t) : packageFrame pkg pkg.
Proof.
  repeat split; try done.
  - apply Forall2_refl_frame, functionFrame_refl.
  - apply Forall2_refl_frame, typeFrame_refl.
Qed.

Lemma packageFrame_trans (a b c : PackageInfo.t) :
  packageFrame a b → packageFrame b c → packageFrame a c.
Proof.
  intros (Hd1 & He1 & Hf1 & Ht1) (Hd2 & He2 & Hf2 & Ht2). repeat split.
  - intros H. rewrite <- (Hd1 H). apply Hd2. by rewrite (Hd1 H).
  - intros H. rewrite <- (He1 H). apply He2. by rewrite (He1 H).
  - eapply Forall2_trans_frame; [apply functionFrame_trans|done..].
  - eapply Forall2_trans_frame; [apply typeFrame_trans|done..].
Qed.

(** The five assignments of the stage, each under the test that guards
    it. *)
Lemma frame_setPackageDescription (pkg : PackageInfo.t) (d : string) :
  Nat.ltb (String.length (PackageInfo.Description pkg)) 50 = true →
  packageFrame pkg (generator.setPackageDescription pkg d).
Proof.
  intros Hlt%Nat.ltb_lt. repeat split; simpl; try done; try lia.
  - apply Forall2_refl_frame, functionFrame_refl.
  - apply Forall2_refl_frame, typeFrame_refl.
Qed.

Lemma frame_setFunctionDescription (pkg : PackageInfo.t) (i : nat)
    (fn : FunctionInfo.t) (d : string) :
  PackageInfo.Functions pkg !! i = Some fn →
  Nat.ltb (String.length (FunctionInfo.Description fn)) 20 = true →
  packageFrame pkg
    (generator.setPackageFunctions pkg
       (<[i := generator.setFunctionDescription fn d]> (PackageInfo.Functions pkg))).
Proof.
  intros Hi Hlt%Nat.ltb_lt. repeat split; simpl; try done.
  - eapply Forall2_update; [apply functionFrame_refl|done|].
    split; simpl; [lia|done].
  - apply Forall2_refl_frame, typeFrame_refl.
Qed.

Lemma frame_setTypeDescription (pkg : PackageInfo.t) (i : nat)
    (typ : TypeInfo.t) (d : string) :
  PackageInfo.Types pkg !! i = Some typ →
  Nat.ltb (String.length (TypeInfo.Description typ)) 20 = true →
  packageFrame pkg
    (generator.setPackageTypes pkg
       (<[i := generator.setTypeDescription typ d]> (PackageInfo.Types pkg))).
Proof.
  intros Hi Hlt%Nat.ltb_lt. repeat split; simpl; try done.
  - apply Forall2_refl_frame, functionFrame_refl.
  - eapply Forall2_update; [apply typeFrame_refl|done|].
    intros ?. simpl. lia.
Qed.

Lemma frame_setPackageExamples (pkg : PackageInfo.t) (exs : list ExampleInfo.t) :
  length (PackageInfo.Examples pkg) = 0 →
  packageFrame pkg (generator.setPackageExamples pkg exs).
Proof.
  intros Hlen%nil_length_inv. repeat split; simpl; try done.
  - apply Forall2_refl_frame, functionFrame_refl.
  - apply Forall2_refl_frame, typeFrame_refl.
Qed.

Lemma frame_setFunctionExamples (pkg : PackageInfo.t) (i : nat)
    (fn : FunctionInfo.t) (exs : list string) :
  PackageInfo.Functions pkg !! i = Some fn →
  length (FunctionInfo.Examples fn) = 0 →
  packageFrame pkg
    (generator.setPackageFunctions pkg
       (<[i := generator.setFunctionExamples fn exs]> (PackageInfo.Functions pkg))).
Proof.
  intros Hi Hlen%nil_length_inv. repeat split; simpl; try done.
  - eapply Forall2_update; [apply functionFrame_refl|done|].
    split; simpl; done.
  - apply Forall2_refl_frame, typeFrame_refl.
Qed.

Section EnhancerFrame.

Context {World : Type}.
Variable GenerateContent : World → string → (string + error) * World.
Variable packageDescriptionPrompt : PackageInfo.t → string + error.
Variable functionDescriptionPrompt : FunctionInfo.t → string + error.
Variable typeDescriptionPrompt : TypeInfo.t → string + error.
Variable packageExamplePrompt : PackageInfo.t → string + error.
Variable functionExamplePrompt : FunctionInfo.t → PackageInfo.t → string + error.
Variable ExecuteTemplate : PackageInfo.t → string + error.

Lemma enhanceDescriptions_frame (pkg : PackageInfo.t) (w : World) :
  packageFrame pkg
    (generator.enhanceDescriptions GenerateContent packageDescriptionPrompt
       functionDescriptionPrompt typeDescriptionPrompt pkg w).1.1.
Proof.
  unfold generator.enhanceDescriptions.
  set (st1 := if Nat.ltb _ 50 then _ else _).
  assert (packageFrame pkg st1.1) as H1.
  { subst st1. destruct (Nat.ltb _ 50) eqn:Hlt; [|apply packageFrame_refl].
    destruct (generator.enhancePackageDescription _ _ _ _) as [res w1].
    destruct (generator.accepted res); simpl; [|apply packageFrame_refl].
    by apply frame_setPackageDescription. }
  destruct st1 as [pkg1 w1]. simpl in H1.
  set (st2 := for_range _ (pkg1, w1) _).
  assert (packageFrame pkg st2.1) as H2.
  { subst st2. apply for_range_invariant; [done|].
    intros [p wp] i Hp. simpl in *.
    destruct (PackageInfo.Functions p !! i) as [fn|] eqn:Hi; [|done].
    destruct (Nat.ltb _ 20) eqn:Hlt; [|done].
    destruct (generator.enhanceFunctionDescription _ _ _ _) as [res w'].
    destruct (generator.accepted res); simpl; [|done].
    eapply packageFrame_trans; [done|]. by apply frame_setFunctionDescription. }
  destruct st2 as [pkg2 w2]. simpl in H2.
  set (st3 := for_range _ (pkg2, w2) _).
  assert (packageFrame pkg st3.1) as H3.
  { subst st3. apply for_range_invariant; [done|].
    intros [p wp] i Hp. simpl in *.
    destruct (PackageInfo.Types p !! i) as [typ|] eqn:Hi; [|done].
    destruct (Nat.ltb _ 20) eqn:Hlt; [|done].
    destruct (generator.enhanceTypeDescription _ _ _ _) as [res w'].
    destruct (generator.accepted res); simpl; [|done].
    eapply packageFrame_trans; [done|]. by apply frame_setTypeDescription. }
  by destruct st3 as [pkg3 w3].
Qed.

Lemma generateExamples_frame (pkg : PackageInfo.t) (w : World) :
  packageFrame pkg
    (generator.generateExamples GenerateContent packageExamplePrompt
       functionExamplePrompt pkg w).1.1.
Proof.
  unfold generator.generateExamples.
  set (st1 := if decide _ then _ else _).
  assert (packageFrame pkg st1.1) as H1.
  { subst st1. destruct (decide _) as [Hlen|]; [|apply packageFrame_refl].
    destruct (generator.generatePackageExample _ _ _ _) as [res w1].
    destruct (generator.accepted res); simpl; [|apply packageFrame_refl].
    by apply frame_setPackageExamples. }
  destruct st1 as [pkg1 w1]. simpl in H1.
  set (st2 := for_range _ (pkg1, w1) _).
  assert (packageFrame pkg st2.1) as H2.
  { subst st2. apply for_range_invariant; [done|].
    intros [p wp] i Hp. simpl in *.
    destruct (PackageInfo.Functions p !! i) as [fn|] eqn:Hi; [|done].
    destruct (bool_decide _) eqn:Hlen; simpl; [|done].
    destruct (FunctionInfo.IsExported fn); [|done].
    destruct (generator.generateFunctionExample _ _ _ _ _) as [res w'].
    destruct (generator.accepted res); simpl; [|done].
    eapply packageFrame_trans; [done|].
    apply frame_setFunctionExamples; [done|]. by apply bool_decide_eq_true in Hlen. }
  by destruct st2 as [pkg2 w2].
Qed.

Lemma GeneratePackageDoc_frame (pkg : PackageInfo.t) (config : generator.DocConfig)
    (w : World) :
  packageFrame pkg
    (generator.GeneratePackageDoc GenerateContent packageDescriptionPrompt
       functionDescriptionPrompt typeDescriptionPrompt packageExamplePrompt
       functionExamplePrompt ExecuteTemplate pkg config w).1.2.
Proof.
  unfold generator.GeneratePackageDoc.
  pose proof (enhanceDescriptions_frame pkg w) as H1.
  destruct (generator.enhanceDescriptions _ _ _ _ _ _) as [[pkg1 err1] w1].
  simpl in H1. destruct err1 as [err1|]; [done|].
  set (st2 := if generator.GenerateExamples config then _ else _).
  assert (packageFrame pkg st2.1.1) as H2.
  { subst st2. destruct (generator.GenerateExamples config); [|done].
    eapply packageFrame_trans; [done|]. apply generateExamples_frame. }
  destruct st2 as [[pkg2 err2] w2]. simpl in H2.
  destruct err2 as [err2|]; [done|].
  by destruct (ExecuteTemplate pkg2).
Qed.

End EnhancerFrame.

(** C5. Whatever the language service answers, the model that
    [GeneratePackageDoc] leaves behind (after [enhanceDescriptions] and,
    when configured, [generateExamples]) has
    - the package description it had, if that was 50 bytes or longer;
    - the package examples it had, if there were any;
    - the same functions in the same positions, each with the description
      it had if that was 20 bytes or longer and with the examples it had
      if there were any;
    - the same types in the same positions, each with the description it
      had if that was 20 bytes or longer. *)
Theorem enhancement_respects_thresholds
    {World : Type}
    (GenerateContent : World → string → (string + error) * World)
    (packageDescriptionPrompt : PackageInfo.t → string + error)
    (functionDescriptionPrompt : FunctionInfo.t → string + error)
    (typeDescriptionPrompt : TypeInfo.t → string + error)
    (packageExamplePrompt : PackageInfo.t → string + error)
    (functionExamplePrompt : FunctionInfo.t → PackageInfo.t → string + error)
    (ExecuteTemplate : PackageInfo.t → string + error)
    (pkg : PackageInfo.t) (config : generator.DocConfig) (w : World) :
  let pkg' :=
    (generator.GeneratePackageDoc GenerateContent packageDescriptionPrompt
       functionDescriptionPrompt typeDescriptionPrompt packageExamplePrompt
       functionExamplePrompt ExecuteTemplate pkg config w).1.2 in
  (50 ≤ String.length (PackageInfo.Description pkg) →
     PackageInfo.Description pkg' = PackageInfo.Description pkg) ∧
  (PackageInfo.Examples pkg ≠ [] →
     PackageInfo.Examples pkg' = PackageInfo.Examples pkg) ∧
  length (PackageInfo.Functions pkg') = length (PackageInfo.Functions pkg) ∧
  (∀ i fn fn',
     PackageInfo.Functions pkg !! i = Some fn →
     PackageInfo.Functions pkg' !! i = Some fn' →
     (20 ≤ String.length (FunctionInfo.Description fn) →
        FunctionInfo.Description fn' = FunctionInfo.Description fn) ∧
     (FunctionInfo.Examples fn ≠ [] →
        FunctionInfo.Examples fn' = FunctionInfo.Examples fn)) ∧
  length (PackageInfo.Types pkg') = length (PackageInfo.Types pkg) ∧
  (∀ i typ typ',
     PackageInfo.Types pkg !! i = Some typ →
     PackageInfo.Types pkg' !! i = Some typ' →
     20 ≤ String.length (TypeInfo.Description typ) →
     TypeInfo.Description typ' = TypeInfo.Description typ).
Proof.
  intros pkg'.
  destruct (GeneratePackageDoc_frame GenerateContent packageDescriptionPrompt
              functionDescriptionPrompt typeDescriptionPrompt packageExamplePrompt
              functionExamplePrompt ExecuteTemplate pkg config w)
    as (Hd & He & Hf & Ht).
  fold pkg' in Hd, He, Hf, Ht.
  split; [done|]. split; [done|].
  split; [symmetry; by eapply Forall2_length|].
  split; [intros i fn fn' Hi Hi'; by eapply (Forall2_lookup_lr _ _ _ _ _ _ Hf)|].
  split; [symmetry; by eapply Forall2_length|].
  intros i typ typ' Hi Hi'. by eapply (Forall2_lookup_lr _ _ _ _ _ _ Ht).
Qed.

Lemma enhancement_respects_thresholds_witness :
  let pkg' :=
    (generator.GeneratePackageDoc inputs.GenerateContent inputs.packagePrompt
       inputs.functionPrompt inputs.typePrompt inputs.packagePrompt
       inputs.functionExamplePrompt inputs.ExecuteTemplate
       inputs.documented inputs.config 0).1.2 in
  PackageInfo.Description pkg' = inputs.long_description ∧
  PackageInfo.Examples pkg' = PackageInfo.Examples inputs.documented ∧
  (∀ fn', PackageInfo.Functions pkg' !! 0 = Some fn' →
     FunctionInfo.Description fn' = "New makes a Store.  " ∧
     FunctionInfo.Examples fn' = ["s := demo.New()"]).
Proof.
  intros pkg'.
  destruct (enhancement_respects_thresholds inputs.GenerateContent inputs.packagePrompt
              inputs.functionPrompt inputs.typePrompt inputs.packagePrompt
              inputs.functionExamplePrompt inputs.ExecuteTemplate
              inputs.documented inputs.config 0)
    as (Hd & He & _ & Hf & _).
  split; [apply Hd; vm_compute; lia|].
  split; [apply He; discriminate|].
  intros fn' Hfn'.
  destruct (Hf 0 _ fn' eq_refl Hfn') as [Hfd Hfe].
  split; [apply Hfd; vm_compute; lia|apply Hfe; discriminate].
Defined.

(** The same run rewrites what is below the thresholds: the description of
    [Get] and of [Store], and the empty examples of [Get]. *)
Example enhancement_of_documented :
  let pkg' :=
    (generator.GeneratePackageDoc inputs.GenerateContent inputs.packagePrompt
       inputs.functionPrompt inputs.typePrompt inputs.packagePrompt
       inputs.functionExamplePrompt inputs.ExecuteTemplate
       inputs.documented inputs.config 0).1.2 in
  map FunctionInfo.Description (PackageInfo.Functions pkg')
    = ["New makes a Store.  "; "A generated text."] ∧
  map FunctionInfo.Examples (PackageInfo.Functions pkg')
    = [["s := demo.New()"]; ["A generated text."]] ∧
  map TypeInfo.Description (PackageInfo.Types pkg') = ["A generated text."].
Proof. vm_compute. done. Qed.

(** * Further properties of the analyser *)

(** ** Type text *)

Lemma append_empty (s t : string) : s +:+ t = EmptyString → s = EmptyString ∧ t = EmptyString.
Proof. destruct s; [done|]. intros H. discriminate H. Qed.

(** X1. The text of a type expression is empty only for an identifier
    whose name is empty; every other shape, the unrecognized ones
    included, has a non-empty text. *)
Theorem typeToString_empty_iff (expr : ast.Expr) :
  analyser.typeToString expr = EmptyString ↔ expr = ast.Ident EmptyString.
Proof.
  split; [|by intros ->].
  destruct expr; simpl; try (intros H; discriminate H).
  - by intros ->.
  - intros [_ H]%append_empty. discriminate H.
Qed.

(** ** Fields and parameters *)

Lemma extractFields_flat_map (structFields : ast.FieldList) :
  analyser.extractFields structFields = flat_map fieldsOfField structFields.
Proof.
  unfold analyser.extractFields.
  rewrite (for_range_flat_map fieldsOfField); [done|].
  intros acc field. unfold fieldsOfField, tagText.
  destruct (ast.Names field) as [|n ns] eqn:Hn.
  - by rewrite decide_True.
  - rewrite decide_False by done.
    by rewrite (for_range_map
      (λ name, FieldInfo.mk name (analyser.typeToString (ast.Type_ field))
                 (match ast.Tag field with Some Value => Value | None => EmptyString end)
                 EmptyString)).
Qed.

(** X2. The fields of a struct are expanded exactly as the parameters of a
    function are: forgetting tag and description, [extractFields] gives on
    a field list the names and types that [extractParameters] gives on it,
    in the same order (one entry per name, one entry with an empty name for
    a group without names); every entry has an empty description and
    carries the tag of its group, or the empty string if the group has
    none. *)
Theorem extractFields_as_parameters (structFields : ast.FieldList) :
  map (λ f, ParamInfo.mk (FieldInfo.Name f) (FieldInfo.Type_ f))
      (analyser.extractFields structFields)
    = analyser.extractParameters (Some structFields) ∧
  ∀ f, f ∈ analyser.extractFields structFields →
    FieldInfo.Description f = EmptyString ∧
    ∃ field, field ∈ structFields ∧
      FieldInfo.Tag f = tagText field ∧
      FieldInfo.Type_ f = analyser.typeToString (ast.Type_ field) ∧
      (ast.Names field = [] ∧ FieldInfo.Name f = EmptyString ∨
       FieldInfo.Name f ∈ ast.Names field).
Proof.
  rewrite extractFields_flat_map, extractParameters_flat_map. split.
  - induction structFields as [|field fields IH]; simpl; [done|].
    rewrite map_app, IH. f_equal.
    unfold fieldsOfField, paramsOfField.
    destruct (ast.Names field); simpl; [done|].
    f_equal. by rewrite map_map.
  - intros f (field & Hfield & Hf)%list_elem_of_In%in_flat_map.
    unfold fieldsOfField in Hf.
    destruct (ast.Names field) as [|n ns] eqn:Hn.
    + destruct Hf as [<-|[]]. split; [done|].
      exists field. rewrite list_elem_of_In. repeat split; try done. by left.
    + apply in_map_iff in Hf as (name & <- & Hname). split; [done|].
      exists field. rewrite list_elem_of_In. repeat split; try done.
      right. simpl. rewrite Hn. by apply list_elem_of_In.
Qed.

Lemma extractFields_as_parameters_witness :
  FieldInfo.Description (FieldInfo.mk EmptyString "Reader" EmptyString EmptyString) = EmptyString ∧
  ∃ field,
    field ∈ [ast.mkField ["name"] (ast.Ident "string") None;
             ast.mkField [] (ast.Ident "Reader") None] ∧
    EmptyString = tagText field ∧
    "Reader" = analyser.typeToString (ast.Type_ field) ∧
    (ast.Names field = [] ∧ EmptyString = EmptyString ∨ EmptyString ∈ ast.Names field).
Proof.
  apply (proj2 (extractFields_as_parameters
                  [ast.mkField ["name"] (ast.Ident "string") None;
                   ast.mkField [] (ast.Ident "Reader") None])
               (FieldInfo.mk EmptyString "Reader" EmptyString EmptyString)).
  apply list_elem_of_further, list_elem_of_here.
Defined.

(** ** The parameter text of a signature *)

Lemma fieldListToString_parts (List : ast.FieldList) :
  analyser.fieldListToString (Some List) =
  strings.Join
    (flat_map (λ field,
       match ast.Names field with
       | [] => [analyser.typeToString (ast.Type_ field)]
       | names => map (λ name, name +:+ " " +:+ analyser.typeToString (ast.Type_ field)) names
       end) List) ", ".
Proof.
  unfold analyser.fieldListToString. f_equal.
  rewrite (for_range_flat_map (λ field,
       match ast.Names field with
       | [] => [analyser.typeToString (ast.Type_ field)]
       | names => map (λ name, name +:+ " " +:+ analyser.typeToString (ast.Type_ field)) names
       end)); [done|].
  intros acc field.
  destruct (ast.Names field) as [|n ns] eqn:Hn.
  - by rewrite decide_True.
  - rewrite decide_False by done.
    by rewrite (for_range_map
      (λ name, name +:+ " " +:+ analyser.typeToString (ast.Type_ field))).
Qed.

(** X3. When no declared name is the empty string, the text that
    [fieldListToString] writes for a field list is the comma-joined text of
    the entries that [extractParameters] returns for it: the type alone for
    an entry without a name, the name, a space and the type otherwise.  So
    the parameter list inside a signature and the [Parameters] of the same
    function agree, entry by entry. *)
Theorem fieldListToString_of_parameters (List : ast.FieldList) :
  Forall (λ field, Forall (λ name, name ≠ EmptyString) (ast.Names field)) List →
  analyser.fieldListToString (Some List) =
  strings.Join (map paramText (analyser.extractParameters (Some List))) ", ".
Proof.
  intros Hnames.
  rewrite fieldListToString_parts, extractParameters_flat_map. f_equal.
  induction Hnames as [|field fields Hfield _ IH]; cbn [flat_map]; [done|].
  rewrite map_app, IH. f_equal.
  unfold paramsOfField.
  destruct (ast.Names field) as [|n ns]; [done|].
  rewrite map_map.
  apply map_ext_in. intros name Hin.
  rewrite Forall_forall in Hfield.
  unfold paramText. simpl. unfold strings.eqb.
  rewrite bool_decide_eq_false_2; [done|].
  apply Hfield. by apply list_elem_of_In.
Qed.

Lemma fieldListToString_of_parameters_witness :
  analyser.fieldListToString
    (Some [ast.mkField ["a"; "b"] inputs.int_ None;
           ast.mkField [] (ast.Ident "error") None])
  = strings.Join ["a int"; "b int"; "error"] ", ".
Proof.
  apply (fieldListToString_of_parameters
           [ast.mkField ["a"; "b"] inputs.int_ None;
            ast.mkField [] (ast.Ident "error") None]).
  repeat constructor; discriminate.
Defined.

(** ** Constant and variable declarations *)

Lemma analyseVariableDecl_flat_map (IsExported : string → bool) (v : doc.Value) :
  analyser.analyseVariableDecl IsExported v =
  flat_map (varsOfSpec IsExported v) (ast.Specs (doc.VDecl v)).
Proof.
  unfold analyser.analyseVariableDecl.
  rewrite (for_range_flat_map (varsOfSpec IsExported v)); [done|].
  intros acc [vs|ts|path]; simpl; try by rewrite app_nil_r.
  by rewrite (for_range_map (λ name, VariableInfo.mk name
       (match ast.VType vs with Some t => analyser.typeToString t | None => EmptyString end)
       (analyser.cleanDoc (doc.VDoc v)) (IsExported name))).
Qed.

Lemma imap_asVariable (IsExported : string → bool) (c : doc.Value) (vs : ast.ValueSpec) :
  map asVariable (constsOfSpec IsExported c (ast.SpecValue vs)) =
  varsOfSpec IsExported c (ast.SpecValue vs).
Proof.
  simpl. apply list_eq. intros i.
  change (map ?f ?l) with (f <$> l).
  rewrite !list_lookup_fmap, list_lookup_imap.
  by destruct (ast.VNames vs !! i).
Qed.

Lemma analyseConstantDecl_asVariable (IsExported : string → bool) (c : doc.Value) :
  map asVariable (analyser.analyseConstantDecl IsExported c) =
  analyser.analyseVariableDecl IsExported c.
Proof.
  rewrite analyseConstantDecl_flat_map, analyseVariableDecl_flat_map.
  induction (ast.Specs (doc.VDecl c)) as [|spec specs IH]; cbn [flat_map]; [done|].
  rewrite map_app, IH. f_equal.
  destruct spec as [vs|ts|path]; [|done..]. apply imap_asVariable.
Qed.

Lemma analyseConstantDecl_names (IsExported : string → bool) (c : doc.Value) :
  map ConstantInfo.Name (analyser.analyseConstantDecl IsExported c) =
  declaredNames (doc.VDecl c).
Proof.
  rewrite analyseConstantDecl_flat_map. unfold declaredNames.
  induction (ast.Specs (doc.VDecl c)) as [|spec specs IH]; cbn [flat_map]; [done|].
  rewrite map_app, IH. f_equal.
  destruct spec as [vs|ts|path]; [|done..].
  simpl. apply list_eq. intros i.
  change (map ?f ?l) with (f <$> l).
  rewrite list_lookup_fmap, list_lookup_imap.
  by destruct (ast.VNames vs !! i).
Qed.

Lemma analyseVariableDecl_names (IsExported : string → bool) (v : doc.Value) :
  map VariableInfo.Name (analyser.analyseVariableDecl IsExported v) =
  declaredNames (doc.VDecl v).
Proof.
  rewrite <- analyseConstantDecl_asVariable, <- (analyseConstantDecl_names IsExported).
  rewrite map_map. by apply map_ext.
Qed.

(** X4. A declaration analysed as constants and analysed as variables
    gives the same entries but for the value: the same names in the same
    order, each with the same type text, description and exported flag.
    The names are those that the value specs of the declaration bind, in
    order; specs of other kinds contribute nothing. *)
Theorem constants_as_variables (IsExported : string → bool) (c : doc.Value) :
  map asVariable (analyser.analyseConstantDecl IsExported c) =
    analyser.analyseVariableDecl IsExported c ∧
  map ConstantInfo.Name (analyser.analyseConstantDecl IsExported c) =
    declaredNames (doc.VDecl c).
Proof.
  split; [apply analyseConstantDecl_asVariable|apply analyseConstantDecl_names].
Qed.

(** X5. All the names of one constant declaration share its description:
    every entry carries the cleaned doc text of the declaration, and its
    exported flag is that of its own name. *)
Theorem constants_share_description (IsExported : string → bool) (c : doc.Value)
    (k : ConstantInfo.t) :
  k ∈ analyser.analyseConstantDecl IsExported c →
  ConstantInfo.Description k = analyser.cleanDoc (doc.VDoc c) ∧
  ConstantInfo.IsExported k = IsExported (ConstantInfo.Name k).
Proof.
  rewrite analyseConstantDecl_flat_map.
  intros (spec & _ & Hk)%list_elem_of_In%in_flat_map.
  destruct spec as [vs|ts|path]; [|done..].
  apply list_elem_of_In, list_elem_of_lookup in Hk as [i Hi].
  simpl in Hi. rewrite list_lookup_imap in Hi.
  destruct (ast.VNames vs !! i); [|done].
  by injection Hi as <-.
Qed.

Lemma constants_share_description_witness :
  ConstantInfo.Description (ConstantInfo.mk "B" EmptyString EmptyString "doc" true) = "doc" ∧
  ConstantInfo.IsExported (ConstantInfo.mk "B" EmptyString EmptyString "doc" true) =
    inputs.IsExported "B".
Proof.
  apply (constants_share_description inputs.IsExported inputs.const_A_B_1).
  apply list_elem_of_further, list_elem_of_here.
Defined.

(** * Further properties of the package analyser *)

(** X6. In a model returned by [AnalysePackage], an entry of [Functions]
    with [IsMethod] set has the name of one of the types of the model as
    its receiver, and that type lists it among its methods; an entry
    without [IsMethod] has an empty receiver. *)
Theorem method_entries_have_types
    (IsExported : string → bool) (doc_New : ast.Package → doc.Package)
    (ParseDir : string → gmap string ast.Package * option error)
    (r : analyser.MapRange) (dir : string) (info : PackageInfo.t)
    (fn : FunctionInfo.t) :
  (analyser.AnalysePackage IsExported doc_New ParseDir r dir).1 = Some info →
  fn ∈ PackageInfo.Functions info →
  if FunctionInfo.IsMethod fn
  then ∃ T, T ∈ PackageInfo.Types info ∧
            FunctionInfo.Receiver fn = TypeInfo.Name T ∧
            FunctionInfo.Name fn ∈ TypeInfo.Methods T
  else FunctionInfo.Receiver fn = EmptyString.
Proof.
  intros (pkgs & pkg & _ & _ & ->)%AnalysePackage_Some Hfn. simpl in Hfn.
  apply elem_of_app in Hfn as [Hfn|Hfn].
  - apply list_elem_of_In, in_map_iff in Hfn as (f & <- & _).
    unfold analyser.analyseFunctionDecl.
    destruct (doc.FDecl f) as [decl|]; [|done].
    by destruct (ast.FType decl), (analyser.getFunctionSignature decl).
  - apply list_elem_of_In, in_flat_map in Hfn as (typ & Htyp & Hfn).
    apply in_map_iff in Hfn as (method & <- & Hmethod). simpl.
    destruct (analyseTypeDecl_Name_Methods IsExported typ) as [HN HM].
    exists (analyser.analyseTypeDecl IsExported typ). split; [|split].
    + apply list_elem_of_In, in_map_iff. by exists typ.
    + by rewrite HN.
    + rewrite HM, analyseFunctionDecl_Name.
      apply list_elem_of_In, in_map_iff. by exists method.
Qed.

Lemma method_entries_have_types_witness :
  ∃ T, T ∈ PackageInfo.Types
             (modelOf inputs.IsExported inputs.doc_New inputs.forwards "demo" inputs.demo_pkg) ∧
       "Store" = TypeInfo.Name T ∧ "Get" ∈ TypeInfo.Methods T.
Proof.
  apply (method_entries_have_types inputs.IsExported inputs.doc_New inputs.ParseDir
           inputs.forwards "demo"
           (modelOf inputs.IsExported inputs.doc_New inputs.forwards "demo" inputs.demo_pkg)
           (methodInfoOf inputs.IsExported inputs.store_type
              (doc.mkFunc "Get looks k up." "Get" (Some inputs.get_decl)))).
  - vm_compute. reflexivity.
  - apply list_elem_of_further, list_elem_of_here.
Defined.

(** X7. The model follows the documentation view of the selected package:
    a successful run selected a parsed package whose name does not end in
    [_test]; the model has the name that [doc.New] reports for it and the
    path that was asked for; its types are those of the view in the same
    order; its functions are the functions of the view in order, followed
    by the methods of each type, type by type; its constants and
    variables carry the declared names in order. *)
Theorem model_follows_doc_order
    (IsExported : string → bool) (doc_New : ast.Package → doc.Package)
    (ParseDir : string → gmap string ast.Package * option error)
    (r : analyser.MapRange) (dir : string) (info : PackageInfo.t) :
  analyser.MapRangeOk r →
  (analyser.AnalysePackage IsExported doc_New ParseDir r dir).1 = Some info →
  ∃ name pkg,
    (ParseDir dir).1 !! name = Some pkg ∧
    strings.HasSuffix name "_test" = false ∧
    PackageInfo.Name info = doc.Name (doc_New pkg) ∧
    PackageInfo.Path info = dir ∧
    map TypeInfo.Name (PackageInfo.Types info) = map doc.TName (doc.Types (doc_New pkg)) ∧
    map FunctionInfo.Name (PackageInfo.Functions info) =
      map doc.FName (doc.Funcs (doc_New pkg)) ++
      flat_map (λ typ, map doc.FName (doc.Methods typ)) (doc.Types (doc_New pkg)) ∧
    map ConstantInfo.Name (PackageInfo.Constants info) =
      flat_map (λ c, declaredNames (doc.VDecl c)) (doc.Consts (doc_New pkg)) ∧
    map VariableInfo.Name (PackageInfo.Variables info) =
      flat_map (λ v, declaredNames (doc.VDecl v)) (doc.Vars (doc_New pkg)).
Proof.
  intros Hr (pkgs & pkg & Hparse & Hsel & ->)%AnalysePackage_Some.
  apply selectPackage_Some in Hsel as (name & Hin & Hname).
  rewrite (analyser.rangePkgs_perm r Hr) in Hin.
  apply elem_of_map_to_list in Hin.
  exists name, pkg. rewrite Hparse. simpl.
  split; [done|]. split; [done|]. split; [done|]. split; [done|].
  split; [|split; [|split]].
  - rewrite map_map. apply map_ext. intros typ.
    apply (analyseTypeDecl_Name_Methods IsExported typ).
  - rewrite map_app, map_map. f_equal.
    + apply map_ext. intros fn. apply analyseFunctionDecl_Name.
    + induction (doc.Types (doc_New pkg)) as [|typ typs IH]; cbn [flat_map]; [done|].
      rewrite map_app, IH. f_equal.
      unfold methodsOfType. rewrite map_map. apply map_ext. intros method.
      simpl. apply analyseFunctionDecl_Name.
  - induction (doc.Consts (doc_New pkg)) as [|c cs IH]; cbn [flat_map]; [done|].
    rewrite map_app, IH. f_equal. apply analyseConstantDecl_names.
  - induction (doc.Vars (doc_New pkg)) as [|v vs IH]; cbn [flat_map]; [done|].
    rewrite map_app, IH. f_equal. apply analyseVariableDecl_names.
Qed.

Lemma model_follows_doc_order_witness :
  ∃ name pkg,
    (inputs.ParseDir "demo").1 !! name = Some pkg ∧
    strings.HasSuffix name "_test" = false ∧
    PackageInfo.Name
      (modelOf inputs.IsExported inputs.doc_New inputs.backwards "demo" inputs.demo_pkg)
      = doc.Name (inputs.doc_New pkg).
Proof.
  destruct (model_follows_doc_order inputs.IsExported inputs.doc_New inputs.ParseDir
              inputs.backwards "demo"
              (modelOf inputs.IsExported inputs.doc_New inputs.backwards "demo" inputs.demo_pkg)
              backwards_ok)
    as (name & pkg & H1 & H2 & H3 & _).
  - vm_compute. reflexivity.
  - by exists name, pkg.
Defined.

(** ** Imports *)

Lemma extractImports_range (r : analyser.MapRange) (pkg : ast.Package) :
  analyser.extractImports r pkg = analyser.rangeImportSet r (analyser.importSet r pkg).
Proof.
  unfold analyser.extractImports.
  rewrite (for_range_map id) by done. simpl. by rewrite map_id.
Qed.

(** X8. The imports of a package are listed without duplicates, and a path
    is listed exactly when some file of the package imports it: the listed
    path is the [Path.Value] of the import with the double quotes trimmed
    from both ends. *)
Theorem extractImports_exact (r : analyser.MapRange) (pkg : ast.Package) :
  analyser.MapRangeOk r →
  NoDup (analyser.extractImports r pkg) ∧
  ∀ path, path ∈ analyser.extractImports r pkg ↔
    ∃ name file imp,
      ast.Files pkg !! name = Some file ∧ imp ∈ ast.Imports file ∧
      path = strings.TrimByte imp strings.quote.
Proof.
  intros Hr. rewrite extractImports_range. split.
  - rewrite (analyser.rangeImportSet_perm r Hr). apply NoDup_elements.
  - intros path.
    rewrite (analyser.rangeImportSet_perm r Hr), elem_of_elements.
    by apply importSet_elem.
Qed.

Lemma extractImports_exact_witness :
  NoDup (analyser.extractImports inputs.backwards inputs.demo_pkg) ∧
  "fmt" ∈ analyser.extractImports inputs.backwards inputs.demo_pkg.
Proof.
  destruct (extractImports_exact inputs.backwards inputs.demo_pkg backwards_ok) as [Hnd Hin].
  split; [done|]. apply Hin.
  exists "demo.go", (ast.mkFile [strings.str strings.quote +:+ "fmt" +:+ strings.str strings.quote]),
    (strings.str strings.quote +:+ "fmt" +:+ strings.str strings.quote).
  split; [by apply lookup_singleton_eq|]. split; [apply list_elem_of_here|reflexivity].
Defined.

(** ** Outcome of a run *)

(** X9. [AnalysePackage] returns either a model and a nil error or a nil
    model and an error, never both and never neither.  It returns a model
    exactly when the parse reported no error and yielded a package whose
    name does not end in [_test]; a parse error wins over everything that
    was parsed. *)
Theorem AnalysePackage_outcome
    (IsExported : string → bool) (doc_New : ast.Package → doc.Package)
    (ParseDir : string → gmap string ast.Package * option error)
    (r : analyser.MapRange) (dir : string) :
  analyser.MapRangeOk r →
  let res := analyser.AnalysePackage IsExported doc_New ParseDir r dir in
  (is_Some res.1 ↔ res.2 = None) ∧
  (is_Some res.1 ↔
     (ParseDir dir).2 = None ∧
     ∃ name pkg, (ParseDir dir).1 !! name = Some pkg ∧
                 strings.HasSuffix name "_test" = false) ∧
  (∀ err, (ParseDir dir).2 = Some err → res = (None, Some (ErrParsingPackage err))).
Proof.
  intros Hr res. subst res.
  destruct (ParseDir dir) as [pkgs err] eqn:Hparse.
  destruct err as [err|].
  { unfold analyser.AnalysePackage. rewrite Hparse. simpl.
    split; [|split].
    - split; [by intros [? ?]|done].
    - split; [by intros [? ?]|by intros [? _]].
    - by intros ? [= ->]. }
  destruct (analyser.selectPackage (analyser.rangePkgs r pkgs)) as [pkg|] eqn:Hsel.
  - rewrite (AnalysePackage_selected _ _ _ r dir pkgs pkg) by done. simpl.
    split; [|split]; [done| |done].
    split; [|by eexists]. intros _. split; [done|].
    apply selectPackage_Some in Hsel as (name & Hin & Hname).
    rewrite (analyser.rangePkgs_perm r Hr) in Hin.
    apply elem_of_map_to_list in Hin. by exists name, pkg.
  - unfold analyser.AnalysePackage. rewrite Hparse, Hsel. simpl.
    split; [|split]; [| |done].
    + split; [by intros [? ?]|done].
    + split; [by intros [? ?]|].
      intros (_ & name & pkg & Hin & Hname).
      apply elem_of_map_to_list in Hin.
      rewrite <- (analyser.rangePkgs_perm r Hr) in Hin.
      destruct (selectPackage_is_Some _ _ _ Hin Hname) as [p Hp]. congruence.
Qed.

Lemma AnalysePackage_outcome_witness :
  is_Some (analyser.AnalysePackage inputs.IsExported inputs.doc_New inputs.ParseDir
             inputs.backwards "mixed").1.
Proof.
  apply (AnalysePackage_outcome inputs.IsExported inputs.doc_New inputs.ParseDir
           inputs.backwards "mixed" backwards_ok).
  split; [reflexivity|].
  exists "main", inputs.main_pkg. split; [|reflexivity].
  simpl. rewrite lookup_insert_ne by done. by apply lookup_singleton_eq.
Defined.

(** ** Type declarations *)

Lemma getTypeKind_closed (expr : ast.Expr) :
  analyser.getTypeKind expr ∈
    ["struct"; "interface"; "array"; "map"; "channel"; "function"; "alias"].
Proof. destruct expr; simpl; repeat first [apply list_elem_of_here|apply list_elem_of_further]. Qed.

(** X10. In the [TypeInfo] of a type, every field comes from a struct type
    among the type specs of its declaration, expanded by [extractFields],
    and so has an empty description; the kind is one of [struct],
    [interface], [array], [map], [channel], [function] and [alias], or the
    empty string when the declaration is missing or has no type spec. *)
Theorem analyseTypeDecl_fields_and_kind (IsExported : string → bool) (typ : doc.Type_) :
  (∀ f, f ∈ TypeInfo.Fields (analyser.analyseTypeDecl IsExported typ) →
     FieldInfo.Description f = EmptyString ∧
     ∃ Decl ts Fields,
       doc.TDecl typ = Some Decl ∧ ast.SpecType ts ∈ ast.Specs Decl ∧
       ast.TType ts = ast.StructType Fields ∧ f ∈ analyser.extractFields Fields) ∧
  (TypeInfo.Kind (analyser.analyseTypeDecl IsExported typ) ∈
     ["struct"; "interface"; "array"; "map"; "channel"; "function"; "alias"] ∨
   TypeInfo.Kind (analyser.analyseTypeDecl IsExported typ) = EmptyString ∧
   ∀ Decl ts, doc.TDecl typ = Some Decl → ast.SpecType ts ∉ ast.Specs Decl).
Proof.
  unfold analyser.analyseTypeDecl.
  set (info0 := TypeInfo.mk _ _ _ _ _ _).
  set (info1 := match doc.TDecl typ with Some _ => _ | None => _ end).
  set (P := λ (specs : list ast.Spec) (info : TypeInfo.t),
    (∀ f, f ∈ TypeInfo.Fields info →
       ∃ ts Fields, ast.SpecType ts ∈ specs ∧
         ast.TType ts = ast.StructType Fields ∧ f ∈ analyser.extractFields Fields) ∧
    (TypeInfo.Kind info ∈
       ["struct"; "interface"; "array"; "map"; "channel"; "function"; "alias"] ∨
     TypeInfo.Kind info = EmptyString ∧ ∀ ts, ast.SpecType ts ∉ specs)).
  assert (∀ specs done_ info, P done_ info →
            P (done_ ++ specs)
              (for_range specs info (λ info spec,
                 match spec with
                 | ast.SpecType ts =>
                     TypeInfo.mk (TypeInfo.Name info) (analyser.getTypeKind (ast.TType ts))
                       (TypeInfo.Description info)
                       (match ast.TType ts with
                        | ast.StructType Fields => analyser.extractFields Fields
                        | _ => TypeInfo.Fields info
                        end)
                       (TypeInfo.Methods info) (TypeInfo.IsExported info)
                 | _ => info
                 end))) as Hloop.
  { unfold for_range.
    induction specs as [|spec specs IH]; intros done_ info HP; simpl.
    - by rewrite app_nil_r.
    - rewrite (cons_middle spec done_ specs), app_assoc. apply IH.
      destruct HP as [HF HK]. destruct spec as [vs|ts|path].
      + split.
        * intros f (ts & Fields & Hin & ? & ?)%HF. exists ts, Fields.
          split; [by apply elem_of_app; left|done].
        * destruct HK as [?|[? Hno]]; [by left|right]. split; [done|].
          intros ts [?%Hno|[=]%list_elem_of_singleton]%elem_of_app. done.
      + split; [|left; apply getTypeKind_closed]. simpl.
        intros f Hf.
        destruct (ast.TType ts) as [| | | | | | |Fields| | | |] eqn:Hty;
          try (apply HF in Hf as (ts' & Fields' & Hin & ? & ?); exists ts', Fields';
               split; [by apply elem_of_app; left|done]).
        exists ts, Fields.
        split; [by apply elem_of_app; right; apply list_elem_of_singleton|done].
      + split.
        * intros f (ts & Fields & Hin & ? & ?)%HF. exists ts, Fields.
          split; [by apply elem_of_app; left|done].
        * destruct HK as [?|[? Hno]]; [by left|right]. split; [done|].
          intros ts [?%Hno|[=]%list_elem_of_singleton]%elem_of_app. done. }
  assert (P [] info0) as H0.
  { split; [by intros f ?%elem_of_nil|]. right. split; [done|]. intros ts ?%elem_of_nil. done. }
  assert (TypeInfo.Fields (for_range (doc.Methods typ) info1
            (λ info method, TypeInfo.mk (TypeInfo.Name info) (TypeInfo.Kind info)
               (TypeInfo.Description info) (TypeInfo.Fields info)
               (TypeInfo.Methods info ++ [doc.FName method]) (TypeInfo.IsExported info)))
          = TypeInfo.Fields info1 ∧
          TypeInfo.Kind (for_range (doc.Methods typ) info1
            (λ info method, TypeInfo.mk (TypeInfo.Name info) (TypeInfo.Kind info)
               (TypeInfo.Description info) (TypeInfo.Fields info)
               (TypeInfo.Methods info ++ [doc.FName method]) (TypeInfo.IsExported info)))
          = TypeInfo.Kind info1) as [-> ->].
  { apply (for_range_invariant
      (λ info, TypeInfo.Fields info = TypeInfo.Fields info1 ∧
               TypeInfo.Kind info = TypeInfo.Kind info1)); [done|].
    by intros info method [? ?]. }
  subst info1. destruct (doc.TDecl typ) as [Decl|].
  - destruct (Hloop (ast.Specs Decl) [] info0 H0) as [HF HK]. simpl in HF, HK. split.
    + intros f Hf. split.
      * destruct (HF f Hf) as (ts & Fields & _ & _ & Hin).
        rewrite extractFields_flat_map in Hin.
        apply list_elem_of_In, in_flat_map in Hin as (field & _ & Hin).
        unfold fieldsOfField in Hin.
        destruct (ast.Names field); [by destruct Hin as [<-|[]]|].
        by apply in_map_iff in Hin as (name & <- & _).
      * destruct (HF f Hf) as (ts & Fields & ? & ? & ?). by exists Decl, ts, Fields.
    + destruct HK as [?|[? Hno]]; [by left|right]. split; [done|].
      intros Decl' ts [= <-]. apply Hno.
  - split; [by intros f ?%elem_of_nil|]. right. by split.
Qed.

Lemma analyseTypeDecl_fields_and_kind_witness :
  FieldInfo.Description (FieldInfo.mk "m" "map[string]int" EmptyString EmptyString)
    = EmptyString ∧
  ∃ Decl ts Fields,
    doc.TDecl inputs.store_type = Some Decl ∧ ast.SpecType ts ∈ ast.Specs Decl ∧
    ast.TType ts = ast.StructType Fields ∧
    FieldInfo.mk "m" "map[string]int" EmptyString EmptyString ∈ analyser.extractFields Fields.
Proof.
  apply (proj1 (analyseTypeDecl_fields_and_kind inputs.IsExported inputs.store_type)
               (FieldInfo.mk "m" "map[string]int" EmptyString EmptyString)).
  apply list_elem_of_here.
Defined.

(** * Further properties of the example miner *)

Lemma for_range_invariant_Forall {A S : Type} (P : A → Prop) (I : S → Prop)
    (body : S → A → S) (l : list A) (init : S) :
  Forall P l → I init → (∀ s x, P x → I s → I (body s x)) →
  I (for_range l init body).
Proof.
  intros Hl Hinit Hstep. unfold for_range. revert init Hinit.
  induction Hl as [|x l Hx _ IH]; intros init Hinit; simpl; [done|].
  apply IH. by apply Hstep.
Qed.

(** Replaces the list of a [Forall] goal by its value. *)
Ltac eval_lines :=
  match goal with
  | |- Forall ?P ?l =>
      let l' := eval vm_compute in l in
      replace l with l' by (vm_compute; reflexivity)
  end.

(** X11. A doc text none of whose lines starts, once trimmed, with
    [Example:] or [Usage:] or holds a Go fence yields no example, whatever
    else it holds. *)
Theorem extractExamples_needs_marker (doc : string) :
  Forall (λ line, opensExample line = false)
         (strings.Split doc (strings.str strings.nl)) →
  analyser.extractExamples doc = [].
Proof.
  intros Hlines. unfold analyser.extractExamples.
  apply (for_range_invariant_Forall _
           (λ st, analyser.inExample st = false ∧ analyser.examples st = [])
           _ _ _ Hlines); [done|].
  intros st line Hline [Hin Hex].
  unfold opensExample in Hline. unfold analyser.scanLine.
  by rewrite Hline, Hin.
Qed.

Lemma extractExamples_needs_marker_witness :
  analyser.extractExamples
    ("Get looks k up." +:+ strings.str strings.nl +:+
     "    x := s.Get(k)" +:+ strings.str strings.nl +:+ strings.str strings.nl +:+ "Done.") = [].
Proof.
  apply extractExamples_needs_marker.
  eval_lines.
  repeat (apply List.Forall_cons; [vm_compute; reflexivity|]). apply List.Forall_nil.
Defined.

Lemma for_range_snoc {A S : Type} (body : S → A → S) (l : list A) (x : A) (init : S) :
  for_range (l ++ [x]) init body = body (for_range l init body) x.
Proof. unfold for_range. by rewrite fold_left_app. Qed.

Lemma split_from_final_newline (s cur : string) :
  strings.split_from (strings.str strings.nl) 0 cur (s +:+ strings.str strings.nl) =
  strings.split_from (strings.str strings.nl) 0 cur s ++ [EmptyString].
Proof.
  revert cur. induction s as [|a s IH]; intros cur; [done|].
  change (String a s +:+ strings.str strings.nl)
    with (String a (s +:+ strings.str strings.nl)).
  cbn [strings.split_from].
  assert (∀ t, strings.HasPrefix (String a t) (strings.str strings.nl)
               = Ascii.eqb a strings.nl) as Hnl.
  { intros t. simpl. apply andb_true_r. }
  rewrite !Hnl. destruct (Ascii.eqb a strings.nl); simpl; by rewrite IH.
Qed.

(** What [scanLine] does with an empty line. *)
Lemma scanLine_empty (st : analyser.scanner) :
  analyser.scanLine st EmptyString =
  if analyser.inExample st && Nat.ltb 0 (String.length (analyser.currentExample st))
  then analyser.mkScanner false EmptyString
         (analyser.examples st ++ [analyser.currentExample st])
  else st.
Proof.
  unfold analyser.scanLine.
  change (strings.TrimSpace EmptyString) with EmptyString.
  change (strings.HasPrefix EmptyString "Example:" ||
          strings.HasPrefix EmptyString "Usage:" ||
          strings.Contains EmptyString "```go") with false.
  change (strings.Contains EmptyString "```") with false.
  change (strings.eqb EmptyString EmptyString) with true.
  destruct (analyser.inExample st); [|done]. simpl.
  destruct (Nat.ltb 0 _); [done|]. by destruct st.
Qed.

(** Every example in the state after some lines was there before them or
    was the buffer when one of them closed an example. *)
Lemma examples_emitted_at_close (lines : list string) (init : analyser.scanner) (e : string) :
  e ∈ analyser.examples (for_range lines init analyser.scanLine) →
  e ∈ analyser.examples init ∨
  ∃ pre line post,
    lines = pre ++ line :: post ∧
    let st := for_range pre init analyser.scanLine in
    analyser.inExample st = true ∧
    opensExample line = false ∧
    closesExample st line = true ∧
    e = analyser.currentExample st.
Proof.
  induction lines as [|line lines IH] using rev_ind; [by left|].
  rewrite for_range_snoc.
  set (st := for_range lines init analyser.scanLine) in *.
  assert (e ∈ analyser.examples st →
          e ∈ analyser.examples init ∨
          ∃ pre line0 post,
            lines ++ [line] = pre ++ line0 :: post ∧
            let st := for_range pre init analyser.scanLine in
            analyser.inExample st = true ∧
            opensExample line0 = false ∧
            closesExample st line0 = true ∧
            e = analyser.currentExample st) as Hold.
  { intros [Hinit|(pre & line0 & post & -> & H)]%IH; [by left|right].
    exists pre, line0, (post ++ [line]). split; [|done].
    by rewrite <- app_assoc. }
  unfold analyser.scanLine.
  fold (opensExample line). fold (closesExample st line).
  destruct (opensExample line) eqn:Hopen; [done|].
  destruct (analyser.inExample st) eqn:Hin; [|done].
  destruct (closesExample st line) eqn:Hclose.
  - destruct (Nat.ltb 0 _); [|done]. simpl.
    intros [He|He%list_elem_of_singleton]%elem_of_app; [by apply Hold|].
    right. exists lines, line, []. split; [done|]. by fold st.
  - by destruct (_ || _).
Qed.

(** X12. An example is emitted only at a line that closes it: every
    example that [extractExamples] returns was the buffer, inside an
    example, when a line that holds a fence or a blank line met with a
    non-empty buffer was scanned.  The end of the text closes nothing: the
    examples of a text followed by a newline are the examples of the text
    followed by the buffer that its last line left open, if there is one,
    which the empty line after the final newline closes. *)
Theorem extractExamples_needs_close (doc : string) :
  (∀ e, e ∈ analyser.extractExamples doc →
     ∃ pre line post,
       strings.Split doc (strings.str strings.nl) = pre ++ line :: post ∧
       let st := for_range pre (analyser.mkScanner false EmptyString [])
                   analyser.scanLine in
       analyser.inExample st = true ∧
       opensExample line = false ∧
       closesExample st line = true ∧
       e = analyser.currentExample st) ∧
  analyser.extractExamples (doc +:+ strings.str strings.nl) =
  analyser.extractExamples doc ++ pending (scanned doc).
Proof.
  split.
  - intros e [He|H]%examples_emitted_at_close; [|done].
    by apply elem_of_nil in He.
  - unfold analyser.extractExamples, strings.Split, pending, scanned, strings.Split.
    rewrite split_from_final_newline, for_range_snoc, scanLine_empty.
    destruct (_ && _); [done|]. by rewrite app_nil_r.
Qed.

Lemma extractExamples_needs_close_witness :
  analyser.extractExamples ("Usage:" +:+ strings.str strings.nl +:+ "    x := s.Get(k)") = [] ∧
  analyser.extractExamples
    (("Usage:" +:+ strings.str strings.nl +:+ "    x := s.Get(k)") +:+ strings.str strings.nl)
  = [] ++ ["x := s.Get(k)" +:+ strings.str strings.nl] ∧
  ∃ pre line post,
    strings.Split
      (("Usage:" +:+ strings.str strings.nl +:+ "    x := s.Get(k)") +:+
       strings.str strings.nl) (strings.str strings.nl) = pre ++ line :: post ∧
    let st := for_range pre (analyser.mkScanner false EmptyString [])
                analyser.scanLine in
    analyser.inExample st = true ∧
    opensExample line = false ∧
    closesExample st line = true ∧
    "x := s.Get(k)" +:+ strings.str strings.nl = analyser.currentExample st.
Proof.
  split; [vm_compute; reflexivity|]. split.
  - exact (proj2 (extractExamples_needs_close
                    ("Usage:" +:+ strings.str strings.nl +:+ "    x := s.Get(k)"))).
  - apply (proj1 (extractExamples_needs_close
                    (("Usage:" +:+ strings.str strings.nl +:+ "    x := s.Get(k)") +:+
                     strings.str strings.nl))).
    assert (analyser.extractExamples
              (("Usage:" +:+ strings.str strings.nl +:+ "    x := s.Get(k)") +:+
               strings.str strings.nl)
            = ["x := s.Get(k)" +:+ strings.str strings.nl]) as ->
      by (vm_compute; reflexivity).
    apply list_elem_of_here.
Defined.

Lemma rev_app_snoc (s : string) (c : ascii) (acc : string) :
  String.rev_app (s +:+ strings.str c) acc = String c (String.rev_app s acc).
Proof.
  revert acc. induction s as [|a s IH]; intros acc; [done|].
  change (String.rev_app (s +:+ strings.str c) (String a acc) =
          String c (String.rev_app s (String a acc))).
  apply IH.
Qed.

Lemma rev_snoc (s : string) (c : ascii) :
  String.rev (s +:+ strings.str c) = String c (String.rev s).
Proof. apply rev_app_snoc. Qed.

Lemma HasSuffix_snoc (s : string) (c : ascii) :
  strings.HasSuffix (s +:+ strings.str c) (strings.str c) = true.
Proof.
  unfold strings.HasSuffix. rewrite rev_snoc. simpl.
  by rewrite Ascii.eqb_refl.
Qed.

(** X13. Every example that [extractExamples] returns is non-empty and ends
    with a newline: it is made of whole lines, each closed by one. *)
Theorem examples_end_with_newline (doc e : string) :
  e ∈ analyser.extractExamples doc →
  e ≠ EmptyString ∧ strings.HasSuffix e (strings.str strings.nl) = true.
Proof.
  unfold analyser.extractExamples.
  set (good := λ e, e ≠ EmptyString ∧ strings.HasSuffix e (strings.str strings.nl) = true).
  assert (let st := for_range (strings.Split doc (strings.str strings.nl))
                      (analyser.mkScanner false EmptyString []) analyser.scanLine in
          (analyser.currentExample st = EmptyString ∨ good (analyser.currentExample st)) ∧
          Forall good (analyser.examples st)) as [_ Hall].
  { apply for_range_invariant; [by split; [left|]|].
    intros st line [Hcur Hall]. unfold analyser.scanLine.
    destruct (_ || _ || _); [by split; [left|]|].
    destruct (analyser.inExample st); [|done].
    destruct (_ || _).
    - destruct (Nat.ltb 0 _) eqn:Hlen; simpl; [|done].
      split; [by left|]. apply Forall_app. split; [done|].
      apply Forall_singleton. destruct Hcur as [Hcur|Hcur]; [|done].
      rewrite Hcur in Hlen. discriminate Hlen.
    - destruct (_ || _); [|done]. simpl. split; [|done]. right.
      rewrite <- append_assoc. split; [|apply HasSuffix_snoc].
      intros [_ H]%append_empty. discriminate H. }
  intros He. by apply (proj1 (Forall_forall _ _) Hall).
Qed.

Lemma examples_end_with_newline_witness :
  ("x.Do()" +:+ strings.str strings.nl) ≠ EmptyString ∧
  strings.HasSuffix ("x.Do()" +:+ strings.str strings.nl) (strings.str strings.nl) = true.
Proof.
  apply (examples_end_with_newline
           ("Usage:" +:+ strings.str strings.nl +:+ "    x.Do()" +:+ strings.str strings.nl)).
  assert (analyser.extractExamples
            ("Usage:" +:+ strings.str strings.nl +:+ "    x.Do()" +:+ strings.str strings.nl)
          = ["x.Do()" +:+ strings.str strings.nl]) as -> by (vm_compute; reflexivity).
  apply list_elem_of_here.
Defined.

(** * Further properties of the enhancement stage *)

Section EnhancerSteps.

Context {World : Type}.
Variable GenerateContent : World → string → (string + error) * World.
Variable packageDescriptionPrompt : PackageInfo.t → string + error.
Variable functionDescriptionPrompt : FunctionInfo.t → string + error.
Variable typeDescriptionPrompt : TypeInfo.t → string + error.
Variable packageExamplePrompt : PackageInfo.t → string + error.
Variable functionExamplePrompt : FunctionInfo.t → PackageInfo.t → string + error.
Variable ExecuteTemplate : PackageInfo.t → string + error.

Lemma asked_answered (res : string * option error) :
  asked GenerateContent res → generator.accepted res = true → answered res.
Proof.
  intros (prompt & w & ->). unfold generator.ask, generator.accepted.
  destruct prompt as [prompt|err]; [|done].
  destruct (GenerateContent w prompt) as [[content|err] w']; [|done]. simpl.
  intros Hne. split; [done|]. split; [|by exists content].
  simpl. intros Heq. rewrite Heq in Hne. done.
Qed.

(** A relation between models that is reflexive, transitive and holds
    across each assignment of the stage holds across the stage. *)
Variable R : PackageInfo.t → PackageInfo.t → Prop.
Hypothesis R_refl : ∀ pkg, R pkg pkg.
Hypothesis R_trans : ∀ a b c, R a b → R b c → R a c.

Hypothesis step_packageDescription : ∀ pkg res,
  asked GenerateContent res → generator.accepted res = true →
  R pkg (generator.setPackageDescription pkg res.1).
Hypothesis step_functionDescription : ∀ pkg i fn res,
  PackageInfo.Functions pkg !! i = Some fn →
  asked GenerateContent res → generator.accepted res = true →
  R pkg (generator.setPackageFunctions pkg
           (<[i := generator.setFunctionDescription fn res.1]> (PackageInfo.Functions pkg))).
Hypothesis step_typeDescription : ∀ pkg i typ res,
  PackageInfo.Types pkg !! i = Some typ →
  asked GenerateContent res → generator.accepted res = true →
  R pkg (generator.setPackageTypes pkg
           (<[i := generator.setTypeDescription typ res.1]> (PackageInfo.Types pkg))).

Lemma enhanceDescriptions_steps (pkg : PackageInfo.t) (w : World) :
  R pkg (generator.enhanceDescriptions GenerateContent packageDescriptionPrompt
           functionDescriptionPrompt typeDescriptionPrompt pkg w).1.1 ∧
  (generator.enhanceDescriptions GenerateContent packageDescriptionPrompt
     functionDescriptionPrompt typeDescriptionPrompt pkg w).1.2 = None.
Proof.
  unfold generator.enhanceDescriptions.
  set (st1 := if Nat.ltb _ 50 then _ else _).
  assert (R pkg st1.1) as H1.
  { subst st1. destruct (Nat.ltb _ 50); [|apply R_refl].
    destruct (generator.enhancePackageDescription _ _ _ _) as [res w1] eqn:Hres.
    destruct (generator.accepted res) eqn:Hacc; simpl; [|apply R_refl].
    apply step_packageDescription; [|done].
    exists (packageDescriptionPrompt pkg), w.
    unfold generator.enhancePackageDescription in Hres. by rewrite Hres. }
  destruct st1 as [pkg1 w1]. simpl in H1.
  set (st2 := for_range _ (pkg1, w1) _).
  assert (R pkg st2.1) as H2.
  { subst st2. apply for_range_invariant; [done|].
    intros [p wp] i Hp. simpl in *.
    destruct (PackageInfo.Functions p !! i) as [fn|] eqn:Hi; [|done].
    destruct (Nat.ltb _ 20); [|done].
    destruct (generator.enhanceFunctionDescription _ _ _ _) as [res w'] eqn:Hres.
    destruct (generator.accepted res) eqn:Hacc; simpl; [|done].
    eapply R_trans; [done|]. apply step_functionDescription; [done| |done].
    exists (functionDescriptionPrompt fn), wp.
    unfold generator.enhanceFunctionDescription in Hres. by rewrite Hres. }
  destruct st2 as [pkg2 w2]. simpl in H2.
  set (st3 := for_range _ (pkg2, w2) _).
  assert (R pkg st3.1) as H3.
  { subst st3. apply for_range_invariant; [done|].
    intros [p wp] i Hp. simpl in *.
    destruct (PackageInfo.Types p !! i) as [typ|] eqn:Hi; [|done].
    destruct (Nat.ltb _ 20); [|done].
    destruct (generator.enhanceTypeDescription _ _ _ _) as [res w'] eqn:Hres.
    destruct (generator.accepted res) eqn:Hacc; simpl; [|done].
    eapply R_trans; [done|]. apply step_typeDescription; [done| |done].
    exists (typeDescriptionPrompt typ), wp.
    unfold generator.enhanceTypeDescription in Hres. by rewrite Hres. }
  by destruct st3 as [pkg3 w3].
Qed.

Hypothesis step_packageExample : ∀ pkg res,
  PackageInfo.Examples pkg = [] →
  asked GenerateContent res → generator.accepted res = true →
  R pkg (generator.setPackageExamples pkg
           (PackageInfo.Examples pkg ++
              [ExampleInfo.mk "Basic Usage" res.1 "Basic usage example"])).
Hypothesis step_functionExample : ∀ pkg i fn res,
  PackageInfo.Functions pkg !! i = Some fn →
  FunctionInfo.Examples fn = [] → FunctionInfo.IsExported fn = true →
  asked GenerateContent res → generator.accepted res = true →
  R pkg (generator.setPackageFunctions pkg
           (<[i := generator.setFunctionExamples fn (FunctionInfo.Examples fn ++ [res.1])]>
              (PackageInfo.Functions pkg))).

Lemma generateExamples_steps (pkg : PackageInfo.t) (w : World) :
  R pkg (generator.generateExamples GenerateContent packageExamplePrompt
           functionExamplePrompt pkg w).1.1 ∧
  (generator.generateExamples GenerateContent packageExamplePrompt
     functionExamplePrompt pkg w).1.2 = None.
Proof.
  unfold generator.generateExamples.
  set (st1 := if decide _ then _ else _).
  assert (R pkg st1.1) as H1.
  { subst st1. destruct (decide _) as [Hlen%nil_length_inv|]; [|apply R_refl].
    destruct (generator.generatePackageExample _ _ _ _) as [res w1] eqn:Hres.
    destruct (generator.accepted res) eqn:Hacc; simpl; [|apply R_refl].
    apply step_packageExample; [done| |done].
    exists (packageExamplePrompt pkg), w.
    unfold generator.generatePackageExample in Hres. by rewrite Hres. }
  destruct st1 as [pkg1 w1]. simpl in H1.
  set (st2 := for_range _ (pkg1, w1) _).
  assert (R pkg st2.1) as H2.
  { subst st2. apply for_range_invariant; [done|].
    intros [p wp] i Hp. simpl in *.
    destruct (PackageInfo.Functions p !! i) as [fn|] eqn:Hi; [|done].
    destruct (bool_decide _) eqn:Hlen; simpl; [|done].
    destruct (FunctionInfo.IsExported fn) eqn:Hexp; [|done].
    destruct (generator.generateFunctionExample _ _ _ _ _) as [res w'] eqn:Hres.
    destruct (generator.accepted res) eqn:Hacc; simpl; [|done].
    eapply R_trans; [done|].
    apply bool_decide_eq_true, nil_length_inv in Hlen.
    apply step_functionExample; [done..| |done].
    exists (functionExamplePrompt fn p), wp.
    unfold generator.generateFunctionExample in Hres. by rewrite Hres. }
  by destruct st2 as [pkg2 w2].
Qed.

Lemma GeneratePackageDoc_steps (pkg : PackageInfo.t) (config : generator.DocConfig)
    (w : World) :
  R pkg (generator.GeneratePackageDoc GenerateContent packageDescriptionPrompt
           functionDescriptionPrompt typeDescriptionPrompt packageExamplePrompt
           functionExamplePrompt ExecuteTemplate pkg config w).1.2.
Proof.
  unfold generator.GeneratePackageDoc.
  destruct (enhanceDescriptions_steps pkg w) as [H1 He1].
  destruct (generator.enhanceDescriptions _ _ _ _ _ _) as [[pkg1 err1] w1].
  simpl in H1, He1. subst err1.
  destruct (generator.GenerateExamples config).
  - destruct (generateExamples_steps pkg1 w1) as [H2 He2].
    destruct (generator.generateExamples _ _ _ _ _) as [[pkg2 err2] w2].
    simpl in H2, He2. subst err2.
    destruct (ExecuteTemplate pkg2); simpl; by eapply R_trans.
  - by destruct (ExecuteTemplate pkg1).
Qed.

End EnhancerSteps.

(** ** What the stage makes of a model *)

Lemma descriptionStep_trans (a b c : string) :
  descriptionStep a b → descriptionStep b c → descriptionStep a c.
Proof. intros H1 [->|H2]; [done|by right]. Qed.

Lemma functionEnhanced_refl (fn : FunctionInfo.t) : functionEnhanced fn fn.
Proof. repeat split; by left. Qed.

Lemma functionEnhanced_trans (a b c : FunctionInfo.t) :
  functionEnhanced a b → functionEnhanced b c → functionEnhanced a c.
Proof.
  intros ((N1 & S1 & P1 & R1 & X1 & M1 & V1) & D1 & E1)
         ((N2 & S2 & P2 & R2 & X2 & M2 & V2) & D2 & E2).
  split; [|split].
  - repeat split; congruence.
  - by eapply descriptionStep_trans.
  - destruct E2 as [E2|(Hnil & Hexp & e & He & E2)].
    + destruct E1 as [E1|(Hnil & Hexp & e & He & E1)].
      * left. congruence.
      * right. split; [done|]. split; [done|]. exists e. split; [done|congruence].
    + destruct E1 as [E1|(Hnil' & _ & e' & _ & E1)]; [|congruence].
      right. split; [congruence|]. split; [congruence|]. by exists e.
Qed.

Lemma typeEnhanced_refl (typ : TypeInfo.t) : typeEnhanced typ typ.
Proof. repeat split; by left. Qed.

Lemma typeEnhanced_trans (a b c : TypeInfo.t) :
  typeEnhanced a b → typeEnhanced b c → typeEnhanced a c.
Proof.
  intros ((N1 & K1 & F1 & M1 & X1) & D1) ((N2 & K2 & F2 & M2 & X2) & D2).
  split; [repeat split; congruence|by eapply descriptionStep_trans].
Qed.

Lemma packageEnhanced_refl (pkg : PackageInfo.t) : packageEnhanced pkg pkg.
Proof.
  repeat split; try done; try (by left).
  - apply Forall2_refl_frame, functionEnhanced_refl.
  - apply Forall2_refl_frame, typeEnhanced_refl.
Qed.

Lemma packageEnhanced_trans (a b c : PackageInfo.t) :
  packageEnhanced a b → packageEnhanced b c → packageEnhanced a c.
Proof.
  intros (N1 & P1 & C1 & V1 & I1 & D1 & E1 & F1 & T1)
         (N2 & P2 & C2 & V2 & I2 & D2 & E2 & F2 & T2).
  split; [congruence|]. split; [congruence|]. split; [congruence|].
  split; [congruence|]. split; [congruence|].
  split; [by eapply descriptionStep_trans|]. split; [|split].
  - destruct E2 as [E2|(Hnil & code & Hcode & E2)].
    + destruct E1 as [E1|(Hnil & code & Hcode & E1)].
      * left. congruence.
      * right. split; [done|]. exists code. split; [done|congruence].
    + destruct E1 as [E1|(_ & code' & _ & E1)]; [|congruence].
      right. split; [congruence|]. by exists code.
  - eapply Forall2_trans_frame; [apply functionEnhanced_trans|done..].
  - eapply Forall2_trans_frame; [apply typeEnhanced_trans|done..].
Qed.

Section Enhanced.

Context {World : Type}.
Variable GenerateContent : World → string → (string + error) * World.
Variable packageDescriptionPrompt : PackageInfo.t → string + error.
Variable functionDescriptionPrompt : FunctionInfo.t → string + error.
Variable typeDescriptionPrompt : TypeInfo.t → string + error.
Variable packageExamplePrompt : PackageInfo.t → string + error.
Variable functionExamplePrompt : FunctionInfo.t → PackageInfo.t → string + error.
Variable ExecuteTemplate : PackageInfo.t → string + error.

Lemma GeneratePackageDoc_enhanced (pkg : PackageInfo.t) (config : generator.DocConfig)
    (w : World) :
  packageEnhanced pkg
    (generator.GeneratePackageDoc GenerateContent packageDescriptionPrompt
       functionDescriptionPrompt typeDescriptionPrompt packageExamplePrompt
       functionExamplePrompt ExecuteTemplate pkg config w).1.2.
Proof.
  apply (GeneratePackageDoc_steps GenerateContent); clear pkg w.
  - apply packageEnhanced_refl.
  - apply packageEnhanced_trans.
  - intros pkg res Hask Hacc.
    destruct (asked_answered _ _ Hask Hacc) as (_ & Hne & Hc).
    repeat split; simpl; try done; try (by left); [by right| |].
    + apply Forall2_refl_frame, functionEnhanced_refl.
    + apply Forall2_refl_frame, typeEnhanced_refl.
  - intros pkg i fn res Hi Hask Hacc.
    destruct (asked_answered _ _ Hask Hacc) as (_ & Hne & Hc).
    repeat split; simpl; try done; try (by left).
    + eapply Forall2_update; [apply functionEnhanced_refl|done|].
      repeat split; simpl; try done; [by right|by left].
    + apply Forall2_refl_frame, typeEnhanced_refl.
  - intros pkg i typ res Hi Hask Hacc.
    destruct (asked_answered _ _ Hask Hacc) as (_ & Hne & Hc).
    repeat split; simpl; try done; try (by left).
    + apply Forall2_refl_frame, functionEnhanced_refl.
    + eapply Forall2_update; [apply typeEnhanced_refl|done|].
      repeat split; simpl; try done. by right.
  - intros pkg res Hnil Hask Hacc.
    destruct (asked_answered _ _ Hask Hacc) as (_ & Hne & Hc).
    repeat split; simpl; try done; try (by left).
    + right. split; [done|]. exists res.1. by rewrite Hnil.
    + apply Forall2_refl_frame, functionEnhanced_refl.
    + apply Forall2_refl_frame, typeEnhanced_refl.
  - intros pkg i fn res Hi Hnil Hexp Hask Hacc.
    destruct (asked_answered _ _ Hask Hacc) as (_ & Hne & Hc).
    repeat split; simpl; try done; try (by left).
    + eapply Forall2_update; [apply functionEnhanced_refl|done|].
      repeat split; simpl; try done; [by left|].
      right. split; [done|]. split; [done|]. exists res.1. by rewrite Hnil.
    + apply Forall2_refl_frame, typeEnhanced_refl.
Qed.

End Enhanced.

Lemma Forall2_weaken {A : Type} (P Q : A → A → Prop) (l k : list A) :
  (∀ x y, P x y → Q x y) → Forall2 P l k → Forall2 Q l k.
Proof. intros HPQ H. induction H; constructor; auto. Qed.

(** X14. The enhancement stage changes nothing but descriptions and
    examples: the model that [GeneratePackageDoc] leaves behind has the
    same name, path, constants, variables and imports, the same functions
    in the same positions with the same name, signature, parameters,
    returns, flags and receiver, and the same types in the same positions
    with the same name, kind, fields, methods and flag. *)
Theorem enhancement_keeps_structure
    {World : Type}
    (GenerateContent : World → string → (string + error) * World)
    (packageDescriptionPrompt : PackageInfo.t → string + error)
    (functionDescriptionPrompt : FunctionInfo.t → string + error)
    (typeDescriptionPrompt : TypeInfo.t → string + error)
    (packageExamplePrompt : PackageInfo.t → string + error)
    (functionExamplePrompt : FunctionInfo.t → PackageInfo.t → string + error)
    (ExecuteTemplate : PackageInfo.t → string + error)
    (pkg : PackageInfo.t) (config : generator.DocConfig) (w : World) :
  let pkg' :=
    (generator.GeneratePackageDoc GenerateContent packageDescriptionPrompt
       functionDescriptionPrompt typeDescriptionPrompt packageExamplePrompt
       functionExamplePrompt ExecuteTemplate pkg config w).1.2 in
  PackageInfo.Name pkg' = PackageInfo.Name pkg ∧
  PackageInfo.Path pkg' = PackageInfo.Path pkg ∧
  PackageInfo.Constants pkg' = PackageInfo.Constants pkg ∧
  PackageInfo.Variables pkg' = PackageInfo.Variables pkg ∧
  PackageInfo.Imports pkg' = PackageInfo.Imports pkg ∧
  Forall2 functionKept (PackageInfo.Functions pkg) (PackageInfo.Functions pkg') ∧
  Forall2 typeKept (PackageInfo.Types pkg) (PackageInfo.Types pkg').
Proof.
  intros pkg'.
  destruct (GeneratePackageDoc_enhanced GenerateContent packageDescriptionPrompt
              functionDescriptionPrompt typeDescriptionPrompt packageExamplePrompt
              functionExamplePrompt ExecuteTemplate pkg config w)
    as (N & P & C & V & I & _ & _ & F & T).
  repeat split; try done.
  - eapply Forall2_weaken; [|exact F]. by intros fn fn' [? _].
  - eapply Forall2_weaken; [|exact T]. by intros typ typ' [? _].
Qed.

(** X15. The stage adds at most one example to a list, and only to an
    empty one.  The package examples either stay as they are or go from
    none to the single entry named [Basic Usage] with a non-empty code; the
    examples of a function either stay as they are or, for an exported
    function only, go from none to a single non-empty one.  Existing
    examples are never removed or reordered, and an unexported function
    never receives one. *)
Theorem enhancement_adds_at_most_one_example
    {World : Type}
    (GenerateContent : World → string → (string + error) * World)
    (packageDescriptionPrompt : PackageInfo.t → string + error)
    (functionDescriptionPrompt : FunctionInfo.t → string + error)
    (typeDescriptionPrompt : TypeInfo.t → string + error)
    (packageExamplePrompt : PackageInfo.t → string + error)
    (functionExamplePrompt : FunctionInfo.t → PackageInfo.t → string + error)
    (ExecuteTemplate : PackageInfo.t → string + error)
    (pkg : PackageInfo.t) (config : generator.DocConfig) (w : World) :
  let pkg' :=
    (generator.GeneratePackageDoc GenerateContent packageDescriptionPrompt
       functionDescriptionPrompt typeDescriptionPrompt packageExamplePrompt
       functionExamplePrompt ExecuteTemplate pkg config w).1.2 in
  (PackageInfo.Examples pkg' = PackageInfo.Examples pkg ∨
   PackageInfo.Examples pkg = [] ∧
   ∃ code, code ≠ EmptyString ∧
     PackageInfo.Examples pkg' =
       [ExampleInfo.mk "Basic Usage" code "Basic usage example"]) ∧
  Forall2 (λ fn fn',
             FunctionInfo.Examples fn' = FunctionInfo.Examples fn ∨
             FunctionInfo.Examples fn = [] ∧ FunctionInfo.IsExported fn = true ∧
             ∃ e, e ≠ EmptyString ∧ FunctionInfo.Examples fn' = [e])
          (PackageInfo.Functions pkg) (PackageInfo.Functions pkg').
Proof.
  intros pkg'.
  destruct (GeneratePackageDoc_enhanced GenerateContent packageDescriptionPrompt
              functionDescriptionPrompt typeDescriptionPrompt packageExamplePrompt
              functionExamplePrompt ExecuteTemplate pkg config w)
    as (_ & _ & _ & _ & _ & _ & E & F & _).
  split; [exact E|].
  eapply Forall2_weaken; [|exact F]. by intros fn fn' (_ & _ & ?).
Qed.

Section DescriptionsFrom.

Context {World : Type}.
Variable GenerateContent : World → string → (string + error) * World.

Lemma asked_serviceText (res : string * option error) :
  asked GenerateContent res → generator.accepted res = true →
  serviceText GenerateContent res.1.
Proof.
  intros (prompt & w & ->). unfold generator.ask, generator.accepted.
  destruct prompt as [prompt|err]; [|done].
  destruct (GenerateContent w prompt) as [[content|err] w'] eqn:Hgen; [|done]. simpl.
  intros Hne. split; [|by exists w, prompt, content, w'].
  intros Heq. rewrite Heq in Hne. done.
Qed.

Lemma descriptionFrom_refl (d : string) : descriptionFrom GenerateContent d d.
Proof. by left. Qed.

Lemma descriptionFrom_trans (a b c : string) :
  descriptionFrom GenerateContent a b → descriptionFrom GenerateContent b c →
  descriptionFrom GenerateContent a c.
Proof. intros H1 [->|H2]; [done|by right]. Qed.

Lemma descriptionsFrom_refl (pkg : PackageInfo.t) : descriptionsFrom GenerateContent pkg pkg.
Proof.
  split; [by left|]. split; apply Forall2_refl_frame; intros; by left.
Qed.

Lemma descriptionsFrom_trans (a b c : PackageInfo.t) :
  descriptionsFrom GenerateContent a b → descriptionsFrom GenerateContent b c →
  descriptionsFrom GenerateContent a c.
Proof.
  intros (D1 & F1 & T1) (D2 & F2 & T2).
  split; [by eapply descriptionFrom_trans|]. split.
  - eapply (Forall2_trans_frame
              (λ fn fn', descriptionFrom GenerateContent
                           (FunctionInfo.Description fn) (FunctionInfo.Description fn')));
      [|done..].
    intros x y z. apply descriptionFrom_trans.
  - eapply (Forall2_trans_frame
              (λ typ typ', descriptionFrom GenerateContent
                             (TypeInfo.Description typ) (TypeInfo.Description typ')));
      [|done..].
    intros x y z. apply descriptionFrom_trans.
Qed.

End DescriptionsFrom.

(** X16. A description that the stage replaces is replaced by a non-empty
    text that is the trimmed content of an answer of the language service
    (of [GenerateContent], to some prompt in some state, without an
    error): the description of the package, of a function or of a type is
    afterwards either what it was or such a text, so a description is
    never blanked and never comes from anywhere else. *)
Theorem enhancement_never_blanks
    {World : Type}
    (GenerateContent : World → string → (string + error) * World)
    (packageDescriptionPrompt : PackageInfo.t → string + error)
    (functionDescriptionPrompt : FunctionInfo.t → string + error)
    (typeDescriptionPrompt : TypeInfo.t → string + error)
    (packageExamplePrompt : PackageInfo.t → string + error)
    (functionExamplePrompt : FunctionInfo.t → PackageInfo.t → string + error)
    (ExecuteTemplate : PackageInfo.t → string + error)
    (pkg : PackageInfo.t) (config : generator.DocConfig) (w : World) :
  let pkg' :=
    (generator.GeneratePackageDoc GenerateContent packageDescriptionPrompt
       functionDescriptionPrompt typeDescriptionPrompt packageExamplePrompt
       functionExamplePrompt ExecuteTemplate pkg config w).1.2 in
  let replaced (d d' : string) :=
    d' = d ∨
    d' ≠ EmptyString ∧
    ∃ w0 prompt content w1,
      GenerateContent w0 prompt = (inl content, w1) ∧ d' = strings.TrimSpace content in
  replaced (PackageInfo.Description pkg) (PackageInfo.Description pkg') ∧
  Forall2 (λ fn fn', replaced (FunctionInfo.Description fn) (FunctionInfo.Description fn'))
          (PackageInfo.Functions pkg) (PackageInfo.Functions pkg') ∧
  Forall2 (λ typ typ', replaced (TypeInfo.Description typ) (TypeInfo.Description typ'))
          (PackageInfo.Types pkg) (PackageInfo.Types pkg').
Proof.
  intros pkg' replaced. subst pkg'.
  change (descriptionsFrom GenerateContent pkg
            (generator.GeneratePackageDoc GenerateContent packageDescriptionPrompt
               functionDescriptionPrompt typeDescriptionPrompt packageExamplePrompt
               functionExamplePrompt ExecuteTemplate pkg config w).1.2).
  apply (GeneratePackageDoc_steps GenerateContent); clear pkg w.
  - apply descriptionsFrom_refl.
  - apply descriptionsFrom_trans.
  - intros pkg res Hask Hacc.
    split; [right; by apply asked_serviceText|].
    split; apply Forall2_refl_frame; intros; by left.
  - intros pkg i fn res Hi Hask Hacc.
    split; [by left|]. split; simpl.
    + eapply Forall2_update; [intros; by left|done|].
      right. by apply asked_serviceText.
    + apply Forall2_refl_frame; intros; by left.
  - intros pkg i typ res Hi Hask Hacc.
    split; [by left|]. split; simpl.
    + apply Forall2_refl_frame; intros; by left.
    + eapply Forall2_update; [intros; by left|done|].
      right. by apply asked_serviceText.
  - intros pkg res Hnil Hask Hacc.
    split; [by left|]. split; apply Forall2_refl_frame; intros; by left.
  - intros pkg i fn res Hi Hnil Hexp Hask Hacc.
    split; [by left|]. split; simpl.
    + eapply Forall2_update; [intros; by left|done|]. by left.
    + apply Forall2_refl_frame; intros; by left.
Qed.

(** X17. A failure of the language service never fails the generation:
    [enhanceDescriptions] and [generateExamples] always return a nil error,
    so [GeneratePackageDoc] returns the text that the template gives for
    the enhanced model, or an empty text and the wrapped error of the
    template when that fails. *)
Theorem GeneratePackageDoc_outcome
    {World : Type}
    (GenerateContent : World → string → (string + error) * World)
    (packageDescriptionPrompt : PackageInfo.t → string + error)
    (functionDescriptionPrompt : FunctionInfo.t → string + error)
    (typeDescriptionPrompt : TypeInfo.t → string + error)
    (packageExamplePrompt : PackageInfo.t → string + error)
    (functionExamplePrompt : FunctionInfo.t → PackageInfo.t → string + error)
    (ExecuteTemplate : PackageInfo.t → string + error)
    (pkg : PackageInfo.t) (config : generator.DocConfig) (w : World) :
  let out :=
    generator.GeneratePackageDoc GenerateContent packageDescriptionPrompt
      functionDescriptionPrompt typeDescriptionPrompt packageExamplePrompt
      functionExamplePrompt ExecuteTemplate pkg config w in
  (generator.enhanceDescriptions GenerateContent packageDescriptionPrompt
     functionDescriptionPrompt typeDescriptionPrompt pkg w).1.2 = None ∧
  (generator.generateExamples GenerateContent packageExamplePrompt
     functionExamplePrompt pkg w).1.2 = None ∧
  out.1.1 =
    match ExecuteTemplate out.1.2 with
    | inl text => (text, None)
    | inr err => (EmptyString, Some (ErrExecutingTemplate err))
    end.
Proof.
  intros out. subst out.
  assert (∀ pkg0 w0,
            (generator.enhanceDescriptions GenerateContent packageDescriptionPrompt
               functionDescriptionPrompt typeDescriptionPrompt pkg0 w0).1.2 = None) as He1.
  { intros pkg0 w0.
    apply (enhanceDescriptions_steps GenerateContent packageDescriptionPrompt
             functionDescriptionPrompt typeDescriptionPrompt (λ _ _, True));
      intros; exact I. }
  assert (∀ pkg0 w0,
            (generator.generateExamples GenerateContent packageExamplePrompt
               functionExamplePrompt pkg0 w0).1.2 = None) as He2.
  { intros pkg0 w0.
    apply (generateExamples_steps GenerateContent packageExamplePrompt
             functionExamplePrompt (λ _ _, True));
      intros; exact I. }
  split; [apply He1|]. split; [apply He2|].
  unfold generator.GeneratePackageDoc.
  specialize (He1 pkg w).
  destruct (generator.enhanceDescriptions _ _ _ _ _ _) as [[pkg1 err1] w1].
  simpl in He1. subst err1.
  destruct (generator.GenerateExamples config).
  - specialize (He2 pkg1 w1).
    destruct (generator.generateExamples _ _ _ _ _) as [[pkg2 err2] w2].
    simpl in He2. subst err2.
    destruct (ExecuteTemplate pkg2) eqn:Ht; simpl; by rewrite Ht.
  - destruct (ExecuteTemplate pkg1) eqn:Ht; simpl; by rewrite Ht.
Qed.

(** X18. When every call of the language service fails, the stage leaves
    the model exactly as it was. *)
Theorem failing_service_changes_nothing
    {World : Type}
    (GenerateContent : World → string → (string + error) * World)
    (packageDescriptionPrompt : PackageInfo.t → string + error)
    (functionDescriptionPrompt : FunctionInfo.t → string + error)
    (typeDescriptionPrompt : TypeInfo.t → string + error)
    (packageExamplePrompt : PackageInfo.t → string + error)
    (functionExamplePrompt : FunctionInfo.t → PackageInfo.t → string + error)
    (ExecuteTemplate : PackageInfo.t → string + error)
    (pkg : PackageInfo.t) (config : generator.DocConfig) (w : World) :
  (∀ w prompt, ∃ err w', GenerateContent w prompt = (inr err, w')) →
  (generator.GeneratePackageDoc GenerateContent packageDescriptionPrompt
     functionDescriptionPrompt typeDescriptionPrompt packageExamplePrompt
     functionExamplePrompt ExecuteTemplate pkg config w).1.2 = pkg.
Proof.
  intros Hdown.
  assert (∀ res, asked GenerateContent res → generator.accepted res = true → False) as Hno.
  { intros res (prompt & w0 & ->). unfold generator.ask, generator.accepted.
    destruct prompt as [prompt|err]; [|done].
    destruct (Hdown w0 prompt) as (err & w' & ->). done. }
  apply (GeneratePackageDoc_steps GenerateContent _ _ _ _ _ _ (λ a b, b = a));
    try done; try (intros; exfalso; by eapply Hno).
  intros a b c. congruence.
Qed.

Lemma failing_service_changes_nothing_witness :
  (generator.GeneratePackageDoc service_down inputs.packagePrompt
     inputs.functionPrompt inputs.typePrompt inputs.packagePrompt
     inputs.functionExamplePrompt inputs.ExecuteTemplate
     inputs.documented inputs.config 0).1.2 = inputs.documented.
Proof.
  apply failing_service_changes_nothing.
  intros w prompt. exists (ExternalError "connection refused"), (S w). reflexivity.
Defined.

Lemma sameExamples_refl (pkg : PackageInfo.t) : sameExamples pkg pkg.
Proof. split; [done|]. by apply Forall2_refl_frame. Qed.

Lemma sameExamples_trans (a b c : PackageInfo.t) :
  sameExamples a b → sameExamples b c → sameExamples a c.
Proof.
  intros [E1 F1] [E2 F2]. split; [congruence|].
  eapply Forall2_trans_frame; [|done..]. intros x y z. simpl. congruence.
Qed.

(** X19. With [GenerateExamples] off in the configuration, no example is
    added anywhere: the package examples and the examples of every function
    are what they were. *)
Theorem no_examples_when_disabled
    {World : Type}
    (GenerateContent : World → string → (string + error) * World)
    (packageDescriptionPrompt : PackageInfo.t → string + error)
    (functionDescriptionPrompt : FunctionInfo.t → string + error)
    (typeDescriptionPrompt : TypeInfo.t → string + error)
    (packageExamplePrompt : PackageInfo.t → string + error)
    (functionExamplePrompt : FunctionInfo.t → PackageInfo.t → string + error)
    (ExecuteTemplate : PackageInfo.t → string + error)
    (pkg : PackageInfo.t) (config : generator.DocConfig) (w : World) :
  generator.GenerateExamples config = false →
  let pkg' :=
    (generator.GeneratePackageDoc GenerateContent packageDescriptionPrompt
       functionDescriptionPrompt typeDescriptionPrompt packageExamplePrompt
       functionExamplePrompt ExecuteTemplate pkg config w).1.2 in
  PackageInfo.Examples pkg' = PackageInfo.Examples pkg ∧
  Forall2 (λ fn fn', FunctionInfo.Examples fn' = FunctionInfo.Examples fn)
          (PackageInfo.Functions pkg) (PackageInfo.Functions pkg').
Proof.
  intros Hoff pkg'. subst pkg'. unfold generator.GeneratePackageDoc.
  destruct (enhanceDescriptions_steps GenerateContent packageDescriptionPrompt
              functionDescriptionPrompt typeDescriptionPrompt sameExamples
              sameExamples_refl sameExamples_trans) with (pkg := pkg) (w := w)
    as [H1 He1].
  - intros p res _ _. split; [done|]. by apply Forall2_refl_frame.
  - intros p i fn res Hi _ _. split; [done|]. simpl.
    eapply Forall2_update; [done|done|done].
  - intros p i typ res _ _ _. split; [done|]. by apply Forall2_refl_frame.
  - destruct (generator.enhanceDescriptions _ _ _ _ _ _) as [[pkg1 err1] w1].
    simpl in H1, He1. subst err1. rewrite Hoff.
    by destruct (ExecuteTemplate pkg1).
Qed.

Lemma no_examples_when_disabled_witness :
  let pkg' :=
    (generator.GeneratePackageDoc inputs.GenerateContent inputs.packagePrompt
       inputs.functionPrompt inputs.typePrompt inputs.packagePrompt
       inputs.functionExamplePrompt inputs.ExecuteTemplate
       inputs.documented config_no_examples 0).1.2 in
  PackageInfo.Examples pkg' = PackageInfo.Examples inputs.documented ∧
  Forall2 (λ fn fn', FunctionInfo.Examples fn' = FunctionInfo.Examples fn)
          (PackageInfo.Functions inputs.documented) (PackageInfo.Functions pkg').
Proof.
  exact (no_examples_when_disabled inputs.GenerateContent inputs.packagePrompt
           inputs.functionPrompt inputs.typePrompt inputs.packagePrompt
           inputs.functionExamplePrompt inputs.ExecuteTemplate
           inputs.documented config_no_examples 0 eq_refl).
Defined.

(** * Further properties of the doc normalizer *)

(** ** Strings: append and reversal *)

Lemma append_nil_r (s : string) : s +:+ EmptyString = s.
Proof. induction s as [|a s IH]; [done|]. change (String a (s +:+ EmptyString) = String a s). by f_equal. Qed.

Lemma append_cons (a : ascii) (s t : string) : String a s +:+ t = String a (s +:+ t).
Proof. reflexivity. Qed.

Lemma rev_app_append (s acc : string) : String.rev_app s acc = String.rev s +:+ acc.
Proof.
  unfold String.rev. revert acc.
  induction s as [|a s IH]; intros acc; [done|].
  change (String.rev_app s (String a acc) = String.rev_app s (String a EmptyString) +:+ acc).
  rewrite (IH (String a acc)), (IH (String a EmptyString)).
  by rewrite append_assoc.
Qed.

Lemma rev_cons (a : ascii) (s : string) :
  String.rev (String a s) = String.rev s +:+ strings.str a.
Proof. unfold String.rev at 1. simpl. apply rev_app_append. Qed.

Lemma rev_append (s t : string) : String.rev (s +:+ t) = String.rev t +:+ String.rev s.
Proof.
  induction s as [|a s IH].
  - by rewrite append_nil_r.
  - rewrite append_cons, !rev_cons, IH. by rewrite append_assoc.
Qed.

Lemma rev_involutive (s : string) : String.rev (String.rev s) = s.
Proof.
  induction s as [|a s IH]; [done|].
  rewrite rev_cons, rev_append, IH. reflexivity.
Qed.

Lemma hasByte_append (c : ascii) (s t : string) :
  hasByte c (s +:+ t) = hasByte c s || hasByte c t.
Proof.
  induction s as [|a s IH]; [done|]. rewrite append_cons. simpl.
  by rewrite IH, orb_assoc.
Qed.

Lemma hasByte_rev (c : ascii) (s : string) : hasByte c (String.rev s) = hasByte c s.
Proof.
  induction s as [|a s IH]; [done|].
  rewrite rev_cons, hasByte_append, IH. simpl.
  rewrite orb_false_r. apply orb_comm.
Qed.

(** ** One side of [TrimSpace] *)

Lemma trimLeftSpace_fix (s : string) : leadingSpace s = 0 → strings.trimLeftSpace s = s.
Proof.
  destruct s as [|b1 [|b2 [|b3 s3]]]; simpl; try done;
    repeat (destruct (strings.asciiSpace _) || destruct (strings.space2 _ _)
            || destruct (strings.space3 _ _ _)); done.
Qed.

Lemma trimLeftSpace_props (n : nat) (s : string) :
  String.length s ≤ n →
  leadingSpace (strings.trimLeftSpace s) = 0 ∧ ∃ u, s = u +:+ strings.trimLeftSpace s.
Proof.
  revert s. induction n as [|n IH]; intros s Hlen.
  { destruct s; [|simpl in Hlen; lia]. split; [done|by exists EmptyString]. }
  destruct s as [|b1 s1]; [split; [done|by exists EmptyString]|].
  simpl in Hlen.
  cbn [strings.trimLeftSpace].
  destruct (strings.asciiSpace b1) eqn:H1.
  { destruct (IH s1 ltac:(lia)) as [Hz [u Hu]]. split; [done|].
    exists (String b1 u). rewrite append_cons. by f_equal. }
  destruct s1 as [|b2 s2].
  { split; [by simpl; rewrite H1|by exists EmptyString]. }
  simpl in Hlen.
  destruct (strings.space2 b1 b2) eqn:H2.
  { destruct (IH s2 ltac:(lia)) as [Hz [u Hu]]. split; [done|].
    exists (String b1 (String b2 u)). rewrite !append_cons. by do 2 f_equal. }
  destruct s2 as [|b3 s3].
  { split; [by simpl; rewrite H1, H2|by exists EmptyString]. }
  simpl in Hlen.
  destruct (strings.space3 b1 b2 b3) eqn:H3.
  { destruct (IH s3 ltac:(lia)) as [Hz [u Hu]]. split; [done|].
    exists (String b1 (String b2 (String b3 u))). rewrite !append_cons. by do 3 f_equal. }
  split; [by simpl; rewrite H1, H2, H3|by exists EmptyString].
Qed.

Lemma trimLeftSpaceRev_fix (r : string) :
  trailingSpace r = 0 → strings.trimLeftSpaceRev r = r.
Proof.
  destruct r as [|b1 [|b2 [|b3 s3]]]; simpl; try done;
    repeat (destruct (strings.asciiSpace _) || destruct (strings.space2 _ _)
            || destruct (strings.space3 _ _ _)); done.
Qed.

Lemma trimLeftSpaceRev_props (n : nat) (r : string) :
  String.length r ≤ n →
  trailingSpace (strings.trimLeftSpaceRev r) = 0 ∧
  ∃ u, r = u +:+ strings.trimLeftSpaceRev r.
Proof.
  revert r. induction n as [|n IH]; intros s Hlen.
  { destruct s; [|simpl in Hlen; lia]. split; [done|by exists EmptyString]. }
  destruct s as [|b1 s1]; [split; [done|by exists EmptyString]|].
  simpl in Hlen.
  cbn [strings.trimLeftSpaceRev].
  destruct (strings.asciiSpace b1) eqn:H1.
  { destruct (IH s1 ltac:(lia)) as [Hz [u Hu]]. split; [done|].
    exists (String b1 u). rewrite append_cons. by f_equal. }
  destruct s1 as [|b2 s2].
  { split; [by simpl; rewrite H1|by exists EmptyString]. }
  simpl in Hlen.
  destruct (strings.space2 b2 b1) eqn:H2.
  { destruct (IH s2 ltac:(lia)) as [Hz [u Hu]]. split; [done|].
    exists (String b1 (String b2 u)). rewrite !append_cons. by do 2 f_equal. }
  destruct s2 as [|b3 s3].
  { split; [by simpl; rewrite H1, H2|by exists EmptyString]. }
  simpl in Hlen.
  destruct (strings.space3 b3 b2 b1) eqn:H3.
  { destruct (IH s3 ltac:(lia)) as [Hz [u Hu]]. split; [done|].
    exists (String b1 (String b2 (String b3 u))). rewrite !append_cons. by do 3 f_equal. }
  split; [by simpl; rewrite H1, H2, H3|by exists EmptyString].
Qed.

(** A non-empty prefix of a text that starts with no white space starts
    with none. *)
Lemma leadingSpace_prefix (p q : string) :
  leadingSpace (p +:+ q) = 0 → leadingSpace p = 0.
Proof.
  destruct p as [|b1 [|b2 [|b3 p3]]]; try done.
  - rewrite append_cons. simpl. destruct (strings.asciiSpace b1); done.
  - rewrite !append_cons. simpl.
    destruct (strings.asciiSpace b1); [done|].
    destruct (strings.space2 b1 b2); done.
Qed.

(** ** [TrimSpace]: what it returns and what it leaves alone *)

Lemma TrimSpace_props (x : string) (c : ascii) :
  leadingSpace (strings.TrimSpace x) = 0 ∧
  trailingSpace (String.rev (strings.TrimSpace x)) = 0 ∧
  (hasByte c x = false → hasByte c (strings.TrimSpace x) = false).
Proof.
  unfold strings.TrimSpace.
  destruct (trimLeftSpace_props _ x (le_n _)) as [Hy [u Hu]].
  set (y := strings.trimLeftSpace x) in *.
  destruct (trimLeftSpaceRev_props _ (String.rev y) (le_n _)) as [Hz [v Hv]].
  set (z := strings.trimLeftSpaceRev (String.rev y)) in *.
  split; [|split].
  - apply (leadingSpace_prefix _ (String.rev v)).
    by rewrite <- rev_append, <- Hv, rev_involutive.
  - by rewrite rev_involutive.
  - intros Hx. rewrite Hu, hasByte_append in Hx.
    apply orb_false_elim in Hx as [_ Hyc].
    rewrite <- hasByte_rev, Hv, hasByte_append in Hyc.
    apply orb_false_elim in Hyc as [_ Hzc].
    by rewrite hasByte_rev.
Qed.

Lemma TrimSpace_fix (s : string) :
  leadingSpace s = 0 → trailingSpace (String.rev s) = 0 → strings.TrimSpace s = s.
Proof.
  intros Hl Ht. unfold strings.TrimSpace.
  by rewrite (trimLeftSpace_fix s Hl), (trimLeftSpaceRev_fix _ Ht), rev_involutive.
Qed.

(** ** White space and newlines *)

Lemma space2_nl_r (b : ascii) : strings.space2 b strings.nl = false.
Proof. unfold strings.space2. simpl. apply andb_false_r. Qed.

Lemma space3_nl_mid (b1 b3 : ascii) : strings.space3 b1 strings.nl b3 = false.
Proof.
  unfold strings.space3. simpl.
  by destruct (Nat.eqb (nat_of_ascii b1) 225), (Nat.eqb (nat_of_ascii b1) 226),
     (Nat.eqb (nat_of_ascii b1) 227).
Qed.

Lemma space3_nl_r (b1 b2 : ascii) : strings.space3 b1 b2 strings.nl = false.
Proof.
  unfold strings.space3. simpl.
  by destruct (Nat.eqb (nat_of_ascii b1) 225), (Nat.eqb (nat_of_ascii b1) 226),
     (Nat.eqb (nat_of_ascii b1) 227), (Nat.eqb (nat_of_ascii b2) 154),
     (Nat.eqb (nat_of_ascii b2) 128), (Nat.eqb (nat_of_ascii b2) 129).
Qed.

Lemma space3_nl_l (b2 b3 : ascii) : strings.space3 strings.nl b2 b3 = false.
Proof. reflexivity. Qed.

Lemma space2_nl_l (b : ascii) : strings.space2 strings.nl b = false.
Proof. reflexivity. Qed.

(** A line that starts with no white space still starts with none when a
    newline and more text follow it; likewise at the end. *)
Lemma leadingSpace_line (l t : string) :
  l ≠ EmptyString → leadingSpace l = 0 →
  leadingSpace (l +:+ String strings.nl t) = 0.
Proof.
  intros Hne.
  destruct l as [|b1 [|b2 [|b3 l3]]]; [done| | |by rewrite !append_cons].
  - rewrite append_cons. simpl.
    destruct (strings.asciiSpace b1); [done|]. intros _.
    rewrite space2_nl_r. destruct t; [done|]. by rewrite space3_nl_mid.
  - rewrite !append_cons. simpl.
    destruct (strings.asciiSpace b1); [done|].
    destruct (strings.space2 b1 b2); [done|]. intros _.
    by rewrite space3_nl_r.
Qed.

Lemma trailingSpace_line (r t : string) :
  r ≠ EmptyString → trailingSpace r = 0 →
  trailingSpace (r +:+ String strings.nl t) = 0.
Proof.
  intros Hne.
  destruct r as [|b1 [|b2 [|b3 r3]]]; [done| | |by rewrite !append_cons].
  - rewrite append_cons. simpl.
    destruct (strings.asciiSpace b1); [done|]. intros _.
    rewrite ?space2_nl_l. destruct t; [done|]. by rewrite ?space3_nl_mid.
  - rewrite !append_cons. simpl.
    destruct (strings.asciiSpace b1); [done|].
    destruct (strings.space2 b2 b1); [done|]. intros _.
    by rewrite ?space3_nl_l.
Qed.

(** ** [Split] after [Join], and [ReplaceAll] on lines without a carriage
    return at the end *)

Lemma HasPrefix_nl (a : ascii) (s : string) :
  strings.HasPrefix (String a s) (strings.str strings.nl) = Ascii.eqb a strings.nl.
Proof. simpl. apply andb_true_r. Qed.

Lemma split_from_line (l cur t : string) :
  hasByte strings.nl l = false →
  strings.split_from (strings.str strings.nl) 0 cur (l +:+ t) =
  strings.split_from (strings.str strings.nl) 0 (cur +:+ l) t.
Proof.
  revert cur. induction l as [|a l IH]; intros cur Hl.
  - by rewrite append_nil_r.
  - simpl in Hl. apply orb_false_elim in Hl as [Ha Hl].
    rewrite append_cons. cbn [strings.split_from].
    rewrite HasPrefix_nl, Ha, (IH _ Hl).
    by rewrite append_assoc.
Qed.

Lemma split_from_nl (cur t : string) :
  strings.split_from (strings.str strings.nl) 0 cur (String strings.nl t) =
  cur :: strings.split_from (strings.str strings.nl) 0 EmptyString t.
Proof. reflexivity. Qed.

Lemma Join_cons2 (l l2 : string) (rest : list string) (sep : string) :
  strings.Join (l :: l2 :: rest) sep = l +:+ sep +:+ strings.Join (l2 :: rest) sep.
Proof. reflexivity. Qed.

Lemma Split_Join (L : list string) :
  L ≠ [] →
  Forall (λ l, hasByte strings.nl l = false) L →
  strings.Split (strings.Join L (strings.str strings.nl)) (strings.str strings.nl) = L.
Proof.
  intros Hne HL. unfold strings.Split.
  induction HL as [|l L Hl HL IH]; [done|].
  destruct L as [|l2 rest].
  - simpl. rewrite <- (append_nil_r l) at 1.
    by rewrite (split_from_line l EmptyString EmptyString Hl).
  - rewrite Join_cons2.
    change (strings.str strings.nl +:+ ?x) with (String strings.nl x).
    rewrite (split_from_line l EmptyString _ Hl), split_from_nl.
    f_equal. by apply IH.
Qed.

Lemma HasPrefix_crlf (a : ascii) (s : string) :
  strings.HasPrefix (String a s) crlf =
  Ascii.eqb a strings.cr &&
  match s with
  | String b _ => Ascii.eqb b strings.nl
  | EmptyString => false
  end.
Proof. destruct s as [|b s]; simpl; [done|]. by rewrite andb_true_r. Qed.

Lemma replace_line_end (new l : string) :
  hasByte strings.nl l = false →
  strings.replace_from crlf new 0 l = l.
Proof.
  induction l as [|a l IH]; [done|]. intros Hl.
  simpl in Hl. apply orb_false_elim in Hl as [_ Hl].
  cbn [strings.replace_from]. rewrite HasPrefix_crlf.
  assert (match l with String b _ => Ascii.eqb b strings.nl | EmptyString => false end = false)
    as ->.
  { destruct l as [|b l]; [done|]. simpl in Hl. by apply orb_false_elim in Hl as [? _]. }
  rewrite andb_false_r. f_equal. by apply IH.
Qed.

Lemma replace_line (new l t : string) :
  hasByte strings.nl l = false →
  (∀ l0, l ≠ l0 +:+ strings.str strings.cr) →
  strings.replace_from crlf new 0 (l +:+ String strings.nl t) =
  l +:+ String strings.nl (strings.replace_from crlf new 0 t).
Proof.
  induction l as [|a l IH]; intros Hl Hcr.
  - by cbn [String.append strings.replace_from].
  - simpl in Hl. apply orb_false_elim in Hl as [_ Hl].
    rewrite !append_cons. cbn [strings.replace_from]. rewrite HasPrefix_crlf.
    assert (Ascii.eqb a strings.cr &&
            match l +:+ String strings.nl t with
            | String b _ => Ascii.eqb b strings.nl
            | EmptyString => false
            end = false) as ->.
    { destruct l as [|b l].
      - apply andb_false_iff. left. apply Ascii.eqb_neq. intros ->.
        by apply (Hcr EmptyString).
      - rewrite append_cons. simpl in Hl. apply orb_false_elim in Hl as [-> _].
        apply andb_false_r. }
    f_equal. apply IH; [done|].
    intros l0 ->. by apply (Hcr (String a l0)).
Qed.

Lemma cleanLine_no_cr (l : string) :
  trailingSpace (String.rev l) = 0 → ∀ l0, l ≠ l0 +:+ strings.str strings.cr.
Proof. intros Ht l0 ->. by rewrite rev_snoc in Ht. Qed.

Lemma ReplaceAll_Join (L : list string) :
  Forall cleanLine L →
  strings.ReplaceAll (strings.Join L (strings.str strings.nl)) crlf (strings.str strings.nl)
  = strings.Join L (strings.str strings.nl).
Proof.
  unfold strings.ReplaceAll.
  induction 1 as [|l L (Hne & Hl & Ht & Hnl) HL IH]; [done|].
  destruct L as [|l2 rest].
  - by apply replace_line_end.
  - rewrite Join_cons2.
    change (strings.str strings.nl +:+ ?x) with (String strings.nl x).
    rewrite replace_line; [by rewrite IH|done|by apply cleanLine_no_cr].
Qed.

(** ** [cleanDoc] *)

Lemma append_nonempty (s t : string) : s ≠ EmptyString → s +:+ t ≠ EmptyString.
Proof. intros Hs [? _]%append_empty. done. Qed.

Lemma Join_clean_ends (L : list string) :
  L ≠ [] → Forall cleanLine L →
  strings.Join L (strings.str strings.nl) ≠ EmptyString ∧
  leadingSpace (strings.Join L (strings.str strings.nl)) = 0 ∧
  trailingSpace (String.rev (strings.Join L (strings.str strings.nl))) = 0.
Proof.
  intros Hne HL.
  induction HL as [|l L (Hl & Hlead & Htrail & Hnl) HL IH]; [done|].
  destruct L as [|l2 rest]; [done|].
  destruct IH as (HJ & _ & HJt); [done|].
  rewrite Join_cons2.
  change (strings.str strings.nl +:+ ?x) with (String strings.nl x).
  split; [by apply append_nonempty|]. split; [by apply leadingSpace_line|].
  rewrite rev_append, rev_cons, append_assoc.
  change (strings.str strings.nl +:+ ?x) with (String strings.nl x).
  apply trailingSpace_line; [|done].
  intros Hrev. apply HJ. by rewrite <- (rev_involutive (strings.Join _ _)), Hrev.
Qed.

Lemma split_from_no_nl (s cur : string) :
  hasByte strings.nl cur = false →
  Forall (λ l, hasByte strings.nl l = false)
         (strings.split_from (strings.str strings.nl) 0 cur s).
Proof.
  revert cur. induction s as [|a s IH]; intros cur Hcur.
  - by constructor.
  - cbn [strings.split_from]. rewrite HasPrefix_nl.
    destruct (Ascii.eqb a strings.nl) eqn:Ha.
    + constructor; [done|]. by apply IH.
    + apply IH. rewrite hasByte_append, Hcur. simpl. by rewrite Ha.
Qed.

Lemma cleaned_loop (lines : list string) :
  for_range lines [] (λ cleaned line,
    let line := strings.TrimSpace line in
    if negb (strings.eqb line EmptyString) then cleaned ++ [line] else cleaned) =
  flat_map (λ line, if negb (strings.eqb (strings.TrimSpace line) EmptyString)
                    then [strings.TrimSpace line] else []) lines.
Proof.
  rewrite (for_range_flat_map
    (λ line, if negb (strings.eqb (strings.TrimSpace line) EmptyString)
             then [strings.TrimSpace line] else [])); [done|].
  intros acc line. simpl. destruct (negb _); [done|by rewrite app_nil_r].
Qed.

Lemma cleanDoc_Join (doc : string) :
  ∃ L, Forall cleanLine L ∧ analyser.cleanDoc doc = strings.Join L (strings.str strings.nl).
Proof.
  unfold analyser.cleanDoc.
  destruct (strings.eqb doc EmptyString); [by exists []|].
  rewrite cleaned_loop. eexists. split; [|done].
  pose proof (split_from_no_nl
    (strings.ReplaceAll (strings.TrimSpace doc)
       (strings.str strings.cr +:+ strings.str strings.nl) (strings.str strings.nl))
    EmptyString eq_refl) as Hlines.
  fold (strings.Split
    (strings.ReplaceAll (strings.TrimSpace doc)
       (strings.str strings.cr +:+ strings.str strings.nl) (strings.str strings.nl))
    (strings.str strings.nl)) in Hlines.
  induction Hlines as [|line lines Hline _ IH]; cbn [flat_map]; [done|].
  apply Forall_app. split; [|done].
  destruct (strings.eqb (strings.TrimSpace line) EmptyString) eqn:He; simpl; [done|].
  apply Forall_singleton.
  destruct (TrimSpace_props line strings.nl) as (H1 & H2 & H3).
  split; [|by auto].
  intros Heq. unfold strings.eqb in He. by rewrite Heq in He.
Qed.

Lemma cleanDoc_of_Join (L : list string) :
  Forall cleanLine L →
  analyser.cleanDoc (strings.Join L (strings.str strings.nl)) =
  strings.Join L (strings.str strings.nl).
Proof.
  intros HL. destruct L as [|l0 L0] eqn:HeqL; [done|]. rewrite <- HeqL in *.
  assert (L ≠ []) as Hne by (by rewrite HeqL). clear HeqL.
  destruct (Join_clean_ends L Hne HL) as (HJ & Hlead & Htrail).
  unfold analyser.cleanDoc. unfold strings.eqb at 1.
  rewrite bool_decide_eq_false_2 by done.
  rewrite (TrimSpace_fix _ Hlead Htrail).
  change (strings.str strings.cr +:+ strings.str strings.nl) with crlf.
  rewrite (ReplaceAll_Join L HL), Split_Join; [|done|].
  2:{ eapply Forall_impl; [exact HL|]. by intros l (_ & _ & _ & ?). }
  rewrite cleaned_loop. f_equal.
  clear Hne HJ Hlead Htrail.
  induction HL as [|l L (Hl & Hlead & Htrail & Hnl) HL IH]; [done|].
  cbn [flat_map]. rewrite IH, (TrimSpace_fix l Hlead Htrail).
  unfold strings.eqb. by rewrite bool_decide_eq_false_2.
Qed.

(** X20. The text that [cleanDoc] returns is a sequence of lines joined by
    single newlines, each of them non-empty, free of newlines and left
    alone by [TrimSpace] (it has no white space at either end): no blank
    line, no indentation and no trailing white space survive. *)
Theorem cleanDoc_output_lines (doc : string) :
  ∃ L,
    analyser.cleanDoc doc = strings.Join L (strings.str strings.nl) ∧
    Forall (λ l, l ≠ EmptyString ∧ strings.TrimSpace l = l ∧
                 hasByte strings.nl l = false) L.
Proof.
  destruct (cleanDoc_Join doc) as (L & HL & ->).
  exists L. split; [done|].
  eapply Forall_impl; [exact HL|].
  intros l (Hl & Hlead & Htrail & Hnl). by rewrite TrimSpace_fix.
Qed.

(** X21. [cleanDoc] is idempotent: cleaning a text that was cleaned gives
    the same text. *)
Theorem cleanDoc_idempotent (doc : string) :
  analyser.cleanDoc (analyser.cleanDoc doc) = analyser.cleanDoc doc.
Proof.
  destruct (cleanDoc_Join doc) as (L & HL & ->). by apply cleanDoc_of_Join.
Qed.

(** * Properties of the command *)

(** ** Which directories are skipped *)

Lemma dropSlashes_keep (s t : string) :
  s ≠ EmptyString → hasByte cmd.slash s = false →
  cmd.dropSlashes (s +:+ t) = s +:+ t.
Proof.
  destruct s as [|a s]; [done|]. intros _ Hs.
  simpl in Hs. apply orb_false_elim in Hs as [Ha _].
  rewrite append_cons. simpl. by rewrite Ha.
Qed.

Lemma upToSlash_stop (s t : string) :
  hasByte cmd.slash s = false →
  cmd.upToSlash (s +:+ String cmd.slash t) = s.
Proof.
  induction s as [|a s IH]; intros Hs.
  - by cbn.
  - simpl in Hs. apply orb_false_elim in Hs as [Ha Hs].
    rewrite append_cons. simpl. rewrite Ha. f_equal. by apply IH.
Qed.

Lemma upToSlash_all (s : string) :
  hasByte cmd.slash s = false → cmd.upToSlash s = s.
Proof.
  induction s as [|a s IH]; intros Hs; [done|].
  simpl in Hs. apply orb_false_elim in Hs as [Ha Hs].
  simpl. rewrite Ha. f_equal. by apply IH.
Qed.

Lemma rev_nonempty (s : string) : s ≠ EmptyString → String.rev s ≠ EmptyString.
Proof. intros Hs Hr. apply Hs. by rewrite <- (rev_involutive s), Hr. Qed.

Lemma Base_last (dir name : string) :
  name ≠ EmptyString → hasByte cmd.slash name = false →
  cmd.Base (dir +:+ strings.str cmd.slash +:+ name) = name ∧ cmd.Base name = name.
Proof.
  intros Hne Hname.
  assert (hasByte cmd.slash (String.rev name) = false) as Hrev by by rewrite hasByte_rev.
  pose proof (rev_nonempty name Hne) as Hrne.
  unfold cmd.Base, strings.eqb. split.
  - rewrite bool_decide_eq_false_2.
    2:{ intros [_ [? _]%append_empty]%append_empty. done. }
    rewrite !rev_append.
    change (String.rev (strings.str cmd.slash)) with (strings.str cmd.slash).
    rewrite append_assoc.
    change (strings.str cmd.slash +:+ ?x) with (String cmd.slash x).
    rewrite dropSlashes_keep, upToSlash_stop, rev_involutive by done.
    by rewrite bool_decide_eq_false_2.
  - rewrite bool_decide_eq_false_2 by done.
    assert (cmd.dropSlashes (String.rev name) = String.rev name) as ->.
    { pose proof (dropSlashes_keep (String.rev name) EmptyString Hrne Hrev) as Hd.
      by rewrite append_nil_r in Hd. }
    rewrite upToSlash_all, rev_involutive by done.
    by rewrite bool_decide_eq_false_2.
Qed.

(** X22. Whether a directory is skipped depends on the last element of its
    path only: for a name that is not empty and holds no slash, the path
    made of any directory, a slash and that name is skipped exactly when
    the name alone is; and it is skipped exactly when the name is [vendor],
    [.git] or [testdata] or ends in [_test]. *)
Theorem shouldSkipDir_last_element (dir name : string) :
  name ≠ EmptyString → hasByte cmd.slash name = false →
  cmd.shouldSkipDir (dir +:+ strings.str cmd.slash +:+ name) = cmd.shouldSkipDir name ∧
  cmd.shouldSkipDir name =
    (strings.eqb name "vendor" || strings.eqb name ".git" ||
     strings.eqb name "testdata" || strings.HasSuffix name "_test").
Proof.
  intros Hne Hname. destruct (Base_last dir name Hne Hname) as [H1 H2].
  unfold cmd.shouldSkipDir. by rewrite H1, H2.
Qed.

Lemma shouldSkipDir_last_element_witness :
  cmd.shouldSkipDir ("project/internal" +:+ strings.str cmd.slash +:+ "vendor") =
    cmd.shouldSkipDir "vendor" ∧
  cmd.shouldSkipDir "vendor" =
    (strings.eqb "vendor" "vendor" || strings.eqb "vendor" ".git" ||
     strings.eqb "vendor" "testdata" || strings.HasSuffix "vendor" "_test").
Proof.
  apply shouldSkipDir_last_element; [discriminate|reflexivity].
Defined.

(** ** Documenting one package *)

Lemma AnalysePackage_result
    (IsExported : string → bool) (doc_New : ast.Package → doc.Package)
    (ParseDir : string → gmap string ast.Package * option error)
    (r : analyser.MapRange) (dir : string) :
  (∃ info, analyser.AnalysePackage IsExported doc_New ParseDir r dir = (Some info, None)) ∨
  (∃ err, analyser.AnalysePackage IsExported doc_New ParseDir r dir = (None, Some err)).
Proof.
  destruct (ParseDir dir) as [pkgs err] eqn:Hparse.
  destruct err as [err|].
  { right. exists (ErrParsingPackage err). unfold analyser.AnalysePackage. by rewrite Hparse. }
  destruct (analyser.selectPackage (analyser.rangePkgs r pkgs)) as [pkg|] eqn:Hsel.
  - left. eexists. by apply (AnalysePackage_selected _ _ _ r dir pkgs pkg).
  - right. exists (ErrNoPackageFound dir). unfold analyser.AnalysePackage.
    by rewrite Hparse, Hsel.
Qed.

Section CommandProperties.

Context {World FS : Type}.
Variable IsExported : string → bool.
Variable doc_New : ast.Package → doc.Package.
Variable ParseDir : string → gmap string ast.Package * option error.
Variable r : analyser.MapRange.
Variable GenerateContent : World → string → (string + error) * World.
Variable packageDescriptionPrompt : PackageInfo.t → string + error.
Variable functionDescriptionPrompt : FunctionInfo.t → string + error.
Variable typeDescriptionPrompt : TypeInfo.t → string + error.
Variable packageExamplePrompt : PackageInfo.t → string + error.
Variable functionExamplePrompt : FunctionInfo.t → PackageInfo.t → string + error.
Variable ExecuteTemplate : PackageInfo.t → string + error.
Variable filepath_Join : string → string → string.
Variable filepath_Dir : string → string.
Variable MkdirAll : FS → string → option error * FS.
Variable WriteFile : FS → string → string → option error * FS.
Variable ReadDir : FS → string → list cmd.DirEntry * option error.

Lemma generatePackageDocs_no_panic (packageDir : string) (config : generator.DocConfig)
    (st : cmd.Run) :
  (cmd.generatePackageDocs IsExported doc_New ParseDir r GenerateContent
     packageDescriptionPrompt functionDescriptionPrompt typeDescriptionPrompt
     packageExamplePrompt functionExamplePrompt ExecuteTemplate
     filepath_Join filepath_Dir MkdirAll WriteFile packageDir config st).1 ≠ cmd.Panicked.
Proof.
  unfold cmd.generatePackageDocs.
  destruct (AnalysePackage_result IsExported doc_New ParseDir r packageDir)
    as [[info ->]|[err ->]]; simpl; [|done].
  destruct (generator.GeneratePackageDoc _ _ _ _ _ _ _ _ _ _) as [[[text err] pkg'] w'].
  destruct err as [err|]; simpl; [done|].
  destruct (MkdirAll _ _) as [[err|] fs1]; simpl; [done|].
  by destruct (WriteFile _ _ _) as [[err|] fs2].
Qed.

(** X23. [generatePackageDocs] never dereferences a nil model.  When the
    analysis fails it returns that error, wrapped, without a call to the
    language service and without touching the file system.  When it
    returns nil, the analysis gave a model, the directory of the output
    path was created and one file was written: its path is the configured
    output directory joined with the name of the analysed package and
    [.md], whatever the directory that was analysed, and its content is the
    text that [GeneratePackageDoc] returned for the model. *)
Theorem generatePackageDocs_effects (packageDir : string) (config : generator.DocConfig)
    (st : cmd.Run) :
  let res :=
    cmd.generatePackageDocs IsExported doc_New ParseDir r GenerateContent
      packageDescriptionPrompt functionDescriptionPrompt typeDescriptionPrompt
      packageExamplePrompt functionExamplePrompt ExecuteTemplate
      filepath_Join filepath_Dir MkdirAll WriteFile packageDir config st in
  let analysed := analyser.AnalysePackage IsExported doc_New ParseDir r packageDir in
  res.1 ≠ cmd.Panicked ∧
  (∀ err, analysed.2 = Some err →
     res.1 = cmd.Failed (cmd.ErrAnalyzingPackage err) ∧
     cmd.llm res.2 = cmd.llm st ∧ cmd.fs res.2 = cmd.fs st ∧ cmd.log res.2 = cmd.log st) ∧
  (res.1 = cmd.Ok →
     ∃ info text fs1,
       analysed = (Some info, None) ∧
       (generator.GeneratePackageDoc GenerateContent packageDescriptionPrompt
          functionDescriptionPrompt typeDescriptionPrompt packageExamplePrompt
          functionExamplePrompt ExecuteTemplate info config (cmd.llm st)).1.1 = (text, None) ∧
       let outputPath :=
         filepath_Join (generator.OutputDir config) (PackageInfo.Name info +:+ ".md") in
       MkdirAll (cmd.fs st) (filepath_Dir outputPath) = (None, fs1) ∧
       WriteFile fs1 outputPath text = (None, cmd.fs res.2) ∧
       cmd.stdout res.2 =
         cmd.stdout st ++
         ["Analyzing package: " +:+ packageDir +:+ strings.str strings.nl;
          "Generated documentation: " +:+ outputPath +:+ strings.str strings.nl]).
Proof.
  intros res analysed. subst res analysed. unfold cmd.generatePackageDocs.
  destruct (AnalysePackage_result IsExported doc_New ParseDir r packageDir)
    as [[info ->]|[err ->]]; simpl.
  2:{ split; [done|]. split; [by intros ? [= <-]|done]. }
  pose proof (GeneratePackageDoc_enhanced GenerateContent packageDescriptionPrompt
                functionDescriptionPrompt typeDescriptionPrompt packageExamplePrompt
                functionExamplePrompt ExecuteTemplate info config (cmd.llm st))
    as (HName & _).
  change (cmd.llm (cmd.print st _)) with (cmd.llm st).
  destruct (generator.GeneratePackageDoc _ _ _ _ _ _ _ _ _ _)
    as [[[text err] pkg'] w'] eqn:Hgen.
  simpl in HName. rewrite HName.
  destruct err as [err|]; simpl; [by repeat split|].
  destruct (MkdirAll _ _) as [[err|] fs1] eqn:Hmk; simpl; [by repeat split|].
  destruct (WriteFile _ _ _) as [[err|] fs2] eqn:Hwr; simpl; [by repeat split|].
  split; [done|]. split; [done|]. intros _.
  exists info, text, fs1. split; [done|]. split; [by rewrite Hgen|].
  split; [done|]. split; [done|]. by rewrite <- app_assoc.
Qed.

(** ** Visiting one path of the walk *)

(** X24. The function that [generateDocs] hands to [filepath.Walk] returns
    an error only when it was handed one or when reading the directory
    failed, and then it returns that very error; it returns
    [filepath.SkipDir] exactly for a directory that [shouldSkipDir] names.
    A directory with Go source files is documented and the walk continues
    whether that succeeds or not: the error of [generatePackageDocs] is
    logged with the path and is not returned.  It dereferences nil only if
    it is called with neither an error nor a file info. *)
Theorem walkFn_outcome (config : generator.DocConfig) (path : string)
    (info : option cmd.FileInfo) (err : option error) (st : cmd.Run) :
  let walk :=
    cmd.walkFn IsExported doc_New ParseDir r GenerateContent
      packageDescriptionPrompt functionDescriptionPrompt typeDescriptionPrompt
      packageExamplePrompt functionExamplePrompt ExecuteTemplate
      filepath_Join filepath_Dir MkdirAll WriteFile ReadDir config path info err st in
  let documented :=
    cmd.generatePackageDocs IsExported doc_New ParseDir r GenerateContent
      packageDescriptionPrompt functionDescriptionPrompt typeDescriptionPrompt
      packageExamplePrompt functionExamplePrompt ExecuteTemplate
      filepath_Join filepath_Dir MkdirAll WriteFile path config st in
  (walk.1 = cmd.Panics ↔ err = None ∧ info = None) ∧
  (walk.1 = cmd.SkipDir ↔
     err = None ∧ ∃ i, info = Some i ∧ cmd.InfoIsDir i = true ∧
                       cmd.shouldSkipDir path = true) ∧
  (∀ e, walk.1 = cmd.Fails e →
     ∃ e', e = cmd.Passed e' ∧
           (err = Some e' ∨ err = None ∧ (ReadDir (cmd.fs st) path).2 = Some e')) ∧
  (∀ i, err = None → info = Some i → cmd.InfoIsDir i = true →
     cmd.shouldSkipDir path = false →
     cmd.hasGoSourceFiles ReadDir path st = (true, None) →
     walk.1 = cmd.Continue ∧
     match documented.1 with
     | cmd.Failed e =>
         walk.2 = cmd.mkRun (cmd.llm documented.2) (cmd.fs documented.2)
                    (cmd.stdout documented.2) (cmd.log documented.2 ++ [(path, e)])
     | _ => walk.2 = documented.2
     end).
Proof.
  intros walk documented. subst walk documented. unfold cmd.walkFn.
  pose proof (generatePackageDocs_no_panic path config st) as Hnp.
  destruct err as [err|].
  { simpl. split; [by split; [|intros [? _]]|]. split; [by split; [|intros [? _]]|].
    split; [|done]. intros e [= <-]. exists err. split; [done|by left]. }
  destruct info as [i|].
  2:{ simpl. split; [done|]. split; [by split; [|intros (_ & ? & ? & _)]|].
      split; [|done]. by intros e. }
  destruct (cmd.InfoIsDir i) eqn:Hdir; simpl.
  2:{ split; [by split; [|intros [_ ?]]|].
      split; [split; [done|]; intros (_ & i' & [= <-] & ? & _); congruence|].
      split; [by intros e|]. intros i' _ [= <-]. congruence. }
  destruct (cmd.shouldSkipDir path) eqn:Hskip; simpl.
  { split; [by split; [|intros [_ ?]]|].
    split; [split; [|done]; intros _; split; [done|]; by exists i|].
    split; [by intros e|]. by intros i' _ _ _. }
  unfold cmd.hasGoSourceFiles.
  destruct (ReadDir (cmd.fs st) path) as [files rerr] eqn:Hread.
  destruct rerr as [rerr|]; simpl.
  { split; [by split; [|intros [_ ?]]|].
    split; [split; [done|]; intros (_ & i' & _ & _ & ?); done|].
    split; [|by intros i' _ _ _ _].
    intros e [= <-]. exists rerr. split; [done|]. by right. }
  destruct (cmd.anyGoSource files) eqn:Hgo; simpl.
  2:{ split; [by split; [|intros [_ ?]]|].
      split; [split; [done|]; intros (_ & i' & _ & _ & ?); done|].
      split; [by intros e|]. by intros i' _ _ _ _. }
  destruct (cmd.generatePackageDocs _ _ _ _ _ _ _ _ _ _ _ _ _ _ _ _ _ _)
    as [[|e|] st1] eqn:Hdoc; simpl in *; [| |done].
  - split; [by split; [|intros [_ ?]]|].
    split; [split; [done|]; intros (_ & i' & _ & _ & ?); done|].
    split; [by intros e|]. by intros i' _ _ _ _.
  - split; [by split; [|intros [_ ?]]|].
    split; [split; [done|]; intros (_ & i' & _ & _ & ?); done|].
    split; [by intros e'|]. by intros i' _ _ _ _.
Qed.

End CommandProperties.

Lemma generatePackageDocs_effects_witness :
  ∃ info text fs1,
    analyser.AnalysePackage inputs.IsExported inputs.doc_New inputs.ParseDir
      inputs.forwards "demo" = (Some info, None) ∧
    (generator.GeneratePackageDoc inputs.GenerateContent inputs.packagePrompt
       inputs.functionPrompt inputs.typePrompt inputs.packagePrompt
       inputs.functionExamplePrompt inputs.ExecuteTemplate info inputs.config
       (cmd.llm disk.start)).1.1 = (text, None) ∧
    let outputPath :=
      disk.Join (generator.OutputDir inputs.config) (PackageInfo.Name info +:+ ".md") in
    disk.MkdirAll (cmd.fs disk.start) (disk.Dir outputPath) = (None, fs1) ∧
    disk.WriteFile fs1 outputPath text =
      (None,
       cmd.fs (cmd.generatePackageDocs inputs.IsExported inputs.doc_New inputs.ParseDir
                 inputs.forwards inputs.GenerateContent inputs.packagePrompt
                 inputs.functionPrompt inputs.typePrompt inputs.packagePrompt
                 inputs.functionExamplePrompt inputs.ExecuteTemplate
                 disk.Join disk.Dir disk.MkdirAll disk.WriteFile
                 "demo" inputs.config disk.start).2) ∧
    cmd.stdout (cmd.generatePackageDocs inputs.IsExported inputs.doc_New inputs.ParseDir
                  inputs.forwards inputs.GenerateContent inputs.packagePrompt
                  inputs.functionPrompt inputs.typePrompt inputs.packagePrompt
                  inputs.functionExamplePrompt inputs.ExecuteTemplate
                  disk.Join disk.Dir disk.MkdirAll disk.WriteFile
                  "demo" inputs.config disk.start).2 =
      cmd.stdout disk.start ++
      ["Analyzing package: " +:+ "demo" +:+ strings.str strings.nl;
       "Generated documentation: " +:+ outputPath +:+ strings.str strings.nl].
Proof.
  apply (generatePackageDocs_effects inputs.IsExported inputs.doc_New inputs.ParseDir
           inputs.forwards inputs.GenerateContent inputs.packagePrompt
           inputs.functionPrompt inputs.typePrompt inputs.packagePrompt
           inputs.functionExamplePrompt inputs.ExecuteTemplate
           disk.Join disk.Dir disk.MkdirAll disk.WriteFile "demo" inputs.config disk.start).
  vm_compute. reflexivity.
Defined.

Lemma walkFn_outcome_witness :
  (cmd.walkFn inputs.IsExported inputs.doc_New inputs.ParseDir
     inputs.forwards inputs.GenerateContent inputs.packagePrompt
     inputs.functionPrompt inputs.typePrompt inputs.packagePrompt
     inputs.functionExamplePrompt inputs.ExecuteTemplate
     disk.Join disk.Dir disk.MkdirAll disk.WriteFile disk.ReadDir
     inputs.config "demo" (Some (cmd.mkFileInfo true)) None disk.start).1 = cmd.Continue.
Proof.
  destruct (walkFn_outcome inputs.IsExported inputs.doc_New inputs.ParseDir
              inputs.forwards inputs.GenerateContent inputs.packagePrompt
              inputs.functionPrompt inputs.typePrompt inputs.packagePrompt
              inputs.functionExamplePrompt inputs.ExecuteTemplate
              disk.Join disk.Dir disk.MkdirAll disk.WriteFile disk.ReadDir
              inputs.config "demo" (Some (cmd.mkFileInfo true)) None disk.start)
    as (_ & _ & _ & Hdir).
  assert (cmd.shouldSkipDir "demo" = false) as Hskip by (vm_compute; reflexivity).
  assert (cmd.hasGoSourceFiles disk.ReadDir "demo" disk.start = (true, None)) as Hgo
    by (vm_compute; reflexivity).
  exact (proj1 (Hdir (cmd.mkFileInfo true) eq_refl eq_refl eq_refl Hskip Hgo)).
Defined.

(** * Descriptions in the model *)

Lemma cleanDoc_twice (doc : string) :
  analyser.cleanDoc (analyser.cleanDoc doc) = analyser.cleanDoc doc.
Proof. destruct (cleanDoc_Join doc) as (L & HL & ->). by apply cleanDoc_of_Join. Qed.

Lemma analyseFunctionDecl_Description (IsExported : string → bool) (fn : doc.Func) :
  FunctionInfo.Description (analyser.analyseFunctionDecl IsExported fn) =
  analyser.cleanDoc (doc.FDoc fn).
Proof.
  unfold analyser.analyseFunctionDecl.
  destruct (doc.FDecl fn) as [decl|]; [|done].
  by destruct (ast.FType decl), (analyser.getFunctionSignature decl).
Qed.

Lemma analyseTypeDecl_Description (IsExported : string → bool) (typ : doc.Type_) :
  TypeInfo.Description (analyser.analyseTypeDecl IsExported typ) =
  analyser.cleanDoc (doc.TDoc typ).
Proof.
  unfold analyser.analyseTypeDecl.
  apply (for_range_invariant
    (λ info, TypeInfo.Description info = analyser.cleanDoc (doc.TDoc typ))); [|done].
  destruct (doc.TDecl typ) as [Decl|]; [|done].
  apply (for_range_invariant
    (λ info, TypeInfo.Description info = analyser.cleanDoc (doc.TDoc typ))); [done|].
  by intros info [vs|ts|path].
Qed.

Lemma constant_Description (IsExported : string → bool) (c : doc.Value) (k : ConstantInfo.t) :
  k ∈ analyser.analyseConstantDecl IsExported c →
  ConstantInfo.Description k = analyser.cleanDoc (doc.VDoc c).
Proof.
  rewrite analyseConstantDecl_flat_map.
  intros (spec & _ & Hk)%list_elem_of_In%in_flat_map.
  destruct spec as [vs|ts|path]; [|done..].
  apply list_elem_of_In, list_elem_of_lookup in Hk as [i Hi].
  simpl in Hi. rewrite list_lookup_imap in Hi.
  destruct (ast.VNames vs !! i); [|done].
  by injection Hi as <-.
Qed.

Lemma variable_Description (IsExported : string → bool) (v : doc.Value) (x : VariableInfo.t) :
  x ∈ analyser.analyseVariableDecl IsExported v →
  VariableInfo.Description x = analyser.cleanDoc (doc.VDoc v).
Proof.
  rewrite analyseVariableDecl_flat_map.
  intros (spec & _ & Hx)%list_elem_of_In%in_flat_map.
  destruct spec as [vs|ts|path]; [|done..].
  by apply in_map_iff in Hx as (name & <- & _).
Qed.

(** X25. Every description in a model returned by [AnalysePackage] is
    clean already: cleaning the description of the package, of a function
    or method, of a type, of a constant or of a variable once more gives
    it back unchanged. *)
Theorem model_descriptions_clean
    (IsExported : string → bool) (doc_New : ast.Package → doc.Package)
    (ParseDir : string → gmap string ast.Package * option error)
    (r : analyser.MapRange) (dir : string) (info : PackageInfo.t) :
  (analyser.AnalysePackage IsExported doc_New ParseDir r dir).1 = Some info →
  analyser.cleanDoc (PackageInfo.Description info) = PackageInfo.Description info ∧
  (∀ fn, fn ∈ PackageInfo.Functions info →
     analyser.cleanDoc (FunctionInfo.Description fn) = FunctionInfo.Description fn) ∧
  (∀ T, T ∈ PackageInfo.Types info →
     analyser.cleanDoc (TypeInfo.Description T) = TypeInfo.Description T) ∧
  (∀ k, k ∈ PackageInfo.Constants info →
     analyser.cleanDoc (ConstantInfo.Description k) = ConstantInfo.Description k) ∧
  (∀ v, v ∈ PackageInfo.Variables info →
     analyser.cleanDoc (VariableInfo.Description v) = VariableInfo.Description v).
Proof.
  intros (pkgs & pkg & _ & _ & ->)%AnalysePackage_Some. simpl.
  split; [apply cleanDoc_twice|]. split; [|split; [|split]].
  - intros fn [Hfn|Hfn]%elem_of_app.
    + apply list_elem_of_In, in_map_iff in Hfn as (f & <- & _).
      rewrite analyseFunctionDecl_Description. apply cleanDoc_twice.
    + apply list_elem_of_In, in_flat_map in Hfn as (typ & _ & Hfn).
      apply in_map_iff in Hfn as (method & <- & _). simpl.
      rewrite analyseFunctionDecl_Description. apply cleanDoc_twice.
  - intros T (typ & <- & _)%list_elem_of_In%in_map_iff.
    rewrite analyseTypeDecl_Description. apply cleanDoc_twice.
  - intros k (c & _ & Hk)%list_elem_of_In%in_flat_map.
    rewrite (constant_Description IsExported c) by by apply list_elem_of_In.
    apply cleanDoc_twice.
  - intros v (c & _ & Hv)%list_elem_of_In%in_flat_map.
    rewrite (variable_Description IsExported c) by by apply list_elem_of_In.
    apply cleanDoc_twice.
Qed.

Lemma model_descriptions_clean_witness :
  analyser.cleanDoc
    (PackageInfo.Description
       (modelOf inputs.IsExported inputs.doc_New inputs.forwards "demo" inputs.demo_pkg))
  = PackageInfo.Description
       (modelOf inputs.IsExported inputs.doc_New inputs.forwards "demo" inputs.demo_pkg).
Proof.
  apply (model_descriptions_clean inputs.IsExported inputs.doc_New inputs.ParseDir
           inputs.forwards "demo"
           (modelOf inputs.IsExported inputs.doc_New inputs.forwards "demo" inputs.demo_pkg)).
  vm_compute. reflexivity.
Defined.
